(** * Cortex rules engine: a shallow embedding of the Go sources

    The development follows the packages of the repository:

    - Go's dynamically typed values ([any]) and the numeric coercion
      [toFloat64] of the evaluation context;
    - the error taxonomy (sentinels, [RuleError], [errors.Is]);
    - lookup tables ([RangeLookup]), buildup accumulators ([Buildup]);
    - the evaluation context ([EvalContext]) and its exported operations;
    - the lexer, the parser and the evaluator of package [expr];
    - the rule variants (assignment, formula, allocation, buildup);
    - the engine driver ([Engine.Evaluate]) and its [Result].

    [float64] is Rocq's primitive binary64 [float]; Go's [int]/[int64]
    counters are integers with their two's-complement wrap-around written
    out; Go maps are [gmap]s; the mutable context is threaded explicitly. *)

From Stdlib Require Import ZArith QArith String Ascii List Bool Floats Lia.
From stdpp Require Import base option gmap strings list pretty sorting.

Set Warnings "-inexact-float,-register-all".
Local Open Scope string_scope.
Local Open Scope Z_scope.

(** ** Go's [math] package on [float64] *)

Module math.

(** [float64(n)] for an integer [n]: round to nearest, ties to even. *)
Definition ofZ (z : Z) : float :=
  SF2Prim (binary_normalize prec emax z 0 false).

Definition Inf (sign : Z) : float :=
  if 0 <=? sign then infinity else neg_infinity.

Definition Abs (x : float) : float := PrimFloat.abs x.

Definition Sqrt (x : float) : float := PrimFloat.sqrt x.

(** [math.Round]: nearest integer, halves away from zero; zeros,
    infinities and NaN are returned unchanged. *)
Definition Round (x : float) : float :=
  match Prim2SF x with
  | S754_finite s m e =>
      if 0 <=? e then x
      else
        let q := (Zpos m + 2 ^ (- e - 1)) / 2 ^ (- e) in
        SF2Prim (binary_normalize prec emax (if s then - q else q) 0 s)
  | _ => x
  end.

(** [math.Floor]: greatest integer value not above [x]. *)
Definition Floor (x : float) : float :=
  match Prim2SF x with
  | S754_finite s m e =>
      if 0 <=? e then x
      else
        let q := (if s then Zneg m else Zpos m) / 2 ^ (- e) in
        SF2Prim (binary_normalize prec emax q 0 s)
  | _ => x
  end.

(** [math.Ceil] is [-Floor(-x)] in Go's sources. *)
Definition Ceil (x : float) : float := (- Floor (- x))%float.

(** [math.Mod]: the floating-point remainder of [x/y], exact, with the
    sign of [x]; NaN when [y] is zero, [x] infinite or an argument NaN. *)
Definition Mod (x y : float) : float :=
  match Prim2SF x, Prim2SF y with
  | S754_nan, _ | _, S754_nan => nan
  | S754_infinity _, _ => nan
  | _, S754_zero _ => nan
  | _, S754_infinity _ => x
  | S754_zero _, _ => x
  | S754_finite s mx ex, S754_finite _ my ey =>
      let e0 := Z.min ex ey in
      let X := Zpos mx * 2 ^ (ex - e0) in
      let Y := Zpos my * 2 ^ (ey - e0) in
      let R := X mod Y in
      SF2Prim (binary_normalize prec emax (if s then - R else R) e0 s)
  end.

End math.

(** Signed 64-bit wrap-around of Go's [int64] (and [int] on 64-bit
    targets). *)
Definition wrap64 (z : Z) : Z := (z + 2 ^ 63) mod 2 ^ 64 - 2 ^ 63.

(** ** Dynamic values: what an [any] of the engine can hold *)

Inductive value : Type :=
| VNil
| VBool (b : bool)
| VString (s : string)
| VFloat64 (f : float)
| VFloat32 (f : float)   (* a float32, kept as the float64 it widens to *)
| VInt (n : Z)
| VInt64 (n : Z)
| VInt32 (n : Z)
| VInt16 (n : Z)
| VInt8 (n : Z)
| VUint (n : Z)
| VUint64 (n : Z)
| VUint32 (n : Z)
| VUint16 (n : Z)
| VUint8 (n : Z)
| VOther (typeName : string) (tag : Z).  (* any other (comparable) host value *)

(** The [%T] verb of [fmt]. *)
Definition typeName (v : value) : string :=
  match v with
  | VNil => "<nil>"
  | VBool _ => "bool"
  | VString _ => "string"
  | VFloat64 _ => "float64"
  | VFloat32 _ => "float32"
  | VInt _ => "int"
  | VInt64 _ => "int64"
  | VInt32 _ => "int32"
  | VInt16 _ => "int16"
  | VInt8 _ => "int8"
  | VUint _ => "uint"
  | VUint64 _ => "uint64"
  | VUint32 _ => "uint32"
  | VUint16 _ => "uint16"
  | VUint8 _ => "uint8"
  | VOther t _ => t
  end.

Definition isBool (v : value) : bool :=
  match v with VBool _ => true | _ => false end.

(** ** Go's [error] values

    [errorString] is what [errors.New] and a [fmt.Errorf] without [%w]
    return, [wrapError] what [fmt.Errorf] with one [%w] returns (its
    rendered message and the wrapped error), [ruleError] a [*RuleError].
    Go compares these by the identity of the pointer held; the model
    compares structurally (the sentinels carry pairwise distinct
    messages). *)

Inductive error : Type :=
| errorString (s : string)
| wrapError (msg : string) (err : error)
| ruleError (r : RuleError)
with RuleError : Type :=
| mkRuleError (RuleID RuleType Phase : string) (Err : option error).

Definition RuleID (r : RuleError) : string :=
  match r with mkRuleError i _ _ _ => i end.
Definition RuleType (r : RuleError) : string :=
  match r with mkRuleError _ t _ _ => t end.
Definition Phase (r : RuleError) : string :=
  match r with mkRuleError _ _ p _ => p end.
Definition Err (r : RuleError) : option error :=
  match r with mkRuleError _ _ _ e => e end.

(** [err == target] on error values. *)
Fixpoint error_eqb (a b : error) {struct a} : bool :=
  match a, b with
  | errorString s, errorString t => String.eqb s t
  | wrapError m e, wrapError m' e' => String.eqb m m' && error_eqb e e'
  | ruleError r, ruleError r' => RuleError_eqb r r'
  | _, _ => false
  end
with RuleError_eqb (a b : RuleError) {struct a} : bool :=
  match a, b with
  | mkRuleError i t p e, mkRuleError i' t' p' e' =>
      String.eqb i i' && String.eqb t t' && String.eqb p p' &&
      match e, e' with
      | Some x, Some y => error_eqb x y
      | None, None => true
      | _, _ => false
      end
  end.

(** [RuleError.Unwrap] and the [Unwrap] step of package [errors]. *)
Definition RuleError_Unwrap (r : RuleError) : option error := Err r.

Definition Unwrap (e : error) : option error :=
  match e with
  | errorString _ => None
  | wrapError _ inner => Some inner
  | ruleError r => RuleError_Unwrap r
  end.

(** The loop of [errors.Is] on a non-nil error and a non-nil target:
    compare, else unwrap and repeat until the chain ends. *)
Fixpoint errors_is (err target : error) {struct err} : bool :=
  error_eqb err target ||
  match err with
  | errorString _ => false
  | wrapError _ inner => errors_is inner target
  | ruleError (mkRuleError _ _ _ (Some inner)) => errors_is inner target
  | ruleError (mkRuleError _ _ _ None) => false
  end.

(** [errors.Is(err, target)], nil on either side included. *)
Definition errors_Is (err target : option error) : bool :=
  match err, target with
  | Some e, Some t => errors_is e t
  | None, None => true
  | _, _ => false
  end.

(** [NewRuleError]. *)
Definition NewRuleError (ruleID ruleType phase : string) (err : option error)
  : RuleError :=
  mkRuleError ruleID ruleType phase err.

(** ** Package [expr]: the AST and its tree-walking evaluator *)

Module expr.

Inductive TokenType : Type :=
| TokenEOF | TokenError
| TokenNumber | TokenString | TokenIdent | TokenBool
| TokenPlus | TokenMinus | TokenStar | TokenSlash | TokenPercent
| TokenEq | TokenNe | TokenLt | TokenLe | TokenGt | TokenGe
| TokenAnd | TokenOr | TokenNot
| TokenLParen | TokenRParen | TokenComma.

Definition TokenType_String (t : TokenType) : string :=
  match t with
  | TokenEOF => "EOF" | TokenError => "ERROR"
  | TokenNumber => "NUMBER" | TokenString => "STRING"
  | TokenIdent => "IDENT" | TokenBool => "BOOL"
  | TokenPlus => "+" | TokenMinus => "-" | TokenStar => "*"
  | TokenSlash => "/" | TokenPercent => "%"
  | TokenEq => "==" | TokenNe => "!=" | TokenLt => "<" | TokenLe => "<="
  | TokenGt => ">" | TokenGe => ">="
  | TokenAnd => "&&" | TokenOr => "||" | TokenNot => "!"
  | TokenLParen => "(" | TokenRParen => ")" | TokenComma => ","
  end.

Inductive Node : Type :=
| NumberLit (Value : float)
| StringLit (Value : string)
| BoolLit (Value : bool)
| Ident (Name : string)
| BinaryExpr (Op : TokenType) (Left Right : Node)
| UnaryExpr (Op : TokenType) (Expr : Node)
| CallExpr (Name : string) (Args : list Node).

(** [ValueGetter.Get]. *)
Definition ValueGetter : Type := string -> value * bool.

(** [Func]: a function callable from an expression. *)
Definition Func : Type := list value -> value * option error.

Record Evaluator : Type := { funcs : gmap string Func }.

Definition fail (msg : string) : value * option error :=
  (VNil, Some (errorString msg)).

(** The evaluator's own coercion: only float64, float32, int, int64 and
    int32 are numbers here. *)
Definition toFloat (v : value) : float * option error :=
  match v with
  | VFloat64 n => (n, None)
  | VFloat32 n => (n, None)
  | VInt n => (math.ofZ n, None)
  | VInt64 n => (math.ofZ n, None)
  | VInt32 n => (math.ofZ n, None)
  | _ => (0%float, Some (errorString ("expected number, got " ++ typeName v)))
  end.

(** [a == b] on two interface values. *)
Definition value_eqb (a b : value) : bool :=
  match a, b with
  | VNil, VNil => true
  | VBool x, VBool y => Bool.eqb x y
  | VString x, VString y => String.eqb x y
  | VFloat64 x, VFloat64 y => PrimFloat.eqb x y
  | VFloat32 x, VFloat32 y => PrimFloat.eqb x y
  | VInt x, VInt y => Z.eqb x y
  | VInt64 x, VInt64 y => Z.eqb x y
  | VInt32 x, VInt32 y => Z.eqb x y
  | VInt16 x, VInt16 y => Z.eqb x y
  | VInt8 x, VInt8 y => Z.eqb x y
  | VUint x, VUint y => Z.eqb x y
  | VUint64 x, VUint64 y => Z.eqb x y
  | VUint32 x, VUint32 y => Z.eqb x y
  | VUint16 x, VUint16 y => Z.eqb x y
  | VUint8 x, VUint8 y => Z.eqb x y
  | VOther t x, VOther t' y => String.eqb t t' && Z.eqb x y
  | _, _ => false
  end.

Definition equals (a b : value) : bool :=
  match toFloat a, toFloat b with
  | (af, None), (bf, None) => PrimFloat.eqb af bf
  | _, _ => value_eqb a b
  end.

Definition evalUnary (op : TokenType) (val : value) : value * option error :=
  match op with
  | TokenNot =>
      match val with
      | VBool b => (VBool (negb b), None)
      | _ => fail ("expected bool for !, got " ++ typeName val)
      end
  | TokenMinus =>
      match toFloat val with
      | (_, Some err) => (VNil, Some err)
      | (f, None) => (VFloat64 (- f)%float, None)
      end
  | _ => fail ("unknown unary operator: " ++ TokenType_String op)
  end.

(** Both operands coerced in turn, the left one first. *)
Definition withFloats (left right : value)
    (k : float -> float -> value * option error) : value * option error :=
  match toFloat left with
  | (_, Some err) => (VNil, Some err)
  | (lf, None) =>
      match toFloat right with
      | (_, Some err) => (VNil, Some err)
      | (rf, None) => k lf rf
      end
  end.

Definition evalBinary (op : TokenType) (left right : value)
  : value * option error :=
  match op with
  | TokenAnd =>
      match left, right with
      | VBool l, VBool r => (VBool (l && r), None)
      | _, _ => fail "expected bool for &&"
      end
  | TokenOr =>
      match left, right with
      | VBool l, VBool r => (VBool (l || r), None)
      | _, _ => fail "expected bool for ||"
      end
  | TokenEq => (VBool (equals left right), None)
  | TokenNe => (VBool (negb (equals left right)), None)
  | TokenLt => withFloats left right (fun lf rf => (VBool (lf <? rf)%float, None))
  | TokenLe => withFloats left right (fun lf rf => (VBool (lf <=? rf)%float, None))
  | TokenGt => withFloats left right (fun lf rf => (VBool (rf <? lf)%float, None))
  | TokenGe => withFloats left right (fun lf rf => (VBool (rf <=? lf)%float, None))
  | TokenPlus =>
      match left, right with
      | VString ls, VString rs => (VString (ls ++ rs), None)
      | _, _ => withFloats left right (fun lf rf => (VFloat64 (lf + rf)%float, None))
      end
  | TokenMinus => withFloats left right (fun lf rf => (VFloat64 (lf - rf)%float, None))
  | TokenStar => withFloats left right (fun lf rf => (VFloat64 (lf * rf)%float, None))
  | TokenSlash =>
      withFloats left right (fun lf rf =>
        if (rf =? 0)%float then fail "division by zero"
        else (VFloat64 (lf / rf)%float, None))
  | TokenPercent =>
      withFloats left right (fun lf rf =>
        if (rf =? 0)%float then fail "modulo by zero"
        else (VFloat64 (math.Mod lf rf), None))
  | _ => fail ("unknown binary operator: " ++ TokenType_String op)
  end.

Fixpoint eval (e : Evaluator) (getter : ValueGetter) (node : Node) {struct node}
  : value * option error :=
  match node with
  | NumberLit v => (VFloat64 v, None)
  | StringLit s => (VString s, None)
  | BoolLit b => (VBool b, None)
  | Ident name =>
      let '(val, ok) := getter name in
      if ok then (val, None) else fail ("undefined variable: " ++ name)
  | UnaryExpr op x =>
      match eval e getter x with
      | (_, Some err) => (VNil, Some err)
      | (val, None) => evalUnary op val
      end
  | BinaryExpr op l r =>
      match eval e getter l with
      | (_, Some err) => (VNil, Some err)
      | (lv, None) =>
          match eval e getter r with
          | (_, Some err) => (VNil, Some err)
          | (rv, None) => evalBinary op lv rv
          end
      end
  | CallExpr name args =>
      match funcs e !! name with
      | None => fail ("undefined function: " ++ name)
      | Some fn =>
          let fix evalArgs (l : list Node) : list value * option error :=
            match l with
            | [] => ([], None)
            | a :: l' =>
                match eval e getter a with
                | (_, Some err) => ([], Some err)
                | (val, None) =>
                    let '(vals, err) := evalArgs l' in (val :: vals, err)
                end
            end in
          match evalArgs args with
          | (_, Some err) => (VNil, Some err)
          | (vals, None) => fn vals
          end
      end
  end.

(** *** Built-in functions

    [math.Pow] is Go's library routine (a frexp/ldexp loop for the
    integral part of the exponent, [Exp] and [Log] for the rest); the
    built-ins that call it take it as the section's variable. *)

Section Builtins.

Variable Pow : float -> float -> float.

Fixpoint minLoop (result : float) (args : list value) : value * option error :=
  match args with
  | [] => (VFloat64 result, None)
  | arg :: rest =>
      match toFloat arg with
      | (_, Some err) => (VNil, Some err)
      | (f, None) => minLoop (if (f <? result)%float then f else result) rest
      end
  end.

Definition funcMin : Func := fun args =>
  match args with
  | a0 :: ((_ :: _) as rest) =>
      match toFloat a0 with
      | (_, Some err) => (VNil, Some err)
      | (result, None) => minLoop result rest
      end
  | _ => fail "min requires at least 2 arguments"
  end.

Fixpoint maxLoop (result : float) (args : list value) : value * option error :=
  match args with
  | [] => (VFloat64 result, None)
  | arg :: rest =>
      match toFloat arg with
      | (_, Some err) => (VNil, Some err)
      | (f, None) => maxLoop (if (result <? f)%float then f else result) rest
      end
  end.

Definition funcMax : Func := fun args =>
  match args with
  | a0 :: ((_ :: _) as rest) =>
      match toFloat a0 with
      | (_, Some err) => (VNil, Some err)
      | (result, None) => maxLoop result rest
      end
  | _ => fail "max requires at least 2 arguments"
  end.

(** The shape shared by [abs], [floor], [ceil] and [sqrt]. *)
Definition unaryMath (name : string) (op : float -> float) : Func := fun args =>
  match args with
  | [a] =>
      match toFloat a with
      | (_, Some err) => (VNil, Some err)
      | (f, None) => (VFloat64 (op f), None)
      end
  | _ => fail (name ++ " requires 1 argument")
  end.

Definition funcAbs : Func := unaryMath "abs" math.Abs.
Definition funcFloor : Func := unaryMath "floor" math.Floor.
Definition funcCeil : Func := unaryMath "ceil" math.Ceil.
Definition funcSqrt : Func := unaryMath "sqrt" math.Sqrt.

Definition funcRound : Func := fun args =>
  match args with
  | [a] =>
      match toFloat a with
      | (_, Some err) => (VNil, Some err)
      | (f, None) => (VFloat64 (math.Round f), None)
      end
  | [a; p] =>
      match toFloat a with
      | (_, Some err) => (VNil, Some err)
      | (f, None) =>
          match toFloat p with
          | (_, Some err) => (VNil, Some err)
          | (precision, None) =>
              let multiplier := Pow 10%float precision in
              (VFloat64 (math.Round (f * multiplier) / multiplier)%float, None)
          end
      end
  | _ => fail "round requires 1 or 2 arguments"
  end.

Definition funcIf : Func := fun args =>
  match args with
  | [c; a; b] =>
      match c with
      | VBool cond => if cond then (a, None) else (b, None)
      | _ => fail "if condition must be bool"
      end
  | _ => fail "if requires 3 arguments (condition, then, else)"
  end.

Definition funcPow : Func := fun args =>
  match args with
  | [a; b] =>
      match toFloat a with
      | (_, Some err) => (VNil, Some err)
      | (base, None) =>
          match toFloat b with
          | (_, Some err) => (VNil, Some err)
          | (exp, None) => (VFloat64 (Pow base exp), None)
          end
      end
  | _ => fail "pow requires 2 arguments"
  end.

(** [NewEvaluator]: an evaluator holding the built-ins. *)
Definition NewEvaluator : Evaluator :=
  {| funcs :=
       <["pow" := funcPow]> (<["sqrt" := funcSqrt]> (<["if" := funcIf]>
       (<["round" := funcRound]> (<["ceil" := funcCeil]>
       (<["floor" := funcFloor]> (<["abs" := funcAbs]>
       (<["max" := funcMax]> (<["min" := funcMin]> ∅)))))))) |}.

End Builtins.

Definition Evaluator_RegisterFunc (e : Evaluator) (name : string) (fn : Func)
  : Evaluator :=
  {| funcs := <[name := fn]> (funcs e) |}.

(** A compiled expression. [Compile] builds one from the AST that [Parse]
    returns for the input, with a fresh evaluator. *)
Record Expression : Type := {
  raw : string;
  ast : Node;
  evaluator : Evaluator
}.

Definition Compiled (Pow : float -> float -> float) (input : string)
    (tree : Node) : Expression :=
  {| raw := input; ast := tree; evaluator := NewEvaluator Pow |}.

Definition Raw (e : Expression) : string := raw e.

(** [Expression.Eval] ([Eval] is reserved in Rocq). *)
Definition Expression_Eval (e : Expression) (getter : ValueGetter)
  : value * option error :=
  eval (evaluator e) getter (ast e).

Definition EvalFloat64 (e : Expression) (getter : ValueGetter)
  : float * option error :=
  match Expression_Eval e getter with
  | (_, Some err) => (0%float, Some err)
  | (result, None) => toFloat result
  end.

Definition EvalBool (e : Expression) (getter : ValueGetter)
  : bool * option error :=
  match Expression_Eval e getter with
  | (_, Some err) => (false, Some err)
  | (result, None) =>
      match result with
      | VBool b => (b, None)
      | _ => (false, None)
      end
  end.

Definition RegisterFunc (e : Expression) (name : string) (fn : Func)
  : Expression :=
  {| raw := raw e; ast := ast e;
     evaluator := Evaluator_RegisterFunc (evaluator e) name fn |}.

(** [mapGetter]: a map used as the value source. *)
Definition mapGetter (m : gmap string value) : ValueGetter := fun key =>
  match m !! key with
  | Some v => (v, true)
  | None => (VNil, false)
  end.

Definition EvalWithMap (e : Expression) (values : gmap string value)
  : value * option error :=
  Expression_Eval e (mapGetter values).

(** *** The lexer

    The input is indexed by bytes; [l_ch] is the byte at [l_pos - 1]
    widened to a rune, 0 past the end. [l_pos] never exceeds the length
    of the input by more than one, so Go's [int] is a [nat] here. *)

Record Token : Type := {
  t_Type : TokenType;
  t_Literal : string;
  t_Pos : Z
}.

Record Lexer : Type := {
  l_input : string;
  l_pos : nat;
  l_ch : ascii
}.

(** [l.input[i]] as a rune, for an index in range. *)
Definition byteAt (s : string) (i : nat) : ascii :=
  match String.get i s with
  | Some c => c
  | None => Ascii.zero
  end.

Definition readChar (l : Lexer) : Lexer :=
  {| l_input := l_input l;
     l_pos := S (l_pos l);
     l_ch := if (String.length (l_input l) <=? l_pos l)%nat then Ascii.zero
             else byteAt (l_input l) (l_pos l) |}.

Definition NewLexer (input : string) : Lexer :=
  readChar {| l_input := input; l_pos := 0; l_ch := Ascii.zero |}.

Definition peekChar (l : Lexer) : ascii :=
  if (String.length (l_input l) <=? l_pos l)%nat then Ascii.zero
  else byteAt (l_input l) (l_pos l).

Definition isSpace (c : ascii) : bool :=
  Ascii.eqb c " " || Ascii.eqb c (ascii_of_nat 9)
  || Ascii.eqb c (ascii_of_nat 10) || Ascii.eqb c (ascii_of_nat 13).

Definition isDigit (c : ascii) : bool :=
  (48 <=? nat_of_ascii c)%nat && (nat_of_ascii c <=? 57)%nat.

(** [unicode.IsLetter] on a rune below 256: the letters of Latin-1. *)
Definition unicode_IsLetter (c : ascii) : bool :=
  let n := nat_of_ascii c in
  ((65 <=? n) && (n <=? 90) || (97 <=? n) && (n <=? 122)
   || (n =? 170) || (n =? 181) || (n =? 186)
   || (192 <=? n) && (n <=? 214) || (216 <=? n) && (n <=? 246)
   || (248 <=? n) && (n <=? 255))%nat.

Definition isLetter (c : ascii) : bool :=
  unicode_IsLetter c || Ascii.eqb c "_".

(** [for cond(l.ch) { l.readChar() }]. A turn of such a loop needs a
    byte of the input, so the input's length bounds the turns; the
    bound is never what ends the loop ([readWhile_exits]). *)
Fixpoint readWhile (cond : ascii -> bool) (turns : nat) (l : Lexer) : Lexer :=
  match turns with
  | O => l
  | S turns' => if cond (l_ch l) then readWhile cond turns' (readChar l) else l
  end.

Definition skipWhitespace (l : Lexer) : Lexer :=
  readWhile isSpace (String.length (l_input l)) l.

(** [l.input[start : end]]. *)
Definition slice (s : string) (first last : nat) : string :=
  String.substring first (last - first) s.

(** The loop of [readNumber], with its [hasDot]. *)
Fixpoint readNumberLoop (turns : nat) (hasDot : bool) (l : Lexer) : Lexer :=
  match turns with
  | O => l
  | S turns' =>
      if isDigit (l_ch l) || (Ascii.eqb (l_ch l) "." && negb hasDot) then
        readNumberLoop turns' (if Ascii.eqb (l_ch l) "." then true else hasDot)
                       (readChar l)
      else l
  end.

(** The tokens of the [read...] methods carry no position: [NextToken]
    sets it. *)
Definition readNumber (l : Lexer) : Token * Lexer :=
  let start := (l_pos l - 1)%nat in
  let l' := readNumberLoop (String.length (l_input l)) false l in
  ({| t_Type := TokenNumber;
      t_Literal := slice (l_input l') start (l_pos l' - 1); t_Pos := 0 |}, l').

Definition readIdentifier (l : Lexer) : Token * Lexer :=
  let start := (l_pos l - 1)%nat in
  let l' := readWhile (fun c => isLetter c || isDigit c || Ascii.eqb c "_")
              (String.length (l_input l)) l in
  let literal := slice (l_input l') start (l_pos l' - 1) in
  if String.eqb literal "true" || String.eqb literal "false" then
    ({| t_Type := TokenBool; t_Literal := literal; t_Pos := 0 |}, l')
  else
    ({| t_Type := TokenIdent; t_Literal := literal; t_Pos := 0 |}, l').

Definition readString (l : Lexer) (quote : ascii) : Token * Lexer :=
  let l1 := readChar l in
  let start := (l_pos l1 - 1)%nat in
  let l2 := readWhile (fun c => negb (Ascii.eqb c quote) && negb (Ascii.eqb c Ascii.zero))
              (String.length (l_input l)) l1 in
  if Ascii.eqb (l_ch l2) Ascii.zero then
    ({| t_Type := TokenError; t_Literal := "unterminated string"; t_Pos := 0 |}, l2)
  else
    ({| t_Type := TokenString;
        t_Literal := slice (l_input l2) start (l_pos l2 - 1); t_Pos := 0 |},
     readChar l2).

(** [string(r)] for a rune below 256: the rune's UTF-8 encoding, one
    byte below 128 and two bytes from there on. *)
Definition runeString (c : ascii) : string :=
  let n := nat_of_ascii c in
  if (n <? 128)%nat then String c ""
  else String (ascii_of_nat (192 + n / 64))
         (String (ascii_of_nat (128 + n mod 64)) "").

Definition withPos (tl : Token * Lexer) (p : Z) : Token * Lexer :=
  ({| t_Type := t_Type (fst tl); t_Literal := t_Literal (fst tl); t_Pos := p |},
   snd tl).

Definition NextToken (l0 : Lexer) : Token * Lexer :=
  let l := skipWhitespace l0 in
  let p := Z.of_nat (l_pos l) - 1 in
  let tok (ty : TokenType) (lit : string) : Token :=
    {| t_Type := ty; t_Literal := lit; t_Pos := p |} in
  let c := l_ch l in
  let two (ty : TokenType) (lit : string) (ty1 : TokenType) (lit1 : string)
      : Token * Lexer :=
    if Ascii.eqb (peekChar l) "=" then (tok ty lit, readChar (readChar l))
    else (tok ty1 lit1, readChar l) in
  if Ascii.eqb c Ascii.zero then (tok TokenEOF "", l)
  else if Ascii.eqb c "+" then (tok TokenPlus "+", readChar l)
  else if Ascii.eqb c "-" then (tok TokenMinus "-", readChar l)
  else if Ascii.eqb c "*" then (tok TokenStar "*", readChar l)
  else if Ascii.eqb c "/" then (tok TokenSlash "/", readChar l)
  else if Ascii.eqb c "%" then (tok TokenPercent "%", readChar l)
  else if Ascii.eqb c "(" then (tok TokenLParen "(", readChar l)
  else if Ascii.eqb c ")" then (tok TokenRParen ")", readChar l)
  else if Ascii.eqb c "," then (tok TokenComma ",", readChar l)
  else if Ascii.eqb c "=" then two TokenEq "==" TokenError "unexpected '='"
  else if Ascii.eqb c "!" then two TokenNe "!=" TokenNot "!"
  else if Ascii.eqb c "<" then two TokenLe "<=" TokenLt "<"
  else if Ascii.eqb c ">" then two TokenGe ">=" TokenGt ">"
  else if Ascii.eqb c "&" then
    if Ascii.eqb (peekChar l) "&" then (tok TokenAnd "&&", readChar (readChar l))
    else (tok TokenError "unexpected '&'", readChar l)
  else if Ascii.eqb c "|" then
    if Ascii.eqb (peekChar l) "|" then (tok TokenOr "||", readChar (readChar l))
    else (tok TokenError "unexpected '|'", readChar l)
  else if Ascii.eqb c (ascii_of_nat 34) || Ascii.eqb c "'" then
    withPos (readString l c) p
  else if isDigit c then withPos (readNumber l) p
  else if isLetter c then withPos (readIdentifier l) p
  else (tok TokenError (runeString c), readChar l).

Definition isLast (t : Token) : bool :=
  match t_Type t with
  | TokenEOF | TokenError => true
  | _ => false
  end.

(** The loop of [Tokenize]. A token that is not the last one takes at
    least one byte, so the tokens are no more than the bytes and one;
    the bound is never what ends the loop ([tokenizeLoop_ends]). *)
Fixpoint tokenizeLoop (turns : nat) (l : Lexer) : list Token :=
  match turns with
  | O => []
  | S turns' =>
      let '(tok, l') := NextToken l in
      if isLast tok then [tok] else tok :: tokenizeLoop turns' l'
  end.

Definition Tokenize (input : string) : list Token :=
  tokenizeLoop (S (String.length input)) (NewLexer input).

(** *** The parser

    A tree with a nil in it is produced only together with an entry in
    [errors], and [Parse] then returns no tree; the functions below
    return [None] for any such tree. The recursion is bounded by
    [depth]; [None] outside is the bound reached, which does not happen
    from [Parse] ([parse_depth_enough]). *)

Section Parsing.

(** [strconv.ParseFloat(s, 64)]: the float64, or [None] for an error. *)
Variable ParseFloat : string -> option float.

Variable Pow : float -> float -> float.

Record Parser : Type := {
  p_lexer : Lexer;
  p_current : Token;
  p_peek : Token;
  p_errors : list string
}.

Definition advance (p : Parser) : Parser :=
  let '(tok, l) := NextToken (p_lexer p) in
  {| p_lexer := l; p_current := p_peek p; p_peek := tok;
     p_errors := p_errors p |}.

Definition addError (p : Parser) (msg : string) : Parser :=
  {| p_lexer := p_lexer p; p_current := p_current p; p_peek := p_peek p;
     p_errors := (p_errors p ++ [msg])%list |}.

Definition Errors (p : Parser) : list string := p_errors p.

Definition NewParser (input : string) : Parser :=
  let zero := {| t_Type := TokenEOF; t_Literal := ""; t_Pos := 0 |} in
  advance (advance {| p_lexer := NewLexer input; p_current := zero;
                      p_peek := zero; p_errors := [] |}).

Definition precLowest : Z := 0.
Definition precOr : Z := 1.
Definition precAnd : Z := 2.
Definition precCompare : Z := 3.
Definition precSum : Z := 4.
Definition precProduct : Z := 5.

Definition precedence (t : TokenType) : Z :=
  match t with
  | TokenOr => precOr
  | TokenAnd => precAnd
  | TokenEq | TokenNe | TokenLt | TokenLe | TokenGt | TokenGe => precCompare
  | TokenPlus | TokenMinus => precSum
  | TokenStar | TokenSlash | TokenPercent => precProduct
  | _ => precLowest
  end.

(** A node of the tree, [None] for nil. *)
Definition mkBinary (op : TokenType) (l r : option Node) : option Node :=
  match l, r with
  | Some a, Some b => Some (BinaryExpr op a b)
  | _, _ => None
  end.

Definition mkUnary (op : TokenType) (x : option Node) : option Node :=
  match x with
  | Some a => Some (UnaryExpr op a)
  | None => None
  end.

Fixpoint allNodes (args : list (option Node)) : option (list Node) :=
  match args with
  | [] => Some []
  | Some a :: rest =>
      match allNodes rest with
      | Some l => Some (a :: l)
      | None => None
      end
  | None :: _ => None
  end.

Definition mkCall (name : string) (args : list (option Node)) : option Node :=
  match allNodes args with
  | Some l => Some (CallExpr name l)
  | None => None
  end.

(** The end of [parseCall]: the closing parenthesis. *)
Definition closeCall (name : string) (args : list (option Node)) (p : Parser)
  : option Node * Parser :=
  match t_Type (p_current p) with
  | TokenRParen => (mkCall name args, advance p)
  | _ => (None, addError p "expected ')'")
  end.

Fixpoint parseExpression (depth : nat) (p : Parser) (prec : Z) {struct depth}
  : option (option Node * Parser) :=
  match depth with
  | O => None
  | S d =>
      match parseUnary d p with
      | None => None
      | Some (lhs, p1) => parseBinaryLoop d p1 prec lhs
      end
  end
(** [for prec < precedence(p.current.Type) { ... }]. *)
with parseBinaryLoop (depth : nat) (p : Parser) (prec : Z) (lhs : option Node)
    {struct depth} : option (option Node * Parser) :=
  match depth with
  | O => None
  | S d =>
      if prec <? precedence (t_Type (p_current p)) then
        let op := t_Type (p_current p) in
        let opPrec := precedence op in
        match parseExpression d (advance p) opPrec with
        | None => None
        | Some (rhs, p1) => parseBinaryLoop d p1 prec (mkBinary op lhs rhs)
        end
      else Some (lhs, p)
  end
with parseUnary (depth : nat) (p : Parser) {struct depth}
  : option (option Node * Parser) :=
  match depth with
  | O => None
  | S d =>
      match t_Type (p_current p) with
      | TokenNot | TokenMinus =>
          let op := t_Type (p_current p) in
          match parseUnary d (advance p) with
          | None => None
          | Some (x, p1) => Some (mkUnary op x, p1)
          end
      | _ => parsePrimary d p
      end
  end
with parsePrimary (depth : nat) (p : Parser) {struct depth}
  : option (option Node * Parser) :=
  match depth with
  | O => None
  | S d =>
      match t_Type (p_current p) with
      | TokenNumber =>
          match ParseFloat (t_Literal (p_current p)) with
          | None =>
              Some (None,
                    addError p ("invalid number: " ++ t_Literal (p_current p)))
          | Some val => Some (Some (NumberLit val), advance p)
          end
      | TokenString =>
          Some (Some (StringLit (t_Literal (p_current p))), advance p)
      | TokenBool =>
          Some (Some (BoolLit (String.eqb (t_Literal (p_current p)) "true")),
                advance p)
      | TokenIdent =>
          let name := t_Literal (p_current p) in
          let p1 := advance p in
          match t_Type (p_current p1) with
          | TokenLParen => parseCall d p1 name
          | _ => Some (Some (Ident name), p1)
          end
      | TokenLParen =>
          match parseExpression d (advance p) precLowest with
          | None => None
          | Some (node, p1) =>
              match t_Type (p_current p1) with
              | TokenRParen => Some (node, advance p1)
              | _ => Some (None, addError p1 "expected ')'")
              end
          end
      | ty =>
          Some (None, addError p ("unexpected token: " ++ TokenType_String ty))
      end
  end
with parseCall (depth : nat) (p : Parser) (name : string) {struct depth}
  : option (option Node * Parser) :=
  match depth with
  | O => None
  | S d =>
      let p1 := advance p in
      match t_Type (p_current p1) with
      | TokenRParen => Some (closeCall name [] p1)
      | _ =>
          match parseExpression d p1 precLowest with
          | None => None
          | Some (a, p2) =>
              match parseArgsLoop d p2 [a] with
              | None => None
              | Some (args, p3) => Some (closeCall name args p3)
              end
          end
      end
  end
(** [for p.current.Type == TokenComma { ... }]. *)
with parseArgsLoop (depth : nat) (p : Parser) (args : list (option Node))
    {struct depth} : option (list (option Node) * Parser) :=
  match depth with
  | O => None
  | S d =>
      match t_Type (p_current p) with
      | TokenComma =>
          match parseExpression d (advance p) precLowest with
          | None => None
          | Some (a, p1) => parseArgsLoop d p1 (args ++ [a])%list
          end
      | _ => Some (args, p)
      end
  end.

(** The [%v] verb on a slice of strings. *)
Definition formatStrings (l : list string) : string :=
  "[" ++ String.concat " " l ++ "]".

(** [Parser.Parse]: the tree, the error, and the parser as the call
    leaves it. *)
Definition Parser_Parse (depth : nat) (p : Parser)
  : option (option Node * option error * Parser) :=
  match parseExpression depth p precLowest with
  | None => None
  | Some (node, p1) =>
      match t_Type (p_current p1) with
      | TokenEOF =>
          if (0 <? length (p_errors p1))%nat then
            Some (None,
                  Some (errorString
                          ("parse errors: " ++ formatStrings (p_errors p1))),
                  p1)
          else Some (node, None, p1)
      | ty =>
          Some (None,
                Some (errorString
                        ("unexpected token " ++ TokenType_String ty
                           ++ " at position " ++ pretty (t_Pos (p_current p1)))),
                p1)
      end
  end.

(** A depth no parse of the input reaches. *)
Definition parseDepth (input : string) : nat := 3 * String.length input + 9.

(** [Parse]. *)
Definition Parse (input : string) : option (option Node * option error) :=
  match Parser_Parse (parseDepth input) (NewParser input) with
  | None => None
  | Some (node, err, _) => Some (node, err)
  end.

(** [Compile]. [Parse] gives no tree only with an error, so the case
    of neither does not arise. *)
Definition Compile (input : string) : option (option Expression * option error) :=
  match Parse input with
  | None => None
  | Some (_, Some err) => Some (None, Some err)
  | Some (None, None) => Some (None, None)
  | Some (Some tree, None) =>
      Some (Some {| raw := input; ast := tree; evaluator := NewEvaluator Pow |},
            None)
  end.

End Parsing.

End expr.

(** ** Package [cortex]

    Four routines of Go's standard library are taken as given: [quote]
    is [strconv.Quote], the [%q] verb of [fmt] on a string (it needs the
    Unicode tables); [format2f] is the [%.2f] verb on a float64;
    [formatValue] is the [%v] verb on a value; [Pow] is [math.Pow]. *)

Section Cortex.

Variable quote : string -> string.
Variable format2f : float -> string.
Variable formatValue : value -> string.
Variable Pow : float -> float -> float.

(** *** Errors *)

Definition ErrRuleNotFound := errorString "cortex: rule not found".
Definition ErrLookupNotFound := errorString "cortex: lookup table not found".
Definition ErrKeyNotFound := errorString "cortex: key not found in lookup".
Definition ErrValueNotFound := errorString "cortex: value not found in context".
Definition ErrBuildupNotFound := errorString "cortex: buildup not found".
Definition ErrInvalidRule := errorString "cortex: invalid rule configuration".
Definition ErrInvalidExpression := errorString "cortex: invalid expression".
Definition ErrTypeMismatch := errorString "cortex: type mismatch".
Definition ErrDivisionByZero := errorString "cortex: division by zero".
Definition ErrAllocationSum :=
  errorString "cortex: allocation percentages must sum to 100".
Definition ErrCircularDep := errorString "cortex: circular dependency detected".
Definition ErrEvaluation := errorString "cortex: evaluation failed".
Definition ErrShortCircuit := errorString "cortex: evaluation short-circuited".
Definition ErrEngineClosed := errorString "cortex: engine is closed".
Definition ErrTimeout := errorString "cortex: evaluation timeout".
Definition ErrNilContext := errorString "cortex: nil evaluation context".
Definition ErrDuplicateRule := errorString "cortex: duplicate rule ID".
Definition ErrDuplicateLookup :=
  errorString "cortex: duplicate lookup table name".

(** The [Error()] method: the stored text of an [errorString] or a
    [wrapError], and for a [RuleError]
    [fmt.Sprintf("cortex: rule %q (%s) %s: %v", ...)], without the
    parenthesis when the rule type is empty. [%v] prints a nil error as
    [<nil>]. *)
Fixpoint Error (e : error) {struct e} : string :=
  match e with
  | errorString s => s
  | wrapError msg _ => msg
  | ruleError r => RuleError_Error r
  end
with RuleError_Error (r : RuleError) {struct r} : string :=
  match r with
  | mkRuleError ruleID ruleType phase err =>
      let cause :=
        match err with
        | Some e => Error e
        | None => "<nil>"
        end in
      if negb (String.eqb ruleType "") then
        "cortex: rule " ++ quote ruleID ++ " (" ++ ruleType ++ ") " ++ phase
          ++ ": " ++ cause
      else
        "cortex: rule " ++ quote ruleID ++ " " ++ phase ++ ": " ++ cause
  end.

(** [fmt.Errorf("%w: " + rest)] on a sentinel: the sentinel's text, a
    colon, the rest; the result wraps the sentinel. *)
Definition wrapf (sentinel : error) (rest : string) : error :=
  match sentinel with
  | errorString s => wrapError (s ++ ": " ++ rest) sentinel
  | _ => wrapError rest sentinel
  end.

(** *** Numeric coercion of the context *)

Definition toFloat64 (v : value) : float * option error :=
  match v with
  | VFloat64 n => (n, None)
  | VFloat32 n => (n, None)
  | VInt n | VInt64 n | VInt32 n | VInt16 n | VInt8 n => (math.ofZ n, None)
  | VUint n | VUint64 n | VUint32 n | VUint16 n | VUint8 n => (math.ofZ n, None)
  | _ => (0%float,
          Some (wrapf ErrTypeMismatch ("expected numeric, got " ++ typeName v)))
  end.

(** *** Lookup tables *)

(** The [Lookup] interface. *)
Record Lookup : Type := {
  Lookup_Name : string;
  Lookup_Get : value -> value * bool
}.

Section MapLookups.

(** [K] and [V] are the table's key and value types: [fromAny] is the
    type assertion [key.(K)], [zero] the zero value of [V], [toAny] the
    conversion of a [V] to [any]. *)
Context {K V : Type} `{Countable K}.
Context (fromAny : value -> option K) (zero : V) (toAny : V -> value).

Record MapLookup : Type := {
  ml_name : string;
  items : gmap K V
}.

Definition NewMapLookup (name : string) (m : gmap K V) : MapLookup :=
  {| ml_name := name; items := m |}.

Definition MapLookup_Name (l : MapLookup) : string := ml_name l.

Definition MapLookup_Get (l : MapLookup) (key : value) : value * bool :=
  match fromAny key with
  | None => (VNil, false)
  | Some k =>
      match items l !! k with
      | Some v => (toAny v, true)
      | None => (toAny zero, false)
      end
  end.

Definition MapLookup_asLookup (l : MapLookup) : Lookup :=
  {| Lookup_Name := MapLookup_Name l; Lookup_Get := MapLookup_Get l |}.

End MapLookups.

Section RangeLookups.

(** [V] is the table's value type, [toAny] its conversion to [any]. *)
Context {V : Type} (toAny : V -> value).

Record RangeEntry : Type := {
  Min : float;   (* inclusive *)
  Max : float;   (* exclusive *)
  Value : V
}.

Record RangeLookup : Type := {
  rl_name : string;
  ranges : list RangeEntry
}.

Definition NewRangeLookup (name : string) (rs : list RangeEntry) : RangeLookup :=
  {| rl_name := name; ranges := rs |}.

Definition RangeLookup_Name (l : RangeLookup) : string := rl_name l.

(** The test of the loop body: [k >= r.Min && k < r.Max]. *)
Definition inRange (r : RangeEntry) (k : float) : bool :=
  (Min r <=? k)%float && (k <? Max r)%float.

Fixpoint scanRanges (rs : list RangeEntry) (k : float) : value * bool :=
  match rs with
  | [] => (VNil, false)
  | r :: rest => if inRange r k then (toAny (Value r), true) else scanRanges rest k
  end.

Definition RangeLookup_Get (l : RangeLookup) (key : value) : value * bool :=
  match toFloat64 key with
  | (_, Some _) => (VNil, false)
  | (k, None) => scanRanges (ranges l) k
  end.

(** A [RangeLookup] used through the [Lookup] interface. *)
Definition RangeLookup_asLookup (l : RangeLookup) : Lookup :=
  {| Lookup_Name := RangeLookup_Name l; Lookup_Get := RangeLookup_Get l |}.

End RangeLookups.

Arguments RangeEntry : clear implicits.
Arguments RangeLookup : clear implicits.

(** [TaxBracket] and [NewTaxBracketLookup]: a [Max] of 0 stands for
    no upper bound. *)
Record TaxBracket : Type := {
  tb_Min : float;
  tb_Max : float;
  tb_Rate : float
}.

Definition NewTaxBracketLookup (name : string) (brackets : list TaxBracket)
  : RangeLookup float :=
  NewRangeLookup name
    (map (fun b =>
            {| Min := tb_Min b;
               Max := if (tb_Max b =? 0)%float then math.Inf 1 else tb_Max b;
               Value := tb_Rate b |}) brackets).

(** *** Buildup accumulators *)

Inductive BuildupOperation : Type :=
| BuildupSum | BuildupMin | BuildupMax | BuildupAvg | BuildupCount
| BuildupProduct.

Definition BuildupOperation_eqb (a b : BuildupOperation) : bool :=
  match a, b with
  | BuildupSum, BuildupSum | BuildupMin, BuildupMin | BuildupMax, BuildupMax
  | BuildupAvg, BuildupAvg | BuildupCount, BuildupCount
  | BuildupProduct, BuildupProduct => true
  | _, _ => false
  end.

Record Buildup : Type := {
  b_Name : string;
  b_Operation : BuildupOperation;
  b_value : float;
  b_count : Z          (* int64 *)
}.

Definition Buildup_Add (b : Buildup) (v : float) : Buildup :=
  let count := wrap64 (b_count b + 1) in
  let cur := b_value b in
  {| b_Name := b_Name b;
     b_Operation := b_Operation b;
     b_value :=
       match b_Operation b with
       | BuildupSum => (cur + v)%float
       | BuildupMin => if (count =? 1) || (v <? cur)%float then v else cur
       | BuildupMax => if (count =? 1) || (cur <? v)%float then v else cur
       | BuildupAvg => (cur + v)%float
       | BuildupCount => math.ofZ count
       | BuildupProduct => if count =? 1 then v else (cur * v)%float
       end;
     b_count := count |}.

Definition Buildup_Current (b : Buildup) : float :=
  match b_Operation b with
  | BuildupAvg =>
      if 0 <? b_count b then (b_value b / math.ofZ (b_count b))%float
      else b_value b
  | _ => b_value b
  end.

Definition Buildup_Count (b : Buildup) : Z := b_count b.

Definition Buildup_Reset (b : Buildup) (initial : float) : Buildup :=
  {| b_Name := b_Name b; b_Operation := b_Operation b;
     b_value := initial; b_count := 0 |}.

(** *** The evaluation context

    The lock and the creation time are left out: every operation below is
    one critical section, and wall-clock time is not modelled. Buildups
    are owned by the context and reached by name. *)

Record EvalContext : Type := {
  ID : string;
  values : gmap string value;
  buildups : gmap string Buildup;
  lookups : gmap string Lookup;
  metadata : gmap string string;
  halted : bool;
  haltedBy : string;
  rulesEvaluated : Z;    (* atomic.Int64 *)
  errCount : Z           (* atomic.Int64 *)
}.

(** [NewEvalContext]; the generated identifier is the argument. *)
Definition NewEvalContext (id : string) : EvalContext :=
  {| ID := id; values := ∅; buildups := ∅; lookups := ∅; metadata := ∅;
     halted := false; haltedBy := ""; rulesEvaluated := 0; errCount := 0 |}.

Definition Get (e : EvalContext) (key : string) : value * bool :=
  match values e !! key with
  | Some v => (v, true)
  | None => (VNil, false)
  end.

Definition Set_ (e : EvalContext) (key : string) (v : value) : EvalContext :=
  {| ID := ID e; values := <[key := v]> (values e); buildups := buildups e;
     lookups := lookups e; metadata := metadata e; halted := halted e;
     haltedBy := haltedBy e; rulesEvaluated := rulesEvaluated e;
     errCount := errCount e |}.

Definition Delete (e : EvalContext) (key : string) : EvalContext :=
  {| ID := ID e; values := delete key (values e); buildups := buildups e;
     lookups := lookups e; metadata := metadata e; halted := halted e;
     haltedBy := haltedBy e; rulesEvaluated := rulesEvaluated e;
     errCount := errCount e |}.

Definition Has (e : EvalContext) (key : string) : bool :=
  match values e !! key with Some _ => true | None => false end.

(** [Values]: a copy of the map. *)
Definition Values (e : EvalContext) : gmap string value := values e.

Definition GetFloat64 (e : EvalContext) (key : string) : float * option error :=
  match Get e key with
  | (_, false) => (0%float, Some (wrapf ErrValueNotFound key))
  | (v, true) => toFloat64 v
  end.

Definition GetString (e : EvalContext) (key : string) : string * option error :=
  match Get e key with
  | (_, false) => ("", Some (wrapf ErrValueNotFound key))
  | (VString s, true) => (s, None)
  | (v, true) =>
      ("", Some (wrapf ErrTypeMismatch ("expected string, got " ++ typeName v)))
  end.

Definition GetBool (e : EvalContext) (key : string) : bool * option error :=
  match Get e key with
  | (_, false) => (false, Some (wrapf ErrValueNotFound key))
  | (VBool b, true) => (b, None)
  | (v, true) =>
      (false, Some (wrapf ErrTypeMismatch ("expected bool, got " ++ typeName v)))
  end.

Definition RegisterLookup (e : EvalContext) (l : Lookup) : EvalContext :=
  {| ID := ID e; values := values e; buildups := buildups e;
     lookups := <[Lookup_Name l := l]> (lookups e); metadata := metadata e;
     halted := halted e; haltedBy := haltedBy e;
     rulesEvaluated := rulesEvaluated e; errCount := errCount e |}.

Definition Lookup_ (e : EvalContext) (tableName : string) (key : value)
  : value * bool * option error :=
  match lookups e !! tableName with
  | None => (VNil, false, Some (wrapf ErrLookupNotFound tableName))
  | Some l => let '(v, found) := Lookup_Get l key in (v, found, None)
  end.

Definition GetBuildup (e : EvalContext) (key : string) : option Buildup :=
  buildups e !! key.

Definition with_buildups (e : EvalContext) (bs : gmap string Buildup)
  : EvalContext :=
  {| ID := ID e; values := values e; buildups := bs; lookups := lookups e;
     metadata := metadata e; halted := halted e; haltedBy := haltedBy e;
     rulesEvaluated := rulesEvaluated e; errCount := errCount e |}.

(** [GetOrCreateBuildup]: the context after the call and the accumulator
    returned (the one now stored under [key]). *)
Definition GetOrCreateBuildup (e : EvalContext) (key : string)
    (op : BuildupOperation) (initial : float) : EvalContext * Buildup :=
  match buildups e !! key with
  | Some b => (e, b)
  | None =>
      let b := {| b_Name := key; b_Operation := op; b_value := initial;
                  b_count := 0 |} in
      (with_buildups e (<[key := b]> (buildups e)), b)
  end.

Definition SetMetadata (e : EvalContext) (key val : string) : EvalContext :=
  {| ID := ID e; values := values e; buildups := buildups e;
     lookups := lookups e; metadata := <[key := val]> (metadata e);
     halted := halted e; haltedBy := haltedBy e;
     rulesEvaluated := rulesEvaluated e; errCount := errCount e |}.

Definition GetMetadata (e : EvalContext) (key : string) : string * bool :=
  match metadata e !! key with
  | Some v => (v, true)
  | None => ("", false)
  end.

Definition Halt (e : EvalContext) (ruleID : string) : EvalContext :=
  {| ID := ID e; values := values e; buildups := buildups e;
     lookups := lookups e; metadata := metadata e;
     halted := true; haltedBy := ruleID;
     rulesEvaluated := rulesEvaluated e; errCount := errCount e |}.

Definition IsHalted (e : EvalContext) : bool := halted e.

Definition HaltedBy (e : EvalContext) : string := haltedBy e.

Definition incRulesEvaluated (e : EvalContext) : EvalContext :=
  {| ID := ID e; values := values e; buildups := buildups e;
     lookups := lookups e; metadata := metadata e; halted := halted e;
     haltedBy := haltedBy e;
     rulesEvaluated := wrap64 (rulesEvaluated e + 1);
     errCount := errCount e |}.

Definition incErrors (e : EvalContext) : EvalContext :=
  {| ID := ID e; values := values e; buildups := buildups e;
     lookups := lookups e; metadata := metadata e; halted := halted e;
     haltedBy := haltedBy e; rulesEvaluated := rulesEvaluated e;
     errCount := wrap64 (errCount e + 1) |}.

Definition RulesEvaluated (e : EvalContext) : Z := rulesEvaluated e.

Definition ErrorCount (e : EvalContext) : Z := errCount e.

(** [Clone]: a new context with a fresh id, copies of the values and the
    metadata, the same lookups, no buildups, not halted, counters at 0. *)
Definition Clone (e : EvalContext) (freshID : string) : EvalContext :=
  {| ID := freshID; values := values e; buildups := ∅; lookups := lookups e;
     metadata := metadata e; halted := false; haltedBy := "";
     rulesEvaluated := 0; errCount := 0 |}.

(** *** What code outside the package can do to a context

    The mutations reachable through exported methods and fields: the
    methods of [EvalContext], the methods and exported fields of a
    [Buildup] held by the context, and the exported field [ID]. The
    counters have no exported mutator. *)

Inductive CtxOp : Type :=
| OpSet (key : string) (v : value)
| OpDelete (key : string)
| OpRegisterLookup (l : Lookup)
| OpGetOrCreateBuildup (key : string) (op : BuildupOperation) (initial : float)
| OpSetMetadata (key val : string)
| OpHalt (ruleID : string)
| OpBuildupAdd (name : string) (v : float)
| OpBuildupReset (name : string) (initial : float)
| OpBuildupSetName (name : string) (newName : string)
| OpBuildupSetOperation (name : string) (op : BuildupOperation)
| OpSetID (id : string).

Definition applyOp (e : EvalContext) (o : CtxOp) : EvalContext :=
  match o with
  | OpSet key v => Set_ e key v
  | OpDelete key => Delete e key
  | OpRegisterLookup l => RegisterLookup e l
  | OpGetOrCreateBuildup key op initial =>
      fst (GetOrCreateBuildup e key op initial)
  | OpSetMetadata key val => SetMetadata e key val
  | OpHalt ruleID => Halt e ruleID
  | OpBuildupAdd name v =>
      with_buildups e (alter (fun b => Buildup_Add b v) name (buildups e))
  | OpBuildupReset name initial =>
      with_buildups e (alter (fun b => Buildup_Reset b initial) name (buildups e))
  | OpBuildupSetName name newName =>
      with_buildups e
        (alter (fun b => {| b_Name := newName; b_Operation := b_Operation b;
                            b_value := b_value b; b_count := b_count b |})
               name (buildups e))
  | OpBuildupSetOperation name op =>
      with_buildups e
        (alter (fun b => {| b_Name := b_Name b; b_Operation := op;
                            b_value := b_value b; b_count := b_count b |})
               name (buildups e))
  | OpSetID id =>
      {| ID := id; values := values e; buildups := buildups e;
         lookups := lookups e; metadata := metadata e; halted := halted e;
         haltedBy := haltedBy e; rulesEvaluated := rulesEvaluated e;
         errCount := errCount e |}
  end.

(** Every step a context can take: an exported mutation, or one of the
    two counter increments the engine performs. *)
Inductive CtxStep : Type :=
| StepOp (o : CtxOp)
| StepIncRulesEvaluated
| StepIncErrors.

Definition applyStep (e : EvalContext) (s : CtxStep) : EvalContext :=
  match s with
  | StepOp o => applyOp e o
  | StepIncRulesEvaluated => incRulesEvaluated e
  | StepIncErrors => incErrors e
  end.

(** A computation over a context that acts through the exported API
    only: it returns, reads the context, or performs one mutation and
    goes on. Rule bodies and the host's callbacks have this shape. *)
Inductive Host (A : Type) : Type :=
| Done (a : A)
| Observe (k : EvalContext -> Host A)
| Mutate (o : CtxOp) (k : Host A).

Arguments Done {A} a.
Arguments Observe {A} k.
Arguments Mutate {A} o k.

Fixpoint Host_bind {A B : Type} (f : A -> Host B) (p : Host A) : Host B :=
  match p with
  | Done a => f a
  | Observe k => Observe (fun e => Host_bind f (k e))
  | Mutate o k => Mutate o (Host_bind f k)
  end.

#[local] Instance Host_mret : MRet Host := fun A a => Done a.
#[local] Instance Host_mbind : MBind Host := fun A B f p => Host_bind f p.

Fixpoint run {A : Type} (p : Host A) (e : EvalContext) : EvalContext * A :=
  match p with
  | Done a => (e, a)
  | Observe k => run (k e) e
  | Mutate o k => run k (applyOp e o)
  end.

(** The exported methods as [Host] actions. *)
Definition evalCtx_Get (key : string) : Host (value * bool) :=
  Observe (fun e => Done (Get e key)).

Definition evalCtx_GetFloat64 (key : string) : Host (float * option error) :=
  Observe (fun e => Done (GetFloat64 e key)).

Definition evalCtx_Lookup (tableName : string) (key : value)
  : Host (value * bool * option error) :=
  Observe (fun e => Done (Lookup_ e tableName key)).

Definition evalCtx_Set (key : string) (v : value) : Host unit :=
  Mutate (OpSet key v) (Done tt).

Definition evalCtx_Halt (ruleID : string) : Host unit :=
  Mutate (OpHalt ruleID) (Done tt).

(** [b := evalCtx.GetOrCreateBuildup(...)]: the accumulator is then
    addressed by its key. *)
Definition evalCtx_GetOrCreateBuildup (key : string) (op : BuildupOperation)
    (initial : float) : Host unit :=
  Mutate (OpGetOrCreateBuildup key op initial) (Done tt).

Definition buildup_Add (name : string) (v : float) : Host unit :=
  Mutate (OpBuildupAdd name v) (Done tt).

Definition buildup_Current (name : string) : Host float :=
  Observe (fun e =>
    Done (match buildups e !! name with
          | Some b => Buildup_Current b
          | None => 0%float
          end)).

(** *** Rules *)

(** The [Rule] interface: an identifier and a body run against the
    evaluation context, returning nil or an error. *)
Record Rule : Type := {
  Rule_ID : string;
  Rule_Evaluate : Host (option error)
}.

Definition RuleTypeAssignment : string := "assignment".
Definition RuleTypeFormula : string := "formula".
Definition RuleTypeAllocation : string := "allocation".
Definition RuleTypeLookup : string := "lookup".
Definition RuleTypeBuildup : string := "buildup".

Record baseRule : Type := {
  br_id : string;
  br_name : string;
  br_description : string;
  br_deps : list string
}.

Definition isEmpty (s : string) : bool := String.eqb s "".

(** The error a rule returns from [Evaluate]: a [RuleError] of its type
    in phase evaluate. *)
Definition evaluateError (ruleID ruleType : string) (cause : error) : option error :=
  Some (ruleError (NewRuleError ruleID ruleType "evaluate" (Some cause))).

(** **** Assignment *)

(** [ValueFunc] and [FormulaFunc]: host functions of the context. *)
Definition ValueFunc : Type := Host (value * option error).
Definition FormulaFunc : Type := Host (value * option error).

Record AssignmentRule : Type := {
  ar_base : baseRule;
  ar_target : string;
  ar_value : value;
  ar_valueFunc : option ValueFunc
}.

Record AssignmentConfig : Type := {
  ac_ID : string;
  ac_Name : string;
  ac_Description : string;
  ac_Deps : list string;
  ac_Target : string;
  ac_Value : value;                  (* [VNil] when not given *)
  ac_ValueFunc : option ValueFunc    (* [None] when not given *)
}.

Definition isNil (v : value) : bool :=
  match v with VNil => true | _ => false end.

Definition NewAssignment (cfg : AssignmentConfig)
  : option AssignmentRule * option error :=
  if isEmpty (ac_ID cfg) then
    (None, Some (wrapf ErrInvalidRule "assignment rule requires ID"))
  else if isEmpty (ac_Target cfg) then
    (None, Some (wrapf ErrInvalidRule
                   ("assignment rule " ++ quote (ac_ID cfg) ++ " requires target")))
  else if isNil (ac_Value cfg) && negb (bool_decide (is_Some (ac_ValueFunc cfg))) then
    (None, Some (wrapf ErrInvalidRule
                   ("assignment rule " ++ quote (ac_ID cfg)
                      ++ " requires value or value function")))
  else
    (Some {| ar_base := {| br_id := ac_ID cfg; br_name := ac_Name cfg;
                           br_description := ac_Description cfg;
                           br_deps := ac_Deps cfg |};
             ar_target := ac_Target cfg;
             ar_value := ac_Value cfg;
             ar_valueFunc := ac_ValueFunc cfg |}, None).

Definition AssignmentRule_Evaluate (r : AssignmentRule) : Host (option error) :=
  match ar_valueFunc r with
  | Some valueFunc =>
      '(v, err) ← valueFunc;
      match err with
      | Some e => mret (evaluateError (br_id (ar_base r)) RuleTypeAssignment e)
      | None => evalCtx_Set (ar_target r) v;; mret None
      end
  | None => evalCtx_Set (ar_target r) (ar_value r);; mret None
  end.

Definition AssignmentRule_Target (r : AssignmentRule) : string := ar_target r.

Definition AssignmentRule_asRule (r : AssignmentRule) : Rule :=
  {| Rule_ID := br_id (ar_base r); Rule_Evaluate := AssignmentRule_Evaluate r |}.

(** **** Formula *)

Record FormulaRule : Type := {
  fr_base : baseRule;
  fr_target : string;
  fr_inputs : list string;
  fr_formula : option FormulaFunc;
  fr_expression : string;
  fr_compiledExpr : option expr.Expression
}.

Definition FormulaRule_Evaluate (r : FormulaRule) : Host (option error) :=
  let finish (res : value * option error) : Host (option error) :=
    match res with
    | (_, Some e) => mret (evaluateError (br_id (fr_base r)) RuleTypeFormula e)
    | (result, None) => evalCtx_Set (fr_target r) result;; mret None
    end in
  match fr_formula r with
  | Some formula => res ← formula; finish res
  | None =>
      match fr_compiledExpr r with
      | Some compiled =>
          res ← Observe (fun e => Done (expr.Expression_Eval compiled (Get e)));
          finish res
      | None =>
          mret (evaluateError (br_id (fr_base r)) RuleTypeFormula
                  (errorString "no formula or expression configured"))
      end
  end.

Definition FormulaRule_asRule (r : FormulaRule) : Rule :=
  {| Rule_ID := br_id (fr_base r); Rule_Evaluate := FormulaRule_Evaluate r |}.

(** **** Lookup *)

Record LookupRule : Type := {
  lr_base : baseRule;
  lr_table : string;
  lr_keySource : string;   (* context key to use as lookup key *)
  lr_target : string;
  lr_defaultVal : value;
  lr_required : bool
}.

Record LookupConfig : Type := {
  lc_ID : string;
  lc_Name : string;
  lc_Description : string;
  lc_Deps : list string;
  lc_Table : string;
  lc_Key : string;
  lc_Target : string;
  lc_Default : value;
  lc_Required : bool
}.

Definition NewLookup (cfg : LookupConfig) : option LookupRule * option error :=
  if isEmpty (lc_ID cfg) then
    (None, Some (wrapf ErrInvalidRule "lookup rule requires ID"))
  else if isEmpty (lc_Table cfg) then
    (None, Some (wrapf ErrInvalidRule
                   ("lookup rule " ++ quote (lc_ID cfg) ++ " requires table")))
  else if isEmpty (lc_Key cfg) then
    (None, Some (wrapf ErrInvalidRule
                   ("lookup rule " ++ quote (lc_ID cfg) ++ " requires key")))
  else if isEmpty (lc_Target cfg) then
    (None, Some (wrapf ErrInvalidRule
                   ("lookup rule " ++ quote (lc_ID cfg) ++ " requires target")))
  else
    (Some {| lr_base := {| br_id := lc_ID cfg; br_name := lc_Name cfg;
                           br_description := lc_Description cfg;
                           br_deps := lc_Deps cfg |};
             lr_table := lc_Table cfg;
             lr_keySource := lc_Key cfg;
             lr_target := lc_Target cfg;
             lr_defaultVal := lc_Default cfg;
             lr_required := lc_Required cfg |}, None).

Definition LookupRule_Evaluate (r : LookupRule) : Host (option error) :=
  '(key, ok) ← evalCtx_Get (lr_keySource r);
  if negb ok then
    mret (evaluateError (br_id (lr_base r)) RuleTypeLookup
            (wrapf ErrValueNotFound (lr_keySource r)))
  else
    '(v, found, err) ← evalCtx_Lookup (lr_table r) key;
    match err with
    | Some e => mret (evaluateError (br_id (lr_base r)) RuleTypeLookup e)
    | None =>
        if negb found then
          if lr_required r then
            mret (evaluateError (br_id (lr_base r)) RuleTypeLookup
                    (wrapf ErrKeyNotFound
                       (formatValue key ++ " in table " ++ lr_table r)))
          else evalCtx_Set (lr_target r) (lr_defaultVal r);; mret None
        else evalCtx_Set (lr_target r) v;; mret None
    end.

Definition LookupRule_asRule (r : LookupRule) : Rule :=
  {| Rule_ID := br_id (lr_base r); Rule_Evaluate := LookupRule_Evaluate r |}.

(** **** Allocation *)

Inductive AllocationStrategy : Type :=
| StrategyPercentage | StrategyFixed | StrategyWeighted | StrategyEqual
| StrategyRatio.

Record AllocationTarget : Type := {
  Key : string;
  Amount : float
}.

Record AllocationRule : Type := {
  al_base : baseRule;
  al_source : string;
  al_strategy : AllocationStrategy;
  al_targets : list AllocationTarget;
  al_remainder : string;   (* optional: key for the rounding remainder *)
  al_precision : Z         (* decimal precision *)
}.

Record AllocationConfig : Type := {
  alc_ID : string;
  alc_Name : string;
  alc_Description : string;
  alc_Deps : list string;
  alc_Source : string;
  alc_Strategy : AllocationStrategy;
  alc_Targets : list AllocationTarget;
  alc_Remainder : string;
  alc_Precision : Z
}.

(** [var sum float64; for ... { sum += t.Amount }]. *)
Definition sumAmounts (ts : list AllocationTarget) : float :=
  fold_left (fun acc t => (acc + Amount t)%float) ts 0%float.

Definition NewAllocation (cfg : AllocationConfig)
  : option AllocationRule * option error :=
  if isEmpty (alc_ID cfg) then
    (None, Some (wrapf ErrInvalidRule "allocation rule requires ID"))
  else if isEmpty (alc_Source cfg) then
    (None, Some (wrapf ErrInvalidRule
                   ("allocation rule " ++ quote (alc_ID cfg) ++ " requires source")))
  else if (length (alc_Targets cfg) =? 0)%nat then
    (None, Some (wrapf ErrInvalidRule
                   ("allocation rule " ++ quote (alc_ID cfg)
                      ++ " requires at least one target")))
  else
    let invalid : option error :=
      match alc_Strategy cfg with
      | StrategyPercentage =>
          let sum := sumAmounts (alc_Targets cfg) in
          if (0.0001 <? math.Abs (sum - 100))%float then
            Some (wrapf ErrAllocationSum
                    ("allocation rule " ++ quote (alc_ID cfg)
                       ++ " percentages sum to " ++ format2f sum ++ ", not 100"))
          else None
      | StrategyEqual => None
      | _ =>
          match List.find (fun t => (Amount t <? 0)%float) (alc_Targets cfg) with
          | Some t =>
              Some (wrapf ErrInvalidRule
                      ("allocation rule " ++ quote (alc_ID cfg)
                         ++ " has negative amount for " ++ quote (Key t)))
          | None => None
          end
      end in
    match invalid with
    | Some err => (None, Some err)
    | None =>
        (Some {| al_base := {| br_id := alc_ID cfg; br_name := alc_Name cfg;
                               br_description := alc_Description cfg;
                               br_deps := alc_Deps cfg |};
                 al_source := alc_Source cfg;
                 al_strategy := alc_Strategy cfg;
                 al_targets := alc_Targets cfg;
                 al_remainder := alc_Remainder cfg;
                 al_precision :=
                   if alc_Precision cfg <=? 0 then 2 else alc_Precision cfg |},
         None)
    end.

(** [round]: to [precision] decimal places. *)
Definition AllocationRule_round (r : AllocationRule) (v : float) : float :=
  let multiplier := Pow 10%float (math.ofZ (al_precision r)) in
  (math.Round (v * multiplier) / multiplier)%float.

(** One pass over the targets: each share is stored and added to the
    running total. *)
Fixpoint allocate (share : AllocationTarget -> float)
    (ts : list AllocationTarget) (total : float) : list float * float :=
  match ts with
  | [] => ([], total)
  | t :: rest =>
      let a := share t in
      let '(allocations, total') := allocate share rest (total + a)%float in
      (a :: allocations, total')
  end.

Definition calculate (r : AllocationRule) (source : float)
  : list float * float :=
  let n := length (al_targets r) in
  let round := AllocationRule_round r in
  let distribute (share : AllocationTarget -> float) :=
    let '(allocations, total) := allocate share (al_targets r) 0%float in
    (allocations, (source - total)%float) in
  match al_strategy r with
  | StrategyPercentage =>
      distribute (fun t => round (source * Amount t / 100)%float)
  | StrategyFixed =>
      distribute (fun t => round (Amount t))
  | StrategyWeighted =>
      let totalWeight := sumAmounts (al_targets r) in
      if (totalWeight =? 0)%float then (repeat 0%float n, source)
      else distribute (fun t => round (source * Amount t / totalWeight)%float)
  | StrategyEqual =>
      let each := round (source / math.ofZ (Z.of_nat n))%float in
      distribute (fun _ => each)
  | StrategyRatio =>
      let totalRatio := sumAmounts (al_targets r) in
      if (totalRatio =? 0)%float then (repeat 0%float n, source)
      else distribute (fun t => round (source * Amount t / totalRatio)%float)
  end.

(** [for i, t := range r.targets { evalCtx.Set(t.Key, allocations[i]) }];
    [allocations] always has one entry per target. *)
Fixpoint setTargets (ts : list AllocationTarget) (allocations : list float)
    (i : nat) : Host unit :=
  match ts with
  | [] => mret tt
  | t :: rest =>
      evalCtx_Set (Key t) (VFloat64 (nth i allocations 0%float));;
      setTargets rest allocations (S i)
  end.

Definition AllocationRule_Evaluate (r : AllocationRule) : Host (option error) :=
  '(source, err) ← evalCtx_GetFloat64 (al_source r);
  match err with
  | Some e => mret (evaluateError (br_id (al_base r)) RuleTypeAllocation e)
  | None =>
      let '(allocations, remainder) := calculate r source in
      setTargets (al_targets r) allocations 0%nat;;
      (if negb (isEmpty (al_remainder r)) && negb (remainder =? 0)%float
       then evalCtx_Set (al_remainder r) (VFloat64 remainder)
       else mret tt);;
      mret None
  end.

Definition AllocationRule_asRule (r : AllocationRule) : Rule :=
  {| Rule_ID := br_id (al_base r); Rule_Evaluate := AllocationRule_Evaluate r |}.

(** **** Buildup *)

Record BuildupRule : Type := {
  bu_base : baseRule;
  bu_buildup : string;
  bu_operation : BuildupOperation;
  bu_source : string;
  bu_initial : float;
  bu_target : string
}.

Record BuildupConfig : Type := {
  bc_ID : string;
  bc_Name : string;
  bc_Description : string;
  bc_Deps : list string;
  bc_Buildup : string;
  bc_Operation : BuildupOperation;
  bc_Source : string;
  bc_Initial : float;
  bc_Target : string
}.

Definition NewBuildup (cfg : BuildupConfig) : option BuildupRule * option error :=
  if isEmpty (bc_ID cfg) then
    (None, Some (wrapf ErrInvalidRule "buildup rule requires ID"))
  else if isEmpty (bc_Buildup cfg) then
    (None, Some (wrapf ErrInvalidRule
                   ("buildup rule " ++ quote (bc_ID cfg) ++ " requires buildup name")))
  else if isEmpty (bc_Source cfg)
          && negb (BuildupOperation_eqb (bc_Operation cfg) BuildupCount) then
    (None, Some (wrapf ErrInvalidRule
                   ("buildup rule " ++ quote (bc_ID cfg)
                      ++ " requires source (except for count)")))
  else
    let initial :=
      if (bc_Initial cfg =? 0)%float then
        match bc_Operation cfg with
        | BuildupMin => math.Inf 1
        | BuildupMax => math.Inf (-1)
        | BuildupProduct => 1%float
        | _ => bc_Initial cfg
        end
      else bc_Initial cfg in
    (Some {| bu_base := {| br_id := bc_ID cfg; br_name := bc_Name cfg;
                           br_description := bc_Description cfg;
                           br_deps := bc_Deps cfg |};
             bu_buildup := bc_Buildup cfg;
             bu_operation := bc_Operation cfg;
             bu_source := bc_Source cfg;
             bu_initial := initial;
             bu_target := bc_Target cfg |}, None).

Definition BuildupRule_Evaluate (r : BuildupRule) : Host (option error) :=
  '(v, err) ← (if BuildupOperation_eqb (bu_operation r) BuildupCount
               then mret (1%float, None)
               else evalCtx_GetFloat64 (bu_source r));
  match err with
  | Some e => mret (evaluateError (br_id (bu_base r)) RuleTypeBuildup e)
  | None =>
      evalCtx_GetOrCreateBuildup (bu_buildup r) (bu_operation r) (bu_initial r);;
      buildup_Add (bu_buildup r) v;;
      (if negb (isEmpty (bu_target r))
       then cur ← buildup_Current (bu_buildup r);
            evalCtx_Set (bu_target r) (VFloat64 cur)
       else mret tt);;
      mret None
  end.


(** *** The engine *)

Inductive EvalMode : Type :=
| ModeFailFast | ModeCollectAll | ModeContinueOnError.

Record Config : Type := {
  Mode : EvalMode;
  Timeout : Z;            (* a duration; 0 = none *)
  ShortCircuit : bool;
  EnableMetrics : bool;
  MaxRules : Z            (* 0 = unlimited *)
}.

Definition DefaultConfig : Config :=
  {| Mode := ModeFailFast; Timeout := 0; ShortCircuit := true;
     EnableMetrics := true; MaxRules := 0 |}.

Definition Config_Validate (c : Config) : option error :=
  if Timeout c <? 0 then Some ErrInvalidRule
  else if MaxRules c <? 0 then Some ErrInvalidRule
  else None.

(** [applyDefaults] resets a mode outside the three declared ones to
    fail-fast; every [EvalMode] here is one of the three. *)
Definition applyDefaults (c : Config) : Config := c.

(** The observability hooks are left out: they receive no evaluation
    context. *)
Record Engine : Type := {
  e_name : string;
  e_config : Config;
  e_closed : bool;
  e_rules : list Rule;
  e_ruleIDs : gset string;
  e_lookups : gmap string Lookup
}.

Definition New (name : string) (config : option Config) : Engine :=
  let config := applyDefaults (default DefaultConfig config) in
  {| e_name := name; e_config := config; e_closed := false;
     e_rules := []; e_ruleIDs := ∅; e_lookups := ∅ |}.

Definition AddRule (e : Engine) (rule : Rule) : Engine * option error :=
  if e_closed e then (e, Some ErrEngineClosed)
  else if bool_decide (Rule_ID rule ∈ e_ruleIDs e) then
    (e, Some (wrapf ErrDuplicateRule (Rule_ID rule)))
  else if (0 <? MaxRules (e_config e))
          && (MaxRules (e_config e) <=? Z.of_nat (length (e_rules e))) then
    (e, Some (wrapf ErrInvalidRule
                ("max rules limit reached (" ++ pretty (MaxRules (e_config e)) ++ ")")))
  else
    ({| e_name := e_name e; e_config := e_config e; e_closed := e_closed e;
        e_rules := (e_rules e ++ [rule])%list;
        e_ruleIDs := {[Rule_ID rule]} ∪ e_ruleIDs e;
        e_lookups := e_lookups e |}, None).

Fixpoint AddRules (e : Engine) (rules : list Rule) : Engine * option error :=
  match rules with
  | [] => (e, None)
  | rule :: rest =>
      match AddRule e rule with
      | (e', Some err) => (e', Some err)
      | (e', None) => AddRules e' rest
      end
  end.

Definition Engine_RegisterLookup (e : Engine) (l : Lookup) : Engine * option error :=
  if e_closed e then (e, Some ErrEngineClosed)
  else if bool_decide (is_Some (e_lookups e !! Lookup_Name l)) then
    (e, Some (wrapf ErrDuplicateLookup (Lookup_Name l)))
  else
    ({| e_name := e_name e; e_config := e_config e; e_closed := e_closed e;
        e_rules := e_rules e; e_ruleIDs := e_ruleIDs e;
        e_lookups := <[Lookup_Name l := l]> (e_lookups e) |}, None).


Definition Lookups (e : Engine) : Z := Z.of_nat (size (e_lookups e)).

(** [Engine.Clone]: the configuration and the lookups, no rules. *)
Definition Engine_Clone (e : Engine) (name : string) : Engine :=
  {| e_name := name; e_config := applyDefaults (e_config e); e_closed := false;
     e_rules := []; e_ruleIDs := ∅; e_lookups := e_lookups e |}.

Definition Close (e : Engine) : Engine :=
  {| e_name := e_name e; e_config := e_config e; e_closed := true;
     e_rules := e_rules e; e_ruleIDs := e_ruleIDs e; e_lookups := e_lookups e |}.

(** [Result]; the duration is not modelled, [Context] is the evaluation
    context as the call left it. *)
Record Result : Type := {
  r_ID : string;
  r_Success : bool;
  r_RulesEvaluated : Z;
  r_RulesFailed : Z;
  r_Errors : list RuleError;
  r_HaltedBy : string;
  r_Context : EvalContext
}.

Definition HasErrors (r : Result) : bool :=
  (0 <? Z.of_nat (length (r_Errors r))).

Definition newResult (evalCtx : EvalContext) (errors : list RuleError) : Result :=
  {| r_ID := ID evalCtx;
     r_Success := (length errors =? 0)%nat && negb (IsHalted evalCtx);
     r_RulesEvaluated := RulesEvaluated evalCtx;
     r_RulesFailed := Z.of_nat (length errors);
     r_Errors := errors;
     r_HaltedBy := HaltedBy evalCtx;
     r_Context := evalCtx |}.

(** [evaluateRule]: the rule's body run against the context. *)
Definition evaluateRule (rule : Rule) (evalCtx : EvalContext)
  : EvalContext * option error :=
  run (Rule_Evaluate rule) evalCtx.

(** The error of a [context.Context] that is done. *)
Inductive ContextErr : Type := Canceled | DeadlineExceeded.

Definition ContextErr_Error (c : ContextErr) : string :=
  match c with
  | Canceled => "context canceled"
  | DeadlineExceeded => "context deadline exceeded"
  end.

(** How the loop over the rules ends. *)
Inductive LoopEnd : Type :=
| Finished (evalCtx : EvalContext) (errors : list RuleError)
| FailedFast (evalCtx : EvalContext) (errors : list RuleError) (err : error)
| Cancelled (evalCtx : EvalContext) (cause : ContextErr).

(** The [RuleError] recorded for a failed rule: the error itself when it
    already is one, else a new one with an empty rule type. *)
Definition asRuleError (rule : Rule) (err : error) : RuleError :=
  match err with
  | ruleError re => re
  | _ => NewRuleError (Rule_ID rule) "" "evaluate" (Some err)
  end.

(** The loop of [Evaluate]. [ctxDone i] is what the cancellation check
    before the rule at position [i] sees: [Some cause] when the
    [context.Context] is done (deadline or cancellation), with
    [ctx.Err()] as the cause. *)
Fixpoint evalLoop (cfg : Config) (ctxDone : nat -> option ContextErr) (i : nat)
    (rules : list Rule) (evalCtx : EvalContext) (errors : list RuleError)
  : LoopEnd :=
  match rules with
  | [] => Finished evalCtx errors
  | rule :: rest =>
      match ctxDone i with
      | Some cause => Cancelled evalCtx cause
      | None =>
          if ShortCircuit cfg && IsHalted evalCtx then Finished evalCtx errors
          else
            match evaluateRule rule evalCtx with
            | (evalCtx1, Some err) =>
                let evalCtx2 := incErrors evalCtx1 in
                let errors' := (errors ++ [asRuleError rule err])%list in
                match Mode cfg with
                | ModeFailFast => FailedFast evalCtx2 errors' err
                | ModeCollectAll | ModeContinueOnError =>
                    evalLoop cfg ctxDone (S i) rest evalCtx2 errors'
                end
            | (evalCtx1, None) =>
                evalLoop cfg ctxDone (S i) rest (incRulesEvaluated evalCtx1) errors
            end
      end
  end.

(** [for _, lookup := range e.lookups { evalCtx.RegisterLookup(lookup) }]. *)
Definition registerLookups (e : Engine) (evalCtx : EvalContext) : EvalContext :=
  map_fold (fun _ l c => RegisterLookup c l) evalCtx (e_lookups e).

(** [Engine.Evaluate]: the result, the error, and the evaluation context
    as the call leaves it ([None] for a nil context). *)
Definition Evaluate (e : Engine) (ctxDone : nat -> option ContextErr)
    (evalCtx : option EvalContext)
  : option Result * option error * option EvalContext :=
  if e_closed e then (None, Some ErrEngineClosed, evalCtx)
  else
    match evalCtx with
    | None => (None, Some ErrNilContext, None)
    | Some c =>
        match evalLoop (e_config e) ctxDone 0 (e_rules e) (registerLookups e c) [] with
        | Cancelled c' cause =>
            (None,
             Some (wrapf ErrTimeout (ContextErr_Error cause)),
             Some c')
        | FailedFast c' errors err =>
            (Some (newResult c' errors), Some err, Some c')
        | Finished c' errors =>
            (Some (newResult c' errors), None, Some c')
        end
    end.

(** *** Names of the enumerations *)

Definition BuildupOperation_String (op : BuildupOperation) : string :=
  match op with
  | BuildupSum => "sum"
  | BuildupMin => "min"
  | BuildupMax => "max"
  | BuildupAvg => "avg"
  | BuildupCount => "count"
  | BuildupProduct => "product"
  end.

(** [ParseBuildupOperation]; on an error the operation returned is the
    zero value, [BuildupSum]. *)
Definition ParseBuildupOperation (s : string) : BuildupOperation * option error :=
  if String.eqb s "sum" then (BuildupSum, None)
  else if String.eqb s "min" then (BuildupMin, None)
  else if String.eqb s "max" then (BuildupMax, None)
  else if String.eqb s "avg" || String.eqb s "average" then (BuildupAvg, None)
  else if String.eqb s "count" then (BuildupCount, None)
  else if String.eqb s "product" then (BuildupProduct, None)
  else (BuildupSum,
        Some (wrapf ErrInvalidRule ("unknown buildup operation " ++ quote s))).

Definition AllocationStrategy_String (s : AllocationStrategy) : string :=
  match s with
  | StrategyPercentage => "percentage"
  | StrategyFixed => "fixed"
  | StrategyWeighted => "weighted"
  | StrategyEqual => "equal"
  | StrategyRatio => "ratio"
  end.

(** [ParseAllocationStrategy]; on an error the strategy returned is the
    zero value, [StrategyPercentage]. *)
Definition ParseAllocationStrategy (s : string)
  : AllocationStrategy * option error :=
  if String.eqb s "percentage" then (StrategyPercentage, None)
  else if String.eqb s "fixed" then (StrategyFixed, None)
  else if String.eqb s "weighted" then (StrategyWeighted, None)
  else if String.eqb s "equal" then (StrategyEqual, None)
  else if String.eqb s "ratio" then (StrategyRatio, None)
  else (StrategyPercentage,
        Some (wrapf ErrInvalidRule ("unknown allocation strategy " ++ quote s))).

Definition EvalMode_String (m : EvalMode) : string :=
  match m with
  | ModeFailFast => "fail_fast"
  | ModeCollectAll => "collect_all"
  | ModeContinueOnError => "continue_on_error"
  end.

(** *** The formula helpers *)

Definition evalCtx_GetBool (key : string) : Host (bool * option error) :=
  Observe (fun e => Done (GetBool e key)).

(** The shape shared by [Add], [Subtract], [Multiply] and [Divide]: both
    operands read as float64, the first one first. *)
Definition binaryFormula (a b : string)
    (k : float -> float -> value * option error) : FormulaFunc :=
  '(va, err) ← evalCtx_GetFloat64 a;
  match err with
  | Some e => mret (VNil, Some e)
  | None =>
      '(vb, err) ← evalCtx_GetFloat64 b;
      match err with
      | Some e => mret (VNil, Some e)
      | None => mret (k va vb)
      end
  end.

Definition Add (a b : string) : FormulaFunc :=
  binaryFormula a b (fun va vb => (VFloat64 (va + vb)%float, None)).

Definition Subtract (a b : string) : FormulaFunc :=
  binaryFormula a b (fun va vb => (VFloat64 (va - vb)%float, None)).

Definition Multiply (a b : string) : FormulaFunc :=
  binaryFormula a b (fun va vb => (VFloat64 (va * vb)%float, None)).

Definition Divide (a b : string) : FormulaFunc :=
  binaryFormula a b (fun va vb =>
    if (vb =? 0)%float then (VNil, Some ErrDivisionByZero)
    else (VFloat64 (va / vb)%float, None)).

Definition Percentage (val : string) (percent : float) : FormulaFunc :=
  '(v, err) ← evalCtx_GetFloat64 val;
  match err with
  | Some e => mret (VNil, Some e)
  | None => mret (VFloat64 (v * percent / 100)%float, None)
  end.

Definition Conditional (condition : string) (thenVal elseVal : value)
  : FormulaFunc :=
  res ← evalCtx_GetBool condition;
  match res : bool * option error with
  | (_, Some e) => mret (VNil, Some e)
  | (cond, None) => mret (if cond then thenVal else elseVal, None)
  end.

(** *** [NewFormula] *)

(** [strconv.ParseFloat(s, 64)], which the expression parser calls. *)
Variable ParseFloat : string -> option float.

Record FormulaConfig : Type := {
  fc_ID : string;
  fc_Name : string;
  fc_Description : string;
  fc_Deps : list string;
  fc_Target : string;
  fc_Inputs : list string;
  fc_Formula : option FormulaFunc;
  fc_Expression : string
}.

(** [NewFormula]; [None] only if the parser's depth bound is reached
    ([expr.Compile]). *)
Definition NewFormula (cfg : FormulaConfig)
  : option (option FormulaRule * option error) :=
  let build (compiledExpr : option expr.Expression) :=
    Some (Some {| fr_base := {| br_id := fc_ID cfg; br_name := fc_Name cfg;
                                br_description := fc_Description cfg;
                                br_deps := fc_Deps cfg |};
                  fr_target := fc_Target cfg;
                  fr_inputs := fc_Inputs cfg;
                  fr_formula := fc_Formula cfg;
                  fr_expression := fc_Expression cfg;
                  fr_compiledExpr := compiledExpr |}, None) in
  let isNilFunc := match fc_Formula cfg with None => true | Some _ => false end in
  if isEmpty (fc_ID cfg) then
    Some (None, Some (wrapf ErrInvalidRule "formula rule requires ID"))
  else if isEmpty (fc_Target cfg) then
    Some (None, Some (wrapf ErrInvalidRule
                        ("formula rule " ++ quote (fc_ID cfg) ++ " requires target")))
  else if isNilFunc && isEmpty (fc_Expression cfg) then
    Some (None, Some (wrapf ErrInvalidRule
                        ("formula rule " ++ quote (fc_ID cfg)
                           ++ " requires formula or expression")))
  else if negb (isEmpty (fc_Expression cfg)) && isNilFunc then
    match expr.Compile ParseFloat Pow (fc_Expression cfg) with
    | None => None
    | Some (_, Some err) =>
        Some (None,
              Some (wrapf ErrInvalidExpression
                      ("formula rule " ++ quote (fc_ID cfg)
                         ++ " expression error: " ++ Error err)))
    | Some (compiledExpr, None) => build compiledExpr
    end
  else build None.

(** [SetFormulaFunc]. *)
Definition SetFormulaFunc (r : FormulaRule) (fn : option FormulaFunc) : FormulaRule :=
  {| fr_base := fr_base r; fr_target := fr_target r; fr_inputs := fr_inputs r;
     fr_formula := fn; fr_expression := fr_expression r;
     fr_compiledExpr := fr_compiledExpr r |}.

(** *** More of the engine and of the result *)

Fixpoint Engine_RegisterLookups (e : Engine) (ls : list Lookup)
  : Engine * option error :=
  match ls with
  | [] => (e, None)
  | l :: rest =>
      match Engine_RegisterLookup e l with
      | (e', Some err) => (e', Some err)
      | (e', None) => Engine_RegisterLookups e' rest
      end
  end.

Definition FirstError (r : Result) : option error :=
  match r_Errors r with
  | [] => None
  | re :: _ => Some (ruleError re)
  end.

Definition ErrorMessages (r : Result) : list string :=
  map RuleError_Error (r_Errors r).

End Cortex.

Arguments Done {A} a.
Arguments Observe {A} k.
Arguments Mutate {A} o k.
Arguments MapLookup : clear implicits.
Arguments MapLookup K V {_ _}.
Arguments RangeEntry : clear implicits.
Arguments RangeLookup : clear implicits.
#[global] Existing Instance Host_mret.
#[global] Existing Instance Host_mbind.

(** ** Notions used to state the properties *)

(** The rule id a step leaves in [haltedBy]. *)
Definition halterAfter (who : string) (s : CtxStep) : string :=
  match s with
  | StepOp (OpHalt ruleID) => ruleID
  | _ => who
  end.

(** The range of an int64. *)
Definition int64 (z : Z) : Prop := - 2 ^ 63 <= z < 2 ^ 63.

(** The rules of a list all run and succeed, starting at position [i]
    in context [c] and ending in [c']: at each one the context is not
    done, the loop does not break on a halt, and the rule returns nil. *)
Inductive allSucceed (cfg : Config) (ctxDone : nat -> option ContextErr)
  : nat -> list Rule -> EvalContext -> EvalContext -> Prop :=
| allSucceed_nil (i : nat) (c : EvalContext) : allSucceed cfg ctxDone i [] c c
| allSucceed_cons (i : nat) (rule : Rule) (rest : list Rule)
    (c c1 c' : EvalContext) :
    ctxDone i = None ->
    ShortCircuit cfg && IsHalted c = false ->
    evaluateRule rule c = (c1, None) ->
    allSucceed cfg ctxDone (S i) rest (incRulesEvaluated c1) c' ->
    allSucceed cfg ctxDone i (rule :: rest) c c'.

(** [total] after adding the shares in target order, from 0: the
    float64 sum the code accumulates. *)
Definition sumShares (allocations : list float) : float :=
  fold_left (fun total a => (total + a)%float) allocations 0%float.

(** The context after the loop that stores the shares. *)
Definition storeShares (e : EvalContext) (ts : list AllocationTarget)
    (allocations : list float) : EvalContext :=
  fold_left (fun c ta => Set_ c (Key (fst ta)) (VFloat64 (snd ta)))
            (combine ts allocations) e.

(** The claim of conservation as the specification words it: the shares
    and the remainder add up to the source (in float64, where the code
    computes). *)
Definition conserved (Pow : float -> float -> float) (r : AllocationRule)
    (source : float) : bool :=
  let '(allocations, remainder) := calculate Pow r source in
  (sumShares allocations + remainder =? source)%float.

(** The rational number a finite float64 stands for (0 for the
    others). *)
Definition float_toQ (f : float) : Q :=
  match Prim2SF f with
  | S754_finite s m e =>
      (inject_Z (if s then Zneg m else Zpos m) * Qpower 2 e)%Q
  | _ => 0%Q
  end.

(** The same claim with the sum taken in exact arithmetic over the
    float64 values of the shares and the remainder. *)
Definition conservedExactly (Pow : float -> float -> float)
    (r : AllocationRule) (source : float) : bool :=
  let '(allocations, remainder) := calculate Pow r source in
  Qeq_bool
    (fold_right Qplus 0%Q (map float_toQ allocations) + float_toQ remainder)%Q
    (float_toQ source).

(** The arguments of a call, evaluated in order up to the first error:
    the loop of the evaluator's [CallExpr] case. *)
Definition evalArgs (e : expr.Evaluator) (getter : expr.ValueGetter)
  : list expr.Node -> list value * option error :=
  fix evalArgs (l : list expr.Node) : list value * option error :=
    match l with
    | [] => ([], None)
    | a :: l' =>
        match expr.eval e getter a with
        | (_, Some err) => ([], Some err)
        | (val, None) =>
            let '(vals, err) := evalArgs l' in (val :: vals, err)
        end
    end.

(** The identifiers an expression mentions, and the functions it
    calls. *)
Fixpoint idents (node : expr.Node) : list string :=
  match node with
  | expr.Ident name => [name]
  | expr.BinaryExpr _ l r => (idents l ++ idents r)%list
  | expr.UnaryExpr _ x => idents x
  | expr.CallExpr _ args => List.concat (List.map idents args)
  | _ => []
  end.

Fixpoint calls (node : expr.Node) : list string :=
  match node with
  | expr.BinaryExpr _ l r => (calls l ++ calls r)%list
  | expr.UnaryExpr _ x => calls x
  | expr.CallExpr name args => name :: List.concat (List.map calls args)
  | _ => []
  end.

(** A lexer between two calls: [pos] is at least 1 and at most one more
    than the length of the input, and [ch] is the byte before it. *)
Definition lexerOK (l : expr.Lexer) : Prop :=
  (1 <= expr.l_pos l <= S (String.length (expr.l_input l)))%nat
  /\ expr.l_ch l
     = if (String.length (expr.l_input l) <=? expr.l_pos l - 1)%nat then Ascii.zero
       else expr.byteAt (expr.l_input l) (expr.l_pos l - 1).


(** The order of two tokens in the input. *)
Definition tokenBefore (a b : expr.Token) : Prop := expr.t_Pos a < expr.t_Pos b.


(** What is left for a parser to read: the bytes the lexer has not
    passed, and the two tokens it holds unless they are EOF. *)
Definition notEOF (t : expr.Token) : nat :=
  match expr.t_Type t with
  | expr.TokenEOF => 0
  | _ => 1
  end.

Definition parserMeasure (p : expr.Parser) : nat :=
  S (String.length (expr.l_input (expr.p_lexer p))) - expr.l_pos (expr.p_lexer p)
  + notEOF (expr.p_peek p) + notEOF (expr.p_current p).

(** A parser [p'] reached from [p]: the same input, nothing more to
    read than before, and no error message forgotten. *)
Definition parserStep (p p' : expr.Parser) : Prop :=
  lexerOK (expr.p_lexer p')
  /\ expr.l_input (expr.p_lexer p') = expr.l_input (expr.p_lexer p)
  /\ (parserMeasure p' <= parserMeasure p)%nat
  /\ (length (expr.p_errors p) <= length (expr.p_errors p'))%nat.

(** The outcome of a parsing function that returned: a tree and the
    parser it leaves, the tree being nil only with an error recorded. *)
Definition parsed (p : expr.Parser)
    (res : option (option expr.Node * expr.Parser)) : Prop :=
  exists (node : option expr.Node) (p' : expr.Parser),
    res = Some (node, p')
    /\ parserStep p p'
    /\ (node = None -> (0 < length (expr.p_errors p'))%nat).

Definition parsedArgs (p : expr.Parser)
    (res : option (list (option expr.Node) * expr.Parser)) : Prop :=
  exists (args : list (option expr.Node)) (p' : expr.Parser),
    res = Some (args, p')
    /\ parserStep p p'
    /\ (expr.allNodes args = None -> (0 < length (expr.p_errors p'))%nat).
(** ** Scenarios

    The scenarios of the repository's tests and of its documentation,
    to be run through the model. The library routines are instantiated
    where a scenario reaches them: [quotePlain] is [strconv.Quote] on
    the strings used here (printable ASCII without a quote or a
    backslash: the string between two double quotes), [PowSquare] is
    [math.Pow] on an exponent of 2 (the default precision), exact on the
    base 10. No scenario reaches a [%.2f] or a [%v]. *)

Definition dquote : string := String (ascii_of_nat 34) "".

Definition quotePlain (s : string) : string := dquote ++ s ++ dquote.

Definition PowSquare (x y : float) : float :=
  if (y =? 2)%float then (x * x)%float else nan.

Definition format2fNone (x : float) : string := "".

Definition formatValueNone (v : value) : string := "".

(** [ctx.Done()] never fires: a background context, no timeout. *)
Definition neverDone (i : nat) : option ContextErr := None.

Definition rule (ruleID : string) : baseRule :=
  {| br_id := ruleID; br_name := ""; br_description := ""; br_deps := [] |}.

(** A formula whose function returns an error. *)
Definition failingFormula (ruleID target msg : string) : FormulaRule :=
  {| fr_base := rule ruleID; fr_target := target; fr_inputs := [];
     fr_formula := Some (Done (VNil, Some (errorString msg)));
     fr_expression := ""; fr_compiledExpr := None |}.

(** A static assignment, as [NewAssignment] returns it. *)
Definition staticAssignment (ruleID target : string) (v : value) : AssignmentRule :=
  {| ar_base := rule ruleID; ar_target := target; ar_value := v;
     ar_valueFunc := None |}.

Definition engineOf (cfg : Config) (rules : list Rule) : Engine :=
  fst (AddRules (New "test" (Some cfg)) rules).

Definition taxBrackets : RangeLookup float :=
  NewTaxBracketLookup "tax_brackets"
    [ {| tb_Min := 0; tb_Max := 50000; tb_Rate := 0.10 |};
      {| tb_Min := 50000; tb_Max := 100000; tb_Rate := 0.22 |};
      {| tb_Min := 100000; tb_Max := 0; tb_Rate := 0.35 |} ]%float.

Definition failRule : Rule :=
  FormulaRule_asRule (failingFormula "fail" "x" "intentional error").

Definition afterFail : AssignmentRule :=
  staticAssignment "after-fail" "y" (VInt 42).

(** The error the failing formula's [Evaluate] returns. *)
Definition failError : error :=
  ruleError (NewRuleError "fail" RuleTypeFormula "evaluate"
               (Some (errorString "intentional error"))).

Definition failFastEngine : Engine :=
  engineOf DefaultConfig [failRule; AssignmentRule_asRule afterFail].

Definition presetEngine : Engine :=
  engineOf DefaultConfig
    [ AssignmentRule_asRule (staticAssignment "before" "y" (VInt 1));
      failRule;
      AssignmentRule_asRule afterFail ].

Definition collectAllConfig : Config :=
  {| Mode := ModeCollectAll; Timeout := 0; ShortCircuit := true;
     EnableMetrics := true; MaxRules := 0 |}.

Definition fail1 : Rule := FormulaRule_asRule (failingFormula "fail1" "x" "error 1").
Definition fail2 : Rule := FormulaRule_asRule (failingFormula "fail2" "y" "error 2").
Definition success : AssignmentRule := staticAssignment "success" "z" (VInt 42).


Definition collectAllEngine : Engine :=
  engineOf collectAllConfig [fail1; fail2; AssignmentRule_asRule success].

(** A rule that halts the evaluation and returns nil. *)
Definition stopRule : Rule :=
  {| Rule_ID := "stop"; Rule_Evaluate := Mutate (OpHalt "stop") (Done None) |}.

Definition haltingEngine : Engine :=
  engineOf DefaultConfig [stopRule; AssignmentRule_asRule afterFail].

(** The expression [1 + 2], compiled. *)
Definition onePlusTwo : expr.Expression :=
  expr.Compiled PowSquare "1 + 2"
    (expr.BinaryExpr expr.TokenPlus (expr.NumberLit 1) (expr.NumberLit 2)).

Definition budgetConfig : AllocationConfig :=
  {| alc_ID := "split"; alc_Name := ""; alc_Description := ""; alc_Deps := [];
     alc_Source := "total_budget"; alc_Strategy := StrategyPercentage;
     alc_Targets := [ {| Key := "eng"; Amount := 50 |};
                      {| Key := "ops"; Amount := 30 |};
                      {| Key := "admin"; Amount := 20 |} ]%float;
     alc_Remainder := "leftover"; alc_Precision := 0 |}.

Definition budgetSplit : AllocationRule :=
  {| al_base := rule "split"; al_source := "total_budget";
     al_strategy := StrategyPercentage;
     al_targets := alc_Targets budgetConfig;
     al_remainder := "leftover"; al_precision := 2 |}.

Definition budgetContext : EvalContext :=
  Set_ (NewEvalContext "eval-1") "total_budget" (VFloat64 100000).

Definition skewedConfig : AllocationConfig :=
  {| alc_ID := "skewed"; alc_Name := ""; alc_Description := ""; alc_Deps := [];
     alc_Source := "amount"; alc_Strategy := StrategyPercentage;
     alc_Targets := [ {| Key := "a"; Amount := 40 |};
                      {| Key := "b"; Amount := 15 |};
                      {| Key := "c"; Amount := 15 |};
                      {| Key := "d"; Amount := 15 |};
                      {| Key := "e"; Amount := 15 |} ]%float;
     alc_Remainder := "rest"; alc_Precision := 2 |}.

Definition skewedSplit : AllocationRule :=
  {| al_base := rule "skewed"; al_source := "amount";
     al_strategy := StrategyPercentage;
     al_targets := alc_Targets skewedConfig;
     al_remainder := "rest"; al_precision := 2 |}.

(** The source value 0.02564 as a float64. *)
Definition skewedSource : float := 0x1.a415f45e0b4e1p-6%float.

Definition lowestConfig : BuildupConfig :=
  {| bc_ID := "track-lowest"; bc_Name := ""; bc_Description := ""; bc_Deps := [];
     bc_Buildup := "lowest"; bc_Operation := BuildupMin; bc_Source := "price";
     bc_Initial := 0; bc_Target := "" |}.

Definition baseError : error := errorString "base error".

Definition ruleErr1 : RuleError :=
  NewRuleError "rule-1" "formula" "evaluate" (Some baseError).

(** A config with both a static value and a value function. *)
Definition bothConfig : AssignmentConfig :=
  {| ac_ID := "both"; ac_Name := ""; ac_Description := ""; ac_Deps := [];
     ac_Target := "x"; ac_Value := VInt 42;
     ac_ValueFunc := Some (Done (VInt 7, None)) |}.

(** The payroll scenario: a salary, its tax rate from the brackets, and
    the tax by the expression [salary * tax_rate]. *)
Definition payrollEngine : Engine :=
  let e := fst (Engine_RegisterLookup (New "payroll" None)
                  (RangeLookup_asLookup VFloat64 taxBrackets)) in
  fst (AddRules e
         [ AssignmentRule_asRule (staticAssignment "salary" "salary" (VFloat64 75000));
           LookupRule_asRule formatValueNone
             {| lr_base := rule "get-rate"; lr_table := "tax_brackets";
                lr_keySource := "salary"; lr_target := "tax_rate";
                lr_defaultVal := VNil; lr_required := false |};
           FormulaRule_asRule
             {| fr_base := rule "calc-tax"; fr_target := "tax"; fr_inputs := [];
                fr_formula := None; fr_expression := "salary * tax_rate";
                fr_compiledExpr :=
                  Some (expr.Compiled PowSquare "salary * tax_rate"
                          (expr.BinaryExpr expr.TokenStar
                             (expr.Ident "salary") (expr.Ident "tax_rate"))) |} ]).



(** The collect-all engine under continue-on-error. *)
Definition continueConfig : Config :=
  {| Mode := ModeContinueOnError; Timeout := 0; ShortCircuit := true;
     EnableMetrics := true; MaxRules := 0 |}.

Definition continueEngine : Engine :=
  engineOf continueConfig [fail1; fail2; AssignmentRule_asRule success].

(** The rate lookup of the payroll scenario, and a context holding a
    salary with the brackets registered. *)
Definition rateLookup : LookupRule :=
  {| lr_base := rule "get-rate"; lr_table := "tax_brackets";
     lr_keySource := "salary"; lr_target := "tax_rate";
     lr_defaultVal := VNil; lr_required := false |}.

Definition salaryContext : EvalContext :=
  RegisterLookup (Set_ (NewEvalContext "eval-1") "salary" (VFloat64 75000))
    (RangeLookup_asLookup VFloat64 taxBrackets).

(** A rule counting its evaluations into [visits]. *)
Definition countVisits : BuildupRule :=
  {| bu_base := rule "count-visits"; bu_buildup := "visits";
     bu_operation := BuildupCount; bu_source := ""; bu_initial := 0;
     bu_target := "visit_count" |}.

(** The expression [double(2)] with its function registered. *)
Definition double : expr.Func := fun args =>
  match args with
  | [VFloat64 x] => (VFloat64 (x + x)%float, None)
  | _ => expr.fail "double requires 1 number"
  end.

Definition doubleOfTwo : expr.Expression :=
  expr.RegisterFunc
    (expr.Compiled PowSquare "double(2)"
       (expr.CallExpr "double" [expr.NumberLit 2]))
    "double" double.

(** The tree of [salary * tax_rate]. *)
Definition salaryTimesRate : expr.Node :=
  expr.BinaryExpr expr.TokenStar (expr.Ident "salary") (expr.Ident "tax_rate").

(** ** Properties of the model *)

Section Properties.

Variable quote : string -> string.
Variable format2f : float -> string.
Variable formatValue : value -> string.
Variable Pow : float -> float -> float.

(** *** The context under its operations *)

Lemma applyOp_counters (e : EvalContext) (o : CtxOp) :
  rulesEvaluated (applyOp e o) = rulesEvaluated e
  /\ errCount (applyOp e o) = errCount e.
Proof.
  destruct o; simpl; try (split; reflexivity).
  unfold GetOrCreateBuildup. destruct (buildups e !! key); split; reflexivity.
Qed.

Lemma applyStep_halted (e : EvalContext) (s : CtxStep) :
  halted e = true -> halted (applyStep e s) = true.
Proof.
  intros H. destruct s as [o | | ]; simpl; try assumption.
  destruct o; simpl; try assumption; try reflexivity.
  unfold GetOrCreateBuildup. destruct (buildups e !! key); assumption.
Qed.

Lemma applyStep_haltedBy (e : EvalContext) (s : CtxStep) :
  haltedBy (applyStep e s) = halterAfter (haltedBy e) s.
Proof.
  destruct s as [o | | ]; simpl; try reflexivity.
  destruct o; simpl; try reflexivity.
  unfold GetOrCreateBuildup. destruct (buildups e !! key); reflexivity.
Qed.

Lemma steps_keep_halted (steps : list CtxStep) (e : EvalContext) :
  halted e = true ->
  halted (fold_left applyStep steps e) = true
  /\ haltedBy (fold_left applyStep steps e)
     = fold_left halterAfter steps (haltedBy e).
Proof.
  revert e. induction steps as [| s steps IH]; intros e H; simpl.
  - split; [assumption | reflexivity].
  - destruct (IH (applyStep e s) (applyStep_halted e s H)) as [Hh Hb].
    split; [exact Hh |]. rewrite Hb, applyStep_haltedBy. reflexivity.
Qed.

(** C1 (as the code has it). Once [Halt] has been called on a context,
    [IsHalted] answers true after every later sequence of operations on
    it (exported mutations and the engine's counter increments alike).
    [HaltedBy] is not fixed by the first call: every [Halt] overwrites
    it, so after the sequence it is the rule id of the most recent
    [Halt], and a second [Halt] with another rule id leaves the second
    caller's id (last halter wins). *)
Theorem Halt_sticky_last_halter_wins
    (e : EvalContext) (ruleID : string) (steps : list CtxStep) :
  IsHalted (fold_left applyStep steps (Halt e ruleID)) = true
  /\ HaltedBy (fold_left applyStep steps (Halt e ruleID))
     = fold_left halterAfter steps ruleID
  /\ (forall second : string,
        IsHalted (Halt (Halt e ruleID) second) = true
        /\ HaltedBy (Halt (Halt e ruleID) second) = second).
Proof.
  unfold IsHalted, HaltedBy.
  destruct (steps_keep_halted steps (Halt e ruleID) eq_refl) as [Hh Hb].
  split; [exact Hh |]. split; [exact Hb |].
  intros second. split; reflexivity.
Qed.

(** *** Host computations *)

Lemma run_bind {A B : Type} (p : Host A) (f : A -> Host B) (e : EvalContext) :
  run (p ≫= f) e = let '(e', a) := run p e in run (f a) e'.
Proof.
  unfold mbind, Host_mbind. revert e.
  induction p as [a | k IH | o k IH]; intros e; simpl.
  - reflexivity.
  - apply IH.
  - apply IH.
Qed.

(** No computation over the exported API changes the counters. *)
Lemma run_counters {A : Type} (p : Host A) (e : EvalContext) :
  rulesEvaluated (fst (run p e)) = rulesEvaluated e
  /\ errCount (fst (run p e)) = errCount e.
Proof.
  revert e. induction p as [a | k IH | o k IH]; intros e; simpl.
  - split; reflexivity.
  - apply IH.
  - destruct (IH (applyOp e o)) as [H1 H2].
    destruct (applyOp_counters e o) as [H3 H4].
    split; congruence.
Qed.

Lemma registerLookups_counters (e : Engine) (c : EvalContext) :
  rulesEvaluated (registerLookups e c) = rulesEvaluated c
  /\ errCount (registerLookups e c) = errCount c
  /\ halted (registerLookups e c) = halted c
  /\ haltedBy (registerLookups e c) = haltedBy c
  /\ values (registerLookups e c) = values c.
Proof.
  unfold registerLookups.
  apply (map_fold_weak_ind
           (fun (r : EvalContext) (_ : gmap string Lookup) =>
              rulesEvaluated r = rulesEvaluated c /\ errCount r = errCount c
              /\ halted r = halted c /\ haltedBy r = haltedBy c
              /\ values r = values c)).
  - repeat split.
  - intros i x m r _ H. simpl. exact H.
Qed.

(** *** The result of an evaluation *)

Lemma newResult_success (c : EvalContext) (errors : list RuleError) :
  (r_Success (newResult c errors) = true
     <-> r_Errors (newResult c errors) = [] /\ IsHalted (r_Context (newResult c errors)) = false)
  /\ r_RulesFailed (newResult c errors) = Z.of_nat (length (r_Errors (newResult c errors))).
Proof.
  simpl. split; [| reflexivity].
  rewrite andb_true_iff, negb_true_iff. split.
  - intros [Hl Hh]. split; [| exact Hh].
    destruct errors; [reflexivity | discriminate Hl].
  - intros [He Hh]. subst errors. split; [reflexivity | exact Hh].
Qed.

(** *** The loop of the engine *)

Lemma wrap64_id (z : Z) : int64 z -> wrap64 z = z.
Proof.
  unfold int64, wrap64. intros H.
  rewrite Z.mod_small by lia. lia.
Qed.

Lemma wrap64_add_l (a b : Z) : wrap64 (wrap64 a + b) = wrap64 (a + b).
Proof.
  unfold wrap64.
  replace ((a + 2 ^ 63) mod 2 ^ 64 - 2 ^ 63 + b + 2 ^ 63)
    with ((a + 2 ^ 63) mod 2 ^ 64 + b) by lia.
  rewrite Zplus_mod_idemp_l.
  replace (a + 2 ^ 63 + b) with (a + b + 2 ^ 63) by lia. reflexivity.
Qed.

Lemma evalLoop_prefix (cfg : Config) (ctxDone : nat -> option ContextErr)
    (i : nat) (pre rest : list Rule) (c c' : EvalContext)
    (errors : list RuleError) :
  allSucceed cfg ctxDone i pre c c' ->
  evalLoop cfg ctxDone i (pre ++ rest) c errors
  = evalLoop cfg ctxDone (i + length pre) rest c' errors.
Proof.
  intros H. induction H as [i c | i rule pre c c1 c' Hd Hh He _ IH]; simpl.
  - rewrite Nat.add_0_r. reflexivity.
  - rewrite Hd, Hh, He, IH. f_equal. lia.
Qed.

Lemma evaluateRule_counters (rule : Rule) (c c1 : EvalContext) (r : option error) :
  evaluateRule rule c = (c1, r) ->
  rulesEvaluated c1 = rulesEvaluated c /\ errCount c1 = errCount c.
Proof.
  unfold evaluateRule. intros H.
  pose proof (run_counters (Rule_Evaluate rule) c) as Hc.
  rewrite H in Hc. exact Hc.
Qed.

Lemma allSucceed_count (cfg : Config) (ctxDone : nat -> option ContextErr)
    (i : nat) (pre : list Rule) (c c' : EvalContext) :
  allSucceed cfg ctxDone i pre c c' ->
  int64 (rulesEvaluated c) ->
  rulesEvaluated c' = wrap64 (rulesEvaluated c + Z.of_nat (length pre)).
Proof.
  intros H. induction H as [i c | i rule pre c c1 c' Hd Hh He _ IH]; intros Hr.
  - simpl. rewrite Z.add_0_r, wrap64_id; [reflexivity | exact Hr].
  - destruct (evaluateRule_counters _ _ _ _ He) as [Hc _].
    assert (Hw : int64 (rulesEvaluated (incRulesEvaluated c1))).
    { simpl. unfold int64, wrap64.
      pose proof (Z.mod_pos_bound (rulesEvaluated c1 + 1 + 2 ^ 63) (2 ^ 64)).
      lia. }
    rewrite (IH Hw). simpl rulesEvaluated. rewrite Hc, wrap64_add_l.
    f_equal. simpl length. lia.
Qed.


(** C3 (as the code has it). Under [ModeFailFast], let the rule at
    position [i] (after the [i] rules of [pre], which all ran and
    succeeded) return an error. Then [Evaluate] returns that error with
    the partial result; the rules after position [i] do not run: the
    context is the one the failing rule left, whatever those rules are,
    so a key absent at that point -- a later rule's target included --
    is absent from the result's context (a target already present stays
    present); and the failing rule is not counted: [RulesEvaluated] is
    the count before it ran, the [i] successes. *)
Theorem FailFast_stops_at_failure
    (e : Engine) (ctxDone : nat -> option ContextErr) (c : EvalContext)
    (pre : list Rule) (rule : Rule) (post : list Rule)
    (c1 c2 : EvalContext) (err : error) :
  e_closed e = false ->
  Mode (e_config e) = ModeFailFast ->
  e_rules e = (pre ++ rule :: post)%list ->
  allSucceed (e_config e) ctxDone 0 pre (registerLookups e c) c1 ->
  ctxDone (length pre) = None ->
  ShortCircuit (e_config e) && IsHalted c1 = false ->
  evaluateRule rule c1 = (c2, Some err) ->
  let final := incErrors c2 in
  let res := newResult final [asRuleError rule err] in
  Evaluate e ctxDone (Some c) = (Some res, Some err, Some final)
  /\ r_Success res = false
  /\ values (r_Context res) = values c2
  /\ (forall key : string, Has c2 key = false -> Has (r_Context res) key = false)
  /\ r_RulesEvaluated res = RulesEvaluated c1
  /\ (int64 (RulesEvaluated c) ->
      r_RulesEvaluated res = wrap64 (RulesEvaluated c + Z.of_nat (length pre))).
Proof.
  intros Hopen Hmode Hrules Hpre Hdone Hhalt Hfail final res.
  assert (Hloop :
    evalLoop (e_config e) ctxDone 0 (e_rules e) (registerLookups e c) []
    = FailedFast final [asRuleError rule err] err).
  { rewrite Hrules, (evalLoop_prefix _ _ _ _ _ _ _ _ Hpre). simpl.
    rewrite Hdone, Hhalt, Hfail, Hmode. reflexivity. }
  destruct (evaluateRule_counters _ _ _ _ Hfail) as [Hcount _].
  split; [| split; [| split; [| split; [| split]]]].
  - unfold Evaluate. rewrite Hopen, Hloop. reflexivity.
  - reflexivity.
  - reflexivity.
  - intros key Hk. exact Hk.
  - unfold RulesEvaluated. simpl. exact Hcount.
  - intros Hr. unfold RulesEvaluated in *. simpl. rewrite Hcount.
    destruct (registerLookups_counters e c) as [Hreg _].
    rewrite (allSucceed_count _ _ _ _ _ _ Hpre); rewrite Hreg; [reflexivity | exact Hr].
Qed.



(** *** Allocation *)

Lemma allocate_spec (share : AllocationTarget -> float)
    (ts : list AllocationTarget) (total : float) :
  allocate share ts total
  = (map share ts, fold_left (fun t a => (t + a)%float) (map share ts) total).
Proof.
  revert total. induction ts as [| t ts IH]; intros total; simpl.
  - reflexivity.
  - rewrite IH. reflexivity.
Qed.

Lemma float_sub_zero (x : float) : (x - 0)%float = x.
Proof.
  apply Prim2SF_inj. rewrite sub_spec.
  change (Prim2SF 0) with (S754_zero false).
  destruct (Prim2SF x) as [s | s | | s m ex]; try reflexivity.
  destruct s; reflexivity.
Qed.

Lemma sumShares_zeros (n : nat) : sumShares (repeat 0%float n) = 0%float.
Proof.
  unfold sumShares. induction n as [| n IH]; simpl.
  - reflexivity.
  - change (0 + 0)%float with 0%float. exact IH.
Qed.

Lemma setTargets_run (ts : list AllocationTarget) :
  forall (allocations pre : list float) (e : EvalContext),
    length allocations = length ts ->
    run (setTargets ts (pre ++ allocations) (length pre)) e
    = (storeShares e ts allocations, tt).
Proof.
  induction ts as [| t ts IH]; intros allocations pre e Hlen.
  - destruct allocations; [reflexivity | discriminate Hlen].
  - destruct allocations as [| a allocations]; [discriminate Hlen |].
    simpl in Hlen. injection Hlen as Hlen.
    cbn [setTargets]. rewrite run_bind. cbn [evalCtx_Set run applyOp].
    rewrite nth_middle.
    replace (pre ++ a :: allocations)%list with ((pre ++ [a]) ++ allocations)%list
      by (rewrite <- app_assoc; reflexivity).
    replace (S (length pre)) with (length (pre ++ [a])%list)
      by (rewrite length_app; simpl; lia).
    rewrite (IH allocations (pre ++ [a])%list _ Hlen).
    reflexivity.
Qed.

Lemma calculate_spec (r : AllocationRule) (source : float) :
  length (fst (calculate Pow r source)) = length (al_targets r)
  /\ snd (calculate Pow r source)
     = (source - sumShares (fst (calculate Pow r source)))%float.
Proof.
  unfold calculate.
  assert (Hd : forall share : AllocationTarget -> float,
    length (fst (let '(allocations, total) := allocate share (al_targets r) 0%float in
                 (allocations, (source - total)%float))) = length (al_targets r)
    /\ snd (let '(allocations, total) := allocate share (al_targets r) 0%float in
            (allocations, (source - total)%float))
       = (source - sumShares (fst (let '(allocations, total) :=
                                        allocate share (al_targets r) 0%float in
                                      (allocations, (source - total)%float))))%float).
  { intros share. rewrite allocate_spec. simpl. split.
    - apply length_map.
    - reflexivity. }
  assert (Hz : length (fst (repeat 0%float (length (al_targets r)), source))
               = length (al_targets r)
    /\ snd (repeat 0%float (length (al_targets r)), source)
       = (source - sumShares (fst (repeat 0%float (length (al_targets r)), source)))%float).
  { simpl. split.
    - apply repeat_length.
    - rewrite sumShares_zeros, float_sub_zero. reflexivity. }
  destruct (al_strategy r); try apply Hd.
  - destruct (sumAmounts (al_targets r) =? 0)%float; [apply Hz | apply Hd].
  - destruct (sumAmounts (al_targets r) =? 0)%float; [apply Hz | apply Hd].
Qed.

(** C5 (as the code has it). For an allocation rule with strategy
    Percentage, Weighted, Equal or Ratio and a source value [S], the
    rule computes one share per target, and the remainder is the float64
    difference of [S] and the float64 sum of the rounded shares, added in
    target order. When the source coerces, [Evaluate] stores the shares,
    then writes the remainder under the remainder key exactly when that
    key is configured and the remainder is not zero. (That the shares
    plus the remainder give back [S] is not promised: both operations
    round.) *)
Theorem allocation_remainder
    (r : AllocationRule) (source : float) :
  In (al_strategy r)
     [StrategyPercentage; StrategyWeighted; StrategyEqual; StrategyRatio] ->
  let allocations := fst (calculate Pow r source) in
  let remainder := snd (calculate Pow r source) in
  length allocations = length (al_targets r)
  /\ remainder = (source - sumShares allocations)%float
  /\ (forall e : EvalContext,
        GetFloat64 e (al_source r) = (source, None) ->
        let stored := storeShares e (al_targets r) allocations in
        run (AllocationRule_Evaluate Pow r) e
        = (if negb (isEmpty (al_remainder r)) && negb (remainder =? 0)%float
           then Set_ stored (al_remainder r) (VFloat64 remainder)
           else stored,
           None)).
Proof.
  intros _ allocations remainder.
  destruct (calculate_spec r source) as [Hlen Hrem].
  split; [exact Hlen |]. split; [exact Hrem |].
  intros e Hsrc stored.
  unfold AllocationRule_Evaluate.
  rewrite run_bind. cbn [evalCtx_GetFloat64 run]. rewrite Hsrc.
  fold allocations in Hlen.
  destruct (calculate Pow r source) as [allocs rem] eqn:Hcalc.
  simpl in allocations, remainder. subst allocations remainder.
  rewrite run_bind.
  pose proof (setTargets_run (al_targets r) allocs [] e Hlen) as Hst.
  cbn [app length] in Hst. rewrite Hst.
  rewrite run_bind. fold stored.
  destruct (negb (isEmpty (al_remainder r)) && negb (rem =? 0)%float);
    reflexivity.
Qed.

(** *** Range lookups *)

Lemma float_eqb_not_ltb (x y : float) :
  (x =? y)%float = true -> (x <? y)%float = false.
Proof.
  rewrite FloatAxioms.eqb_spec, FloatAxioms.ltb_spec. unfold SFeqb, SFltb.
  destruct (SFcompare (Prim2SF x) (Prim2SF y)) as [[ | | ] |];
    intros H; try reflexivity; discriminate H.
Qed.

Lemma scanRanges_first {V : Type} (toAny : V -> value)
    (rs : list (RangeEntry V)) (k : float) (i : nat) (r : RangeEntry V) :
  rs !! i = Some r ->
  inRange r k = true ->
  (forall (j : nat) (r' : RangeEntry V),
      (j < i)%nat -> rs !! j = Some r' -> inRange r' k = false) ->
  scanRanges toAny rs k = (toAny (Value r), true).
Proof.
  revert i. induction rs as [| r0 rs IH]; intros i Hi Hin Hbefore.
  - discriminate Hi.
  - destruct i as [| i]; simpl in Hi.
    + injection Hi as ->. simpl. rewrite Hin. reflexivity.
    + simpl. rewrite (Hbefore 0%nat r0); [| lia | reflexivity].
      apply (IH i Hi Hin). intros j r' Hj Hr'.
      apply (Hbefore (S j) r'); [lia | exact Hr'].
Qed.

Lemma scanRanges_none {V : Type} (toAny : V -> value)
    (rs : list (RangeEntry V)) (k : float) :
  (forall r : RangeEntry V, In r rs -> inRange r k = false) ->
  scanRanges toAny rs k = (VNil, false).
Proof.
  induction rs as [| r0 rs IH]; intros H; simpl.
  - reflexivity.
  - rewrite (H r0) by (left; reflexivity).
    apply IH. intros r Hr. apply H. right. exact Hr.
Qed.

(** C2. For a range lookup and a key: if the key does not coerce to
    float64, [Get] returns (nil, false); if it coerces to [k], [Get]
    returns, with true, the value of the first entry in declaration
    order with [Min <= k < Max], and (nil, false) when no entry has it.
    A key equal to an entry's [Max] is outside that entry, so on the
    boundary of two adjacent intervals the upper one answers. *)
Theorem RangeLookup_Get_first_match {V : Type} (toAny : V -> value)
    (l : RangeLookup V) (key : value) :
  (forall (z : float) (err : error),
      toFloat64 key = (z, Some err) ->
      RangeLookup_Get toAny l key = (VNil, false))
  /\ (forall k : float,
        toFloat64 key = (k, None) ->
        (forall (i : nat) (r : RangeEntry V),
            ranges l !! i = Some r ->
            ((Min r <=? k)%float && (k <? Max r)%float = true) ->
            (forall (j : nat) (r' : RangeEntry V),
                (j < i)%nat -> ranges l !! j = Some r' ->
                (Min r' <=? k)%float && (k <? Max r')%float = false) ->
            RangeLookup_Get toAny l key = (toAny (Value r), true))
        /\ ((forall r : RangeEntry V,
                In r (ranges l) ->
                (Min r <=? k)%float && (k <? Max r)%float = false) ->
            RangeLookup_Get toAny l key = (VNil, false))
        /\ (forall r : RangeEntry V,
               (k =? Max r)%float = true -> inRange r k = false)).
Proof.
  split.
  - intros z err H. unfold RangeLookup_Get. rewrite H. reflexivity.
  - intros k H. unfold RangeLookup_Get. rewrite H.
    split; [| split].
    + intros i r Hi Hin Hbefore.
      exact (scanRanges_first toAny (ranges l) k i r Hi Hin Hbefore).
    + intros Hnone. exact (scanRanges_none toAny (ranges l) k Hnone).
    + intros r Heq. unfold inRange.
      rewrite (float_eqb_not_ltb k (Max r) Heq). apply andb_false_r.
Qed.

(** *** Buildup initial values *)

Lemma GetOrCreateBuildup_hit (e : EvalContext) (key : string)
    (op : BuildupOperation) (initial : float) (b : Buildup) :
  buildups e !! key = Some b ->
  GetOrCreateBuildup e key op initial = (e, b).
Proof. unfold GetOrCreateBuildup. intros ->. reflexivity. Qed.

(** C6. [NewBuildup], given [Initial == 0], stores the neutral of the
    operation as the rule's initial value: +Inf for min, -Inf for max, 1
    for product, and the given zero otherwise. [GetOrCreateBuildup]
    does no such thing: on a miss it stores an accumulator with the
    operation and exactly the initial value passed; on a hit it returns
    the stored accumulator and leaves the context alone, so after a
    first call every later call for the name, whatever operation and
    initial value it passes, returns that same accumulator. *)
Theorem buildup_initial_values :
  (forall (cfg : BuildupConfig) (r : BuildupRule),
      NewBuildup quote cfg = (Some r, None) ->
      (bc_Initial cfg =? 0)%float = true ->
      bu_initial r
      = match bc_Operation cfg with
        | BuildupMin => infinity
        | BuildupMax => neg_infinity
        | BuildupProduct => 1%float
        | _ => bc_Initial cfg
        end)
  /\ (forall (e : EvalContext) (key : string) (op : BuildupOperation)
             (initial : float),
         buildups e !! key = None ->
         let b := {| b_Name := key; b_Operation := op; b_value := initial;
                     b_count := 0 |} in
         snd (GetOrCreateBuildup e key op initial) = b
         /\ GetBuildup (fst (GetOrCreateBuildup e key op initial)) key = Some b)
  /\ (forall (e : EvalContext) (key : string) (op : BuildupOperation)
             (initial : float) (b : Buildup),
         buildups e !! key = Some b ->
         GetOrCreateBuildup e key op initial = (e, b))
  /\ (forall (e : EvalContext) (key : string) (op op' : BuildupOperation)
             (initial initial' : float),
         let first := GetOrCreateBuildup e key op initial in
         GetOrCreateBuildup (fst first) key op' initial' = first).
Proof.
  split; [| split; [| split]].
  - intros cfg r H Hz. unfold NewBuildup in H.
    destruct (isEmpty (bc_ID cfg)); [discriminate H |].
    destruct (isEmpty (bc_Buildup cfg)); [discriminate H |].
    destruct (isEmpty (bc_Source cfg)
              && negb (BuildupOperation_eqb (bc_Operation cfg) BuildupCount));
      [discriminate H |].
    injection H as <-. simpl. rewrite Hz.
    destruct (bc_Operation cfg); reflexivity.
  - intros e key op initial Hmiss b. unfold GetOrCreateBuildup, GetBuildup.
    rewrite Hmiss. simpl. split; [reflexivity |].
    apply lookup_insert_eq.
  - intros e key op initial b. apply GetOrCreateBuildup_hit.
  - intros e key op op' initial initial' first.
    subst first. unfold GetOrCreateBuildup at 2 3.
    destruct (buildups e !! key) as [b |] eqn:Hb.
    + simpl. apply GetOrCreateBuildup_hit. exact Hb.
    + simpl. apply GetOrCreateBuildup_hit. simpl. apply lookup_insert_eq.
Qed.

(** *** Errors *)

Fixpoint error_eqb_refl (a : error) {struct a} : error_eqb a a = true
with RuleError_eqb_refl (r : RuleError) {struct r} : RuleError_eqb r r = true.
Proof.
  - destruct a as [s | msg inner | r]; simpl.
    + apply String.eqb_refl.
    + rewrite String.eqb_refl. apply error_eqb_refl.
    + apply RuleError_eqb_refl.
  - destruct r as [i t p [inner |]]; simpl;
      rewrite !String.eqb_refl; simpl.
    + apply error_eqb_refl.
    + reflexivity.
Qed.

Lemma errors_is_refl (e : error) : errors_is e e = true.
Proof.
  destruct e as [s | msg inner | r]; simpl.
  - rewrite String.eqb_refl. reflexivity.
  - rewrite String.eqb_refl, error_eqb_refl. reflexivity.
  - rewrite RuleError_eqb_refl. reflexivity.
Qed.

(** C7 (as the code has it). The text of a [RuleError] is
    [cortex: rule <id as %q prints it> (<type>) <phase>: <cause>], the
    parenthesised type left out when it is empty; a nil cause prints as
    [<nil>]. [Unwrap] yields the cause, so [errors.Is] finds through
    the wrapper whatever it finds in the cause, the cause itself
    included. *)
Theorem RuleError_text_and_unwrap
    (ruleID ruleType phase : string) (cause : option error) :
  let e := NewRuleError ruleID ruleType phase cause in
  let causeText := match cause with Some c => Error quote c | None => "<nil>" end in
  Error quote (ruleError e)
  = (if String.eqb ruleType "" then
       "cortex: rule " ++ quote ruleID ++ " " ++ phase ++ ": " ++ causeText
     else
       "cortex: rule " ++ quote ruleID ++ " (" ++ ruleType ++ ") " ++ phase
         ++ ": " ++ causeText)
  /\ RuleError_Unwrap e = cause
  /\ Unwrap (ruleError e) = cause
  /\ (forall target : error,
         errors_Is cause (Some target) = true ->
         errors_Is (Some (ruleError e)) (Some target) = true)
  /\ (forall c : error,
         cause = Some c -> errors_Is (Some (ruleError e)) (Some c) = true).
Proof.
  intros e causeText. split; [| split; [| split; [| split]]].
  - simpl. subst causeText. destruct (String.eqb ruleType ""); reflexivity.
  - reflexivity.
  - reflexivity.
  - intros target H. destruct cause as [c |]; [| discriminate H].
    simpl in *. rewrite H. apply orb_true_r.
  - intros c ->. simpl. rewrite errors_is_refl. apply orb_true_r.
Qed.

(** *** Assignment rules *)

Lemma isEmpty_true (s : string) : isEmpty s = true <-> s = "".
Proof. unfold isEmpty. apply String.eqb_eq. Qed.

Lemma isEmpty_false (s : string) : isEmpty s = false <-> s <> "".
Proof. unfold isEmpty. apply String.eqb_neq. Qed.

Lemma isNil_false (v : value) : isNil v = false <-> v <> VNil.
Proof. destruct v; simpl; split; intros H; congruence. Qed.

Lemma wrapf_is_sentinel (s rest : string) :
  errors_is (wrapf (errorString s) rest) (errorString s) = true.
Proof. simpl. rewrite String.eqb_refl. reflexivity. Qed.

(** C8 (as the code has it). [NewAssignment] succeeds exactly when the
    config has a non-empty id, a non-empty target, and at least one of
    the static value and the value function; a config giving both is
    accepted, and the rule keeps both. Every other config is rejected
    with an error that is [ErrInvalidRule]. *)
Theorem NewAssignment_accepts_iff (cfg : AssignmentConfig) :
  ((exists r : AssignmentRule, NewAssignment quote cfg = (Some r, None))
     <-> ac_ID cfg <> "" /\ ac_Target cfg <> ""
         /\ (ac_Value cfg <> VNil \/ ac_ValueFunc cfg <> None))
  /\ (forall r : AssignmentRule,
         NewAssignment quote cfg = (Some r, None) ->
         br_id (ar_base r) = ac_ID cfg /\ ar_target r = ac_Target cfg
         /\ ar_value r = ac_Value cfg /\ ar_valueFunc r = ac_ValueFunc cfg)
  /\ ((forall r : AssignmentRule, NewAssignment quote cfg <> (Some r, None)) ->
      exists err : error,
        NewAssignment quote cfg = (None, Some err)
        /\ errors_Is (Some err) (Some ErrInvalidRule) = true).
Proof.
  unfold NewAssignment.
  destruct (isEmpty (ac_ID cfg)) eqn:Hid.
  { apply isEmpty_true in Hid. split; [| split].
    - split; [intros [r H]; discriminate H | intros (H & _); contradiction].
    - intros r H; discriminate H.
    - intros _. eexists. split; [reflexivity | apply wrapf_is_sentinel]. }
  destruct (isEmpty (ac_Target cfg)) eqn:Htg.
  { apply isEmpty_true in Htg. split; [| split].
    - split; [intros [r H]; discriminate H | intros (_ & H & _); contradiction].
    - intros r H; discriminate H.
    - intros _. eexists. split; [reflexivity | apply wrapf_is_sentinel]. }
  apply isEmpty_false in Hid. apply isEmpty_false in Htg.
  destruct (isNil (ac_Value cfg)) eqn:Hv.
  - destruct (ac_ValueFunc cfg) as [f |] eqn:Hf; simpl.
    + split; [| split].
      * split; [intros _ | intros _; eexists; reflexivity].
        repeat split; try assumption. right. discriminate.
      * intros r H. injection H as <-. simpl. repeat split.
      * intros H. exfalso. eapply H. reflexivity.
    + split; [| split].
      * split; [intros [r H]; discriminate H |].
        intros (_ & _ & [H | H]); [| contradiction].
        destruct (ac_Value cfg); try discriminate Hv. contradiction.
      * intros r H; discriminate H.
      * intros _. eexists. split; [reflexivity | apply wrapf_is_sentinel].
  - simpl. apply isNil_false in Hv. split; [| split].
    + split; [intros _ | intros _; eexists; reflexivity].
      repeat split; try assumption. left. exact Hv.
    + intros r H. injection H as <-. simpl. repeat split.
    + intros H. exfalso. eapply H. reflexivity.
Qed.

(** *** Expressions *)

(** C10. [EvalBool] returns (false, nil) whenever the expression
    evaluates without error to a value that is not a bool, returns the
    bool itself when it is one, and returns an error exactly when the
    evaluation fails: the error of the evaluation. *)
Theorem EvalBool_non_bool_is_false
    (e : expr.Expression) (getter : expr.ValueGetter) :
  (forall v : value,
      expr.Expression_Eval e getter = (v, None) ->
      isBool v = false ->
      expr.EvalBool e getter = (false, None))
  /\ (forall b : bool,
        expr.Expression_Eval e getter = (VBool b, None) ->
        expr.EvalBool e getter = (b, None))
  /\ (forall err : error,
        snd (expr.EvalBool e getter) = Some err
        <-> snd (expr.Expression_Eval e getter) = Some err).
Proof.
  unfold expr.EvalBool.
  destruct (expr.Expression_Eval e getter) as [v [err |]].
  - split; [| split].
    + intros v' H; discriminate H.
    + intros b H; discriminate H.
    + intros err'. simpl. reflexivity.
  - split; [| split].
    + intros v' H Hb. injection H as ->. destruct v'; try reflexivity.
      discriminate Hb.
    + intros b H. injection H as ->. reflexivity.
    + intros err'. destruct v; simpl; split; intros H; discriminate H.
Qed.

(** *** Further properties of the accumulators and the driver *)

Lemma Buildup_Add_operation (b : Buildup) (v : float) :
  b_Operation (Buildup_Add b v) = b_Operation b.
Proof. reflexivity. Qed.

Lemma addAll_count (vs : list float) :
  forall b : Buildup,
    0 <= b_count b ->
    b_count b + Z.of_nat (length vs) < 2 ^ 63 ->
    b_count (fold_left Buildup_Add vs b) = b_count b + Z.of_nat (length vs).
Proof.
  induction vs as [| v vs IH]; intros b H0 Hlt; simpl.
  - lia.
  - simpl length in Hlt.
    assert (Hc : b_count (Buildup_Add b v) = b_count b + 1).
    { simpl. apply wrap64_id. unfold int64. lia. }
    rewrite IH; rewrite Hc; lia.
Qed.

Lemma addAll_sum (vs : list float) :
  forall b : Buildup,
    b_Operation b = BuildupSum ->
    b_value (fold_left Buildup_Add vs b)
    = fold_left (fun acc v => (acc + v)%float) vs (b_value b).
Proof.
  induction vs as [| v vs IH]; intros b Hop; simpl.
  - reflexivity.
  - rewrite IH by (rewrite Buildup_Add_operation; exact Hop).
    simpl. rewrite Hop. reflexivity.
Qed.

Lemma addAll_counted (vs : list float) :
  forall (b : Buildup) (v : float),
    b_Operation b = BuildupCount ->
    b_value (fold_left Buildup_Add (v :: vs) b)
    = math.ofZ (b_count (fold_left Buildup_Add (v :: vs) b)).
Proof.
  induction vs as [| v' vs IH]; intros b v Hop.
  - simpl. rewrite Hop. reflexivity.
  - change (fold_left Buildup_Add (v :: v' :: vs) b)
      with (fold_left Buildup_Add (v' :: vs) (Buildup_Add b v)).
    apply IH. rewrite Buildup_Add_operation. exact Hop.
Qed.

(** X1. A new accumulator that receives the values [vs] in turn: with
    operation sum its count is their number and its current value their
    float64 sum from the initial value, in order; with operation count
    its current value is their number, whatever the values are. *)
Theorem Buildup_sum_and_count
    (accName : string) (initial : float) (vs : list float) :
  Z.of_nat (length vs) < 2 ^ 63 ->
  let fresh := fun op => {| b_Name := accName; b_Operation := op;
                            b_value := initial; b_count := 0 |} in
  let summed := fold_left Buildup_Add vs (fresh BuildupSum) in
  let counted := fold_left Buildup_Add vs (fresh BuildupCount) in
  Buildup_Count summed = Z.of_nat (length vs)
  /\ Buildup_Current summed
     = fold_left (fun acc v => (acc + v)%float) vs initial
  /\ Buildup_Count counted = Z.of_nat (length vs)
  /\ (vs <> [] ->
      Buildup_Current counted = math.ofZ (Z.of_nat (length vs))).
Proof.
  intros Hlen fresh summed counted.
  assert (Hcs : b_count summed = Z.of_nat (length vs)).
  { subst summed. rewrite addAll_count; simpl; lia. }
  assert (Hcc : b_count counted = Z.of_nat (length vs)).
  { subst counted. rewrite addAll_count; simpl; lia. }
  assert (Hops : b_Operation summed = BuildupSum).
  { subst summed. clear. generalize (fresh BuildupSum) (eq_refl : b_Operation (fresh BuildupSum) = BuildupSum).
    induction vs as [| v vs IH]; intros b Hb; simpl; [exact Hb |].
    apply IH. exact Hb. }
  assert (Hopc : b_Operation counted = BuildupCount).
  { subst counted. clear. generalize (fresh BuildupCount) (eq_refl : b_Operation (fresh BuildupCount) = BuildupCount).
    induction vs as [| v vs IH]; intros b Hb; simpl; [exact Hb |].
    apply IH. exact Hb. }
  split; [exact Hcs |]. split; [| split; [exact Hcc |]].
  - unfold Buildup_Current. rewrite Hops. subst summed.
    rewrite addAll_sum by reflexivity. reflexivity.
  - intros Hne. unfold Buildup_Current. rewrite Hopc.
    destruct vs as [| v vs]; [contradiction |].
    pose proof (addAll_counted vs (fresh BuildupCount) v eq_refl) as Hv.
    fold counted in Hv. rewrite Hv, Hcc. reflexivity.
Qed.


(** X3. When the context is found done before the rule at position [i]
    (the rules before it having run and succeeded), [Evaluate] returns
    no result and an error that is [ErrTimeout], whose text names the
    cause; the rule at position [i] and those after it do not run. *)
Theorem Evaluate_cancelled
    (e : Engine) (ctxDone : nat -> option ContextErr) (c : EvalContext)
    (pre : list Rule) (rule : Rule) (post : list Rule) (c1 : EvalContext)
    (cause : ContextErr) :
  e_closed e = false ->
  e_rules e = (pre ++ rule :: post)%list ->
  allSucceed (e_config e) ctxDone 0 pre (registerLookups e c) c1 ->
  ctxDone (length pre) = Some cause ->
  exists err : error,
    Evaluate e ctxDone (Some c) = (None, Some err, Some c1)
    /\ errors_Is (Some err) (Some ErrTimeout) = true
    /\ Error quote err
       = "cortex: evaluation timeout: " ++ ContextErr_Error cause.
Proof.
  intros Hopen Hrules Hpre Hdone.
  exists (wrapf ErrTimeout (ContextErr_Error cause)).
  split; [| split; reflexivity].
  unfold Evaluate. rewrite Hopen, Hrules.
  rewrite (evalLoop_prefix _ _ _ _ _ _ _ _ Hpre). simpl.
  rewrite Hdone. reflexivity.
Qed.

(** X4. With [ShortCircuit] on, once the context is halted the loop
    stops before the next rule: the rules from that position on do not
    run, no error is returned, and the result is not a success and
    names the halting rule. *)
Theorem Evaluate_short_circuits
    (e : Engine) (ctxDone : nat -> option ContextErr) (c : EvalContext)
    (pre : list Rule) (rule : Rule) (post : list Rule) (c1 : EvalContext) :
  e_closed e = false ->
  ShortCircuit (e_config e) = true ->
  e_rules e = (pre ++ rule :: post)%list ->
  allSucceed (e_config e) ctxDone 0 pre (registerLookups e c) c1 ->
  ctxDone (length pre) = None ->
  IsHalted c1 = true ->
  let res := newResult c1 [] in
  Evaluate e ctxDone (Some c) = (Some res, None, Some c1)
  /\ r_Success res = false
  /\ r_HaltedBy res = HaltedBy c1.
Proof.
  intros Hopen Hsc Hrules Hpre Hdone Hhalt res.
  split; [| split].
  - unfold Evaluate. rewrite Hopen, Hrules.
    rewrite (evalLoop_prefix _ _ _ _ _ _ _ _ Hpre). simpl.
    rewrite Hdone, Hsc, Hhalt. reflexivity.
  - subst res. simpl. rewrite Hhalt. reflexivity.
  - reflexivity.
Qed.

(** X5. [AddRule] on an open engine: a rule whose id is already in the
    engine is refused with an error that is [ErrDuplicateRule] and the
    engine is unchanged; otherwise, below the limit of [MaxRules] (0 for
    no limit), the rule is appended after the rules already there and
    its id recorded. *)
Theorem AddRule_appends_or_refuses (e : Engine) (rule : Rule) :
  e_closed e = false ->
  (Rule_ID rule ∈ e_ruleIDs e ->
   exists err : error,
     AddRule e rule = (e, Some err)
     /\ errors_Is (Some err) (Some ErrDuplicateRule) = true)
  /\ (Rule_ID rule ∉ e_ruleIDs e ->
      (MaxRules (e_config e) <= 0
       \/ Z.of_nat (length (e_rules e)) < MaxRules (e_config e)) ->
      exists e' : Engine,
        AddRule e rule = (e', None)
        /\ e_rules e' = (e_rules e ++ [rule])%list
        /\ e_ruleIDs e' = {[Rule_ID rule]} ∪ e_ruleIDs e
        /\ e_lookups e' = e_lookups e).
Proof.
  intros Hopen. unfold AddRule. rewrite Hopen. split.
  - intros Hin. rewrite bool_decide_eq_true_2 by exact Hin.
    eexists. split; [reflexivity | apply wrapf_is_sentinel].
  - intros Hnin Hmax. rewrite bool_decide_eq_false_2 by exact Hnin.
    assert (Hlim : (0 <? MaxRules (e_config e))
                   && (MaxRules (e_config e) <=? Z.of_nat (length (e_rules e)))
                   = false).
    { apply andb_false_iff. destruct Hmax as [H | H].
      - left. apply Z.ltb_ge. exact H.
      - right. apply Z.leb_gt. exact H. }
    rewrite Hlim. eexists. repeat split.
Qed.

(** *** The value store and the typed getters *)

Lemma wrapf_sentinel_Is (s rest : string) :
  errors_Is (Some (wrapf (errorString s) rest)) (Some (errorString s)) = true.
Proof. apply wrapf_is_sentinel. Qed.

(** X6. The value store of a context. A key reads back the value last
    set under it, a nil value included (the key is then present);
    a deleted key is absent; setting or deleting a key leaves every
    other key as it was, and neither touches the halt flag, the
    counters, the accumulators or the lookup tables. *)
Theorem Set_Get_Delete (e : EvalContext) (key : string) (v : value) :
  Get (Set_ e key v) key = (v, true)
  /\ Has (Set_ e key VNil) key = true
  /\ Get (Delete e key) key = (VNil, false)
  /\ Has (Delete e key) key = false
  /\ Delete (Set_ (Delete e key) key v) key = Delete e key
  /\ (forall other : string,
        other <> key ->
        Get (Set_ e key v) other = Get e other
        /\ Has (Set_ e key v) other = Has e other
        /\ Get (Delete e key) other = Get e other
        /\ Has (Delete e key) other = Has e other)
  /\ (forall e' : EvalContext,
        e' = Set_ e key v \/ e' = Delete e key ->
        IsHalted e' = IsHalted e /\ HaltedBy e' = HaltedBy e
        /\ RulesEvaluated e' = RulesEvaluated e /\ ErrorCount e' = ErrorCount e
        /\ buildups e' = buildups e /\ lookups e' = lookups e
        /\ metadata e' = metadata e).
Proof.
  unfold Get, Has. simpl.
  split; [rewrite lookup_insert_eq; reflexivity |].
  split; [rewrite lookup_insert_eq; reflexivity |].
  split; [rewrite lookup_delete_eq; reflexivity |].
  split; [rewrite lookup_delete_eq; reflexivity |].
  split.
  { unfold Delete, Set_. simpl. rewrite delete_insert_eq, delete_delete_eq.
    reflexivity. }
  split.
  - intros other Hne.
    rewrite lookup_insert_ne by congruence.
    rewrite lookup_delete_ne by congruence.
    repeat split.
  - intros e' [-> | ->]; repeat split.
Qed.

Lemma toFloat64_mismatch (v : value) (z : float) (err : error) :
  toFloat64 v = (z, Some err) ->
  z = 0%float
  /\ err = wrapf ErrTypeMismatch ("expected numeric, got " ++ typeName v).
Proof.
  destruct v; simpl; intros H; inversion H; split; reflexivity.
Qed.

(** X7. The typed getters. On a key that is absent each of
    [GetFloat64], [GetString] and [GetBool] returns the zero value and
    an error that is [ErrValueNotFound]. On a key that is present,
    [GetFloat64] coerces the value as [toFloat64] does, and fails with
    an error that is [ErrTypeMismatch] otherwise; [GetString] and
    [GetBool] accept a string and a bool respectively and nothing else:
    no number is read as a bool, no value is formatted as a string. *)
Theorem typed_getters (e : EvalContext) (key : string) :
  (Has e key = false ->
   GetFloat64 e key = (0%float, Some (wrapf ErrValueNotFound key))
   /\ GetString e key = ("", Some (wrapf ErrValueNotFound key))
   /\ GetBool e key = (false, Some (wrapf ErrValueNotFound key))
   /\ errors_Is (Some (wrapf ErrValueNotFound key)) (Some ErrValueNotFound) = true
   /\ errors_Is (Some (wrapf ErrValueNotFound key)) (Some ErrTypeMismatch) = false)
  /\ (forall v : value,
        Get e key = (v, true) ->
        GetFloat64 e key = toFloat64 v
        /\ (forall (z : float) (err : error),
               toFloat64 v = (z, Some err) ->
               z = 0%float /\ errors_Is (Some err) (Some ErrTypeMismatch) = true)
        /\ (forall s : string, v = VString s -> GetString e key = (s, None))
        /\ ((forall s : string, v <> VString s) ->
            exists err : error,
              GetString e key = ("", Some err)
              /\ errors_Is (Some err) (Some ErrTypeMismatch) = true)
        /\ (forall b : bool, v = VBool b -> GetBool e key = (b, None))
        /\ ((forall b : bool, v <> VBool b) ->
            exists err : error,
              GetBool e key = (false, Some err)
              /\ errors_Is (Some err) (Some ErrTypeMismatch) = true)).
Proof.
  unfold GetFloat64, GetString, GetBool, Get, Has.
  destruct (values e !! key) as [v0 |] eqn:Hv; split.
  - intros H; discriminate H.
  - intros v H. injection H as ->.
    split; [reflexivity |]. split.
    { intros z err Hz. destruct (toFloat64_mismatch _ _ _ Hz) as [-> ->].
      split; [reflexivity | apply wrapf_sentinel_Is]. }
    split; [intros s ->; reflexivity |]. split.
    { intros Hns. destruct v; try (eexists; split; [reflexivity | apply wrapf_sentinel_Is]).
      exfalso. apply (Hns s). reflexivity. }
    split; [intros b ->; reflexivity |].
    intros Hnb. destruct v; try (eexists; split; [reflexivity | apply wrapf_sentinel_Is]).
    exfalso. apply (Hnb b). reflexivity.
  - intros _. repeat split.
  - intros v H; discriminate H.
Qed.

(** *** Lookup tables in a context and in an engine *)

Lemma registerLookups_lookups (e : Engine) (c : EvalContext) :
  (forall (name : string) (l : Lookup),
      e_lookups e !! name = Some l -> Lookup_Name l = name) ->
  lookups (registerLookups e c) = e_lookups e ∪ lookups c.
Proof.
  unfold registerLookups.
  apply (map_fold_weak_ind
           (fun (r : EvalContext) (m : gmap string Lookup) =>
              (forall (name : string) (l : Lookup),
                  m !! name = Some l -> Lookup_Name l = name) ->
              lookups r = m ∪ lookups c)).
  - intros _. rewrite (left_id_L ∅ (∪)). reflexivity.
  - intros i x m r Hi IH Hkeys. simpl.
    rewrite (Hkeys i x) by apply lookup_insert_eq.
    rewrite IH.
    + rewrite insert_union_l. reflexivity.
    + intros name l Hl. apply Hkeys.
      rewrite lookup_insert_ne; [exact Hl |].
      intros ->. rewrite Hi in Hl. discriminate Hl.
Qed.

(** X9. The tables of an engine are stored under their own names: the
    constructor gives none, [RegisterLookup] keeps it so. [Evaluate]
    then copies them into the context, where each one replaces a table
    of the context with the same name; the tables of the context under
    other names stay. So during the evaluation a table name answers
    with the engine's table when it has one, and as the context did
    before otherwise. *)
Theorem Evaluate_copies_engine_lookups :
  (forall (name : string) (config : option Config) (key : string) (l : Lookup),
      e_lookups (New name config) !! key = Some l -> Lookup_Name l = key)
  /\ (forall (e : Engine) (l : Lookup),
         (forall (name : string) (l0 : Lookup),
             e_lookups e !! name = Some l0 -> Lookup_Name l0 = name) ->
         forall (name : string) (l0 : Lookup),
           e_lookups (fst (Engine_RegisterLookup e l)) !! name = Some l0 ->
           Lookup_Name l0 = name)
  /\ (forall (e : Engine) (c : EvalContext),
         (forall (name : string) (l : Lookup),
             e_lookups e !! name = Some l -> Lookup_Name l = name) ->
         lookups (registerLookups e c) = e_lookups e ∪ lookups c
         /\ forall (tableName : string) (key : value),
              Lookup_ (registerLookups e c) tableName key
              = match e_lookups e !! tableName with
                | Some l => (Lookup_Get l key, None)
                | None => Lookup_ c tableName key
                end).
Proof.
  split; [| split].
  - intros name config key l H. simpl in H. rewrite lookup_empty in H.
    discriminate H.
  - intros e l Hkeys name l0. unfold Engine_RegisterLookup.
    destruct (e_closed e); [apply Hkeys |].
    destruct (bool_decide (is_Some (e_lookups e !! Lookup_Name l)));
      [apply Hkeys |].
    simpl. destruct (decide (name = Lookup_Name l)) as [-> | Hne].
    + rewrite lookup_insert_eq. intros H. injection H as ->. reflexivity.
    + rewrite lookup_insert_ne by congruence. apply Hkeys.
  - intros e c Hkeys.
    pose proof (registerLookups_lookups e c Hkeys) as Hl.
    split; [exact Hl |].
    intros tableName key. unfold Lookup_. rewrite Hl.
    destruct (e_lookups e !! tableName) as [l |] eqn:He.
    + rewrite (lookup_union_Some_l _ _ _ _ He).
      destruct (Lookup_Get l key); reflexivity.
    + rewrite lookup_union_r by exact He. reflexivity.
Qed.

(** *** Building an engine *)

Lemma AddRule_fresh (e : Engine) (rule : Rule) :
  e_closed e = false ->
  MaxRules (e_config e) <= 0 ->
  Rule_ID rule ∉ e_ruleIDs e ->
  AddRule e rule
  = ({| e_name := e_name e; e_config := e_config e; e_closed := e_closed e;
        e_rules := (e_rules e ++ [rule])%list;
        e_ruleIDs := {[Rule_ID rule]} ∪ e_ruleIDs e;
        e_lookups := e_lookups e |}, None).
Proof.
  intros Hopen Hmax Hnin. unfold AddRule.
  rewrite Hopen, bool_decide_eq_false_2 by exact Hnin.
  replace (0 <? MaxRules (e_config e)) with false
    by (symmetry; apply Z.ltb_ge; exact Hmax).
  reflexivity.
Qed.

Lemma AddRules_fresh (rules : list Rule) :
  forall e : Engine,
    e_closed e = false ->
    MaxRules (e_config e) <= 0 ->
    List.NoDup (map Rule_ID rules) ->
    (forall r : Rule, In r rules -> Rule_ID r ∉ e_ruleIDs e) ->
    exists e' : Engine,
      AddRules e rules = (e', None)
      /\ e_rules e' = (e_rules e ++ rules)%list
      /\ e_ruleIDs e' = list_to_set (map Rule_ID rules) ∪ e_ruleIDs e
      /\ e_closed e' = false
      /\ e_config e' = e_config e
      /\ e_lookups e' = e_lookups e.
Proof.
  induction rules as [| rule rules IH]; intros e Hopen Hmax Hnd Hfresh.
  - exists e. simpl. rewrite app_nil_r.
    repeat split; try assumption. rewrite (left_id_L ∅ (∪)). reflexivity.
  - simpl. rewrite (AddRule_fresh e rule Hopen Hmax)
      by (apply Hfresh; left; reflexivity).
    simpl in Hnd. apply List.NoDup_cons_iff in Hnd as [Hhead Hnd].
    match goal with
    | |- context [AddRules ?e1 rules] =>
        destruct (IH e1) as (e' & Hadd & Hr & Hi & Hc & Hcfg & Hl)
    end; simpl; try assumption.
    + intros r Hr. rewrite elem_of_union, elem_of_singleton.
      intros [Heq | Hin].
      * apply Hhead. rewrite <- Heq. apply in_map. exact Hr.
      * revert Hin. apply Hfresh. right. exact Hr.
    + exists e'. rewrite Hadd. simpl in *.
      repeat split; try assumption.
      * rewrite Hr, <- app_assoc. reflexivity.
      * rewrite Hi. simpl. rewrite !(assoc_L (∪)). f_equal. apply (comm_L (∪)).
Qed.

(** X11. [AddRules] adds the rules one by one and stops at the first
    one refused. On an open engine with no limit on the number of rules:
    rules with pairwise distinct ids, none of them in the engine, are all
    appended, in order; and when a rule repeats an id (of the engine or
    of a rule before it in the call), the call returns an error that is
    [ErrDuplicateRule] while the rules before that one stay added. *)
Theorem AddRules_stops_at_first_refusal
    (e : Engine) (pre : list Rule) :
  e_closed e = false ->
  MaxRules (e_config e) <= 0 ->
  List.NoDup (map Rule_ID pre) ->
  (forall r : Rule, In r pre -> Rule_ID r ∉ e_ruleIDs e) ->
  (exists e' : Engine,
      AddRules e pre = (e', None)
      /\ e_rules e' = (e_rules e ++ pre)%list)
  /\ (forall (dup : Rule) (post : list Rule),
        Rule_ID dup ∈ e_ruleIDs e \/ In (Rule_ID dup) (map Rule_ID pre) ->
        exists (e' : Engine) (err : error),
          AddRules e (pre ++ dup :: post) = (e', Some err)
          /\ e_rules e' = (e_rules e ++ pre)%list
          /\ errors_Is (Some err) (Some ErrDuplicateRule) = true).
Proof.
  intros Hopen Hmax Hnd Hfresh.
  destruct (AddRules_fresh pre e Hopen Hmax Hnd Hfresh)
    as (e' & Hadd & Hr & Hi & Hc & Hcfg & Hl).
  split; [exists e'; split; assumption |].
  intros dup post Hdup.
  assert (Hin : Rule_ID dup ∈ e_ruleIDs e').
  { rewrite Hi, elem_of_union, elem_of_list_to_set.
    destruct Hdup as [H | H]; [right; exact H | left].
    apply list_elem_of_In. exact H. }
  exists e', (wrapf ErrDuplicateRule (Rule_ID dup)).
  split; [| split; [exact Hr | apply wrapf_sentinel_Is]].
  clear Hfresh Hnd Hdup Hr Hi Hl Hcfg Hmax Hopen.
  revert e Hadd. induction pre as [| r pre IH]; intros e Hadd; simpl in *.
  - injection Hadd as ->. unfold AddRule.
    rewrite Hc, bool_decide_eq_true_2 by exact Hin. reflexivity.
  - destruct (AddRule e r) as [e1 [err |]]; [discriminate Hadd |].
    apply IH. exact Hadd.
Qed.


(** *** The counters of an evaluation *)

Lemma wrap64_int64 (z : Z) : int64 (wrap64 z).
Proof.
  unfold int64, wrap64.
  pose proof (Z.mod_pos_bound (z + 2 ^ 63) (2 ^ 64)). lia.
Qed.

(** What the loop leaves behind: [ok] rules counted as evaluated and
    [failed] errors appended, together no more than the rules given;
    under fail-fast at most one error, and the loop ends on it. *)
Lemma evalLoop_counts (cfg : Config) (ctxDone : nat -> option ContextErr)
    (rules : list Rule) :
  forall (i : nat) (c : EvalContext) (errors : list RuleError),
    int64 (rulesEvaluated c) -> int64 (errCount c) ->
    exists ok failed : nat,
      (ok + failed <= length rules)%nat
      /\ match evalLoop cfg ctxDone i rules c errors with
         | Finished c' errors' =>
             rulesEvaluated c' = wrap64 (rulesEvaluated c + Z.of_nat ok)
             /\ errCount c' = wrap64 (errCount c + Z.of_nat failed)
             /\ length errors' = (length errors + failed)%nat
             /\ (Mode cfg = ModeFailFast -> failed = 0%nat)
         | FailedFast c' errors' _ =>
             rulesEvaluated c' = wrap64 (rulesEvaluated c + Z.of_nat ok)
             /\ errCount c' = wrap64 (errCount c + Z.of_nat failed)
             /\ length errors' = (length errors + failed)%nat
             /\ Mode cfg = ModeFailFast /\ failed = 1%nat
         | Cancelled c' _ =>
             rulesEvaluated c' = wrap64 (rulesEvaluated c + Z.of_nat ok)
             /\ errCount c' = wrap64 (errCount c + Z.of_nat failed)
         end.
Proof.
  induction rules as [| rule rest IH]; intros i c errors Hr He.
  - exists 0%nat, 0%nat. simpl. rewrite !Z.add_0_r, !wrap64_id by assumption.
    split; [lia |]. repeat split. lia.
  - simpl. destruct (ctxDone i) as [cause |].
    { exists 0%nat, 0%nat. simpl. rewrite !Z.add_0_r, !wrap64_id by assumption.
      split; [lia |]. split; reflexivity. }
    destruct (ShortCircuit cfg && IsHalted c).
    { exists 0%nat, 0%nat. simpl. rewrite !Z.add_0_r, !wrap64_id by assumption.
      split; [lia |]. repeat split. lia. }
    destruct (evaluateRule rule c) as [c1 [err |]] eqn:Hrule;
      destruct (evaluateRule_counters _ _ _ _ Hrule) as [Hc1 Hc2].
    + destruct (Mode cfg) eqn:Hmode.
      * exists 0%nat, 1%nat. simpl. rewrite Hc1, Hc2, Z.add_0_r, wrap64_id by assumption.
        split; [lia |]. repeat split. rewrite length_app. reflexivity.
      * destruct (IH (S i) (incErrors c1) (errors ++ [asRuleError rule err])%list)
          as (ok & failed & Hle & Hloop).
        { simpl. rewrite Hc1. exact Hr. }
        { simpl. apply wrap64_int64. }
        exists ok, (S failed). split; [lia |].
        destruct (evalLoop cfg ctxDone (S i) rest (incErrors c1)
                    (errors ++ [asRuleError rule err])%list)
          as [c' errors' | c' errors' err' | c' cause];
          simpl in Hloop; rewrite ?Hc1, ?Hc2, ?wrap64_add_l, ?length_app in Hloop;
          simpl in Hloop.
        -- destruct Hloop as (H1 & H2 & H3 & H4).
           repeat split; try assumption; try discriminate.
           ++ rewrite H2. f_equal. lia.
           ++ lia.
        -- destruct Hloop as (_ & _ & _ & H & _). discriminate H.
        -- destruct Hloop as (H1 & H2). split; [exact H1 |].
           rewrite H2. f_equal. lia.
      * destruct (IH (S i) (incErrors c1) (errors ++ [asRuleError rule err])%list)
          as (ok & failed & Hle & Hloop).
        { simpl. rewrite Hc1. exact Hr. }
        { simpl. apply wrap64_int64. }
        exists ok, (S failed). split; [lia |].
        destruct (evalLoop cfg ctxDone (S i) rest (incErrors c1)
                    (errors ++ [asRuleError rule err])%list)
          as [c' errors' | c' errors' err' | c' cause];
          simpl in Hloop; rewrite ?Hc1, ?Hc2, ?wrap64_add_l, ?length_app in Hloop;
          simpl in Hloop.
        -- destruct Hloop as (H1 & H2 & H3 & H4).
           repeat split; try assumption; try discriminate.
           ++ rewrite H2. f_equal. lia.
           ++ lia.
        -- destruct Hloop as (_ & _ & _ & H & _). discriminate H.
        -- destruct Hloop as (H1 & H2). split; [exact H1 |].
           rewrite H2. f_equal. lia.
    + destruct (IH (S i) (incRulesEvaluated c1) errors) as (ok & failed & Hle & Hloop).
      { simpl. apply wrap64_int64. }
      { simpl. rewrite Hc2. exact He. }
      exists (S ok), failed. split; [lia |].
      destruct (evalLoop cfg ctxDone (S i) rest (incRulesEvaluated c1) errors)
        as [c' errors' | c' errors' err' | c' cause];
        simpl in Hloop; rewrite ?Hc1, ?Hc2, ?wrap64_add_l in Hloop.
      * destruct Hloop as (H1 & H2 & H3 & H4).
        repeat split; try assumption. rewrite H1. f_equal. lia.
      * destruct Hloop as (H1 & H2 & H3 & H4 & H5).
        repeat split; try assumption. rewrite H1. f_equal. lia.
      * destruct Hloop as (H1 & H2). split; [| exact H2].
        rewrite H1. f_equal. lia.
Qed.

(** The loop only appends to the error list, and ends on a failure
    under fail-fast with the failure appended. *)
Lemma evalLoop_errors_grow (cfg : Config) (ctxDone : nat -> option ContextErr)
    (rules : list Rule) :
  forall (i : nat) (c : EvalContext) (errors : list RuleError),
    match evalLoop cfg ctxDone i rules c errors with
    | Finished _ errors' => (length errors <= length errors')%nat
    | FailedFast _ errors' _ => (length errors < length errors')%nat
    | Cancelled _ _ => True
    end.
Proof.
  induction rules as [| rule rest IH]; intros i c errors; simpl; [lia |].
  destruct (ctxDone i); [exact I |].
  destruct (ShortCircuit cfg && IsHalted c); [lia |].
  destruct (evaluateRule rule c) as [c1 [err |]].
  - assert (Hrec := IH (S i) (incErrors c1)
                       (errors ++ [asRuleError rule err])%list).
    rewrite length_app in Hrec. simpl in Hrec.
    destruct (Mode cfg);
      [rewrite length_app; simpl; lia | |];
      (destruct (evalLoop cfg ctxDone (S i) rest (incErrors c1)
                   (errors ++ [asRuleError rule err])%list); [lia | lia | exact I]).
  - apply IH.
Qed.

(** A loop that ends with no error collected and a context that is not
    halted has run every rule, and every rule returned nil. *)
Lemma evalLoop_no_error (cfg : Config) (ctxDone : nat -> option ContextErr)
    (rules : list Rule) :
  forall (i : nat) (c c' : EvalContext) (errors : list RuleError),
    evalLoop cfg ctxDone i rules c errors = Finished c' [] ->
    IsHalted c' = false ->
    allSucceed cfg ctxDone i rules c c'.
Proof.
  induction rules as [| rule rest IH]; intros i c c' errors Hloop Hh;
    simpl in Hloop.
  - injection Hloop as -> _. constructor.
  - destruct (ctxDone i) eqn:Hd; [discriminate Hloop |].
    destruct (ShortCircuit cfg && IsHalted c) eqn:Hs.
    { injection Hloop as -> _. apply andb_true_iff in Hs.
      destruct Hs as [_ Hs]. congruence. }
    destruct (evaluateRule rule c) as [c1 [err |]] eqn:Hrule.
    + exfalso.
      pose proof (evalLoop_errors_grow cfg ctxDone rest (S i) (incErrors c1)
                    (errors ++ [asRuleError rule err])%list) as Hgrow.
      rewrite length_app in Hgrow. simpl in Hgrow.
      destruct (Mode cfg); [discriminate Hloop | |];
        rewrite Hloop in Hgrow; simpl in Hgrow; lia.
    + eapply allSucceed_cons; [exact Hd | exact Hs | exact Hrule |].
      eapply IH; eassumption.
Qed.

(** C9. Whenever [Engine.Evaluate] returns a [Result], its [Success] is
    true exactly when the error list is empty and the context is not
    halted, so a halted evaluation is unsuccessful even with no error
    collected; [RulesFailed] is the length of the error list. The error
    list of the result is the list the loop over the rules collected,
    one entry for each failure the loop counted in the context, and the
    context of the result is the one the loop ended in: [Success] is
    true exactly when every rule of the engine ran and returned nil and
    the evaluation did not end halted. *)
Theorem Evaluate_Success_iff
    (e : Engine) (ctxDone : nat -> option ContextErr)
    (evalCtx : option EvalContext) (res : Result) (err : option error)
    (final : option EvalContext) :
  Evaluate e ctxDone evalCtx = (Some res, err, final) ->
  (r_Success res = true
     <-> r_Errors res = [] /\ IsHalted (r_Context res) = false)
  /\ (IsHalted (r_Context res) = true -> r_Success res = false)
  /\ r_RulesFailed res = Z.of_nat (length (r_Errors res))
  /\ exists (c c' : EvalContext) (errors : list RuleError),
       evalCtx = Some c /\ final = Some c'
       /\ ((evalLoop (e_config e) ctxDone 0 (e_rules e) (registerLookups e c) []
            = Finished c' errors /\ err = None)
           \/ (exists cause : error,
                  evalLoop (e_config e) ctxDone 0 (e_rules e)
                    (registerLookups e c) []
                  = FailedFast c' errors cause
                  /\ err = Some cause))
       /\ r_Errors res = errors
       /\ r_Context res = c'
       /\ (r_Success res = true <-> errors = [] /\ IsHalted c' = false)
       /\ r_RulesFailed res = Z.of_nat (length errors)
       /\ (r_Success res = true
           <-> allSucceed (e_config e) ctxDone 0 (e_rules e)
                 (registerLookups e c) c'
               /\ IsHalted c' = false)
       /\ (int64 (rulesEvaluated c) -> int64 (errCount c) ->
           ErrorCount c' = wrap64 (ErrorCount c + r_RulesFailed res)).
Proof.
  unfold Evaluate. intros H.
  destruct (e_closed e); [discriminate H |].
  destruct evalCtx as [c |]; [| discriminate H].
  pose proof (evalLoop_errors_grow (e_config e) ctxDone (e_rules e) 0
                (registerLookups e c) []) as Hgrow.
  pose proof (evalLoop_counts (e_config e) ctxDone (e_rules e) 0
                (registerLookups e c) []) as Hcounts.
  destruct (registerLookups_counters e c) as (Hreg1 & Hreg2 & _).
  rewrite Hreg1, Hreg2 in Hcounts.
  assert (Hnew : exists (c' : EvalContext) (errors : list RuleError),
    res = newResult c' errors /\ final = Some c'
    /\ ((evalLoop (e_config e) ctxDone 0 (e_rules e) (registerLookups e c) []
         = Finished c' errors /\ err = None)
        \/ (exists cause : error,
               evalLoop (e_config e) ctxDone 0 (e_rules e)
                 (registerLookups e c) []
               = FailedFast c' errors cause
               /\ err = Some cause))).
  { destruct (evalLoop (e_config e) ctxDone 0 (e_rules e) (registerLookups e c) [])
      as [c' errors | c' errors err' | c' cause];
      inversion H; subst; eauto 10. }
  destruct Hnew as (c' & errors & -> & -> & Hloop).
  destruct (newResult_success c' errors) as [Hiff Hfailed].
  split; [exact Hiff |]. split.
  { intros Hh. destruct (r_Success (newResult c' errors)) eqn:Hs; [| reflexivity].
    destruct Hiff as [Hto _]. destruct (Hto eq_refl) as [_ Hn]. congruence. }
  split; [exact Hfailed |].
  exists c, c', errors.
  split; [reflexivity |]. split; [reflexivity |]. split; [exact Hloop |].
  split; [reflexivity |]. split; [reflexivity |]. split; [exact Hiff |].
  split; [exact Hfailed |]. split.
  - (* success means that every rule ran and returned nil *)
    rewrite Hiff. cbn [newResult r_Errors r_Context]. split.
    + intros [-> Hh]. split; [| exact Hh].
      destruct Hloop as [[Hloop _] | (cause & Hloop & _)].
      * eapply evalLoop_no_error; eassumption.
      * rewrite Hloop in Hgrow. simpl in Hgrow. lia.
    + intros [Hall Hh]. split; [| exact Hh].
      pose proof (evalLoop_prefix _ _ _ _ [] _ _ [] Hall) as Hrun.
      rewrite app_nil_r in Hrun. simpl in Hrun.
      destruct Hloop as [[Hloop _] | (cause & Hloop & _)];
        rewrite Hrun in Hloop; [| discriminate Hloop].
      injection Hloop as Heq. symmetry. exact Heq.
  - (* each entry is a failure counted in the context *)
    intros Hr He. destruct (Hcounts Hr He) as (ok & failed & _ & Hc).
    cbn [newResult r_RulesFailed]. unfold ErrorCount.
    destruct Hloop as [[Hloop _] | (cause & Hloop & _)];
      rewrite Hloop in Hc; simpl in Hc;
      destruct Hc as (_ & Hec & Hlen & _);
      rewrite Hec, Hlen; reflexivity.
Qed.


(** X13. Continue-on-error is collect-all: two engines with the same
    rules and tables whose configurations differ in nothing the loop
    reads but the mode, one being collect-all and the other
    continue-on-error, evaluate alike on every context; and in both
    modes a failing rule never makes [Evaluate] return an error. *)
Theorem ContinueOnError_is_CollectAll
    (e1 e2 : Engine) (ctxDone : nat -> option ContextErr)
    (c : option EvalContext) :
  Mode (e_config e1) = ModeCollectAll ->
  Mode (e_config e2) = ModeContinueOnError ->
  ShortCircuit (e_config e1) = ShortCircuit (e_config e2) ->
  e_closed e1 = e_closed e2 ->
  e_rules e1 = e_rules e2 ->
  e_lookups e1 = e_lookups e2 ->
  Evaluate e1 ctxDone c = Evaluate e2 ctxDone c
  /\ (forall (res : Result) (err : option error) (final : option EvalContext),
        Evaluate e2 ctxDone c = (Some res, err, final) -> err = None).
Proof.
  intros Hm1 Hm2 Hsc Hcl Hrules Hlk.
  assert (Hloop : forall rules i c0 errors,
    evalLoop (e_config e1) ctxDone i rules c0 errors
    = evalLoop (e_config e2) ctxDone i rules c0 errors).
  { induction rules as [| rule rest IH]; intros i c0 errors; simpl.
    - reflexivity.
    - rewrite Hsc, Hm1, Hm2.
      destruct (ctxDone i); [reflexivity |].
      destruct (ShortCircuit (e_config e2) && IsHalted c0); [reflexivity |].
      destruct (evaluateRule rule c0) as [c1 [err |]]; apply IH. }
  assert (Hnever : forall rules i c0 errors c' errors' err,
    evalLoop (e_config e2) ctxDone i rules c0 errors <> FailedFast c' errors' err).
  { induction rules as [| rule rest IH]; intros i c0 errors c' errors' err; simpl.
    - discriminate.
    - rewrite Hm2.
      destruct (ctxDone i); [discriminate |].
      destruct (ShortCircuit (e_config e2) && IsHalted c0); [discriminate |].
      destruct (evaluateRule rule c0) as [c1 [err1 |]]; apply IH. }
  split.
  - unfold Evaluate, registerLookups. rewrite Hcl, Hrules, Hlk.
    destruct (e_closed e2); [reflexivity |].
    destruct c as [c0 |]; [| reflexivity].
    rewrite Hloop. reflexivity.
  - intros res err final. unfold Evaluate.
    destruct (e_closed e2); [discriminate |].
    destruct c as [c0 |]; [| discriminate].
    destruct (evalLoop (e_config e2) ctxDone 0 (e_rules e2) (registerLookups e2 c0) [])
      as [c' errors' | c' errors' err' | c' cause] eqn:Hl.
    + intros H. inversion H. reflexivity.
    + exfalso. exact (Hnever _ _ _ _ _ _ _ Hl).
    + discriminate.
Qed.

(** *** More of the accumulators *)

Lemma addAll_operation (vs : list float) :
  forall b : Buildup,
    b_Operation (fold_left Buildup_Add vs b) = b_Operation b.
Proof.
  induction vs as [| v vs IH]; intros b; simpl; [reflexivity |].
  rewrite IH. reflexivity.
Qed.

Lemma addAll_avg (vs : list float) :
  forall b : Buildup,
    b_Operation b = BuildupAvg ->
    b_value (fold_left Buildup_Add vs b)
    = fold_left (fun acc v => (acc + v)%float) vs (b_value b).
Proof.
  induction vs as [| v vs IH]; intros b Hop; simpl.
  - reflexivity.
  - rewrite IH by (rewrite Buildup_Add_operation; exact Hop).
    simpl. rewrite Hop. reflexivity.
Qed.

(** X14. The first value an accumulator receives. With operation min,
    max or product the first value added replaces the initial value,
    whatever that was: the initial value never takes part. With sum
    the first value is added to it, with avg also (the count being 1),
    with count the current value is 1. The same holds after a [Reset].
    From the second value on, min and max keep the stored value against
    a value that is not strictly below (above) it, and product
    multiplies. *)
Theorem Buildup_first_value
    (accName : string) (op : BuildupOperation) (initial v : float) :
  let fresh := {| b_Name := accName; b_Operation := op; b_value := initial;
                  b_count := 0 |} in
  let first (init : float) :=
    match op with
    | BuildupSum => (init + v)%float
    | BuildupAvg => ((init + v) / 1)%float
    | BuildupCount => 1%float
    | BuildupMin | BuildupMax | BuildupProduct => v
    end in
  Buildup_Current (Buildup_Add fresh v) = first initial
  /\ Buildup_Count (Buildup_Add fresh v) = 1
  /\ (forall (b : Buildup) (init : float),
         b_Operation b = op ->
         Buildup_Current (Buildup_Add (Buildup_Reset b init) v) = first init)
  /\ (forall b : Buildup,
         b_Operation b = op ->
         1 <= b_count b < 2 ^ 63 - 1 ->
         b_value (Buildup_Add b v)
         = match op with
           | BuildupSum | BuildupAvg => (b_value b + v)%float
           | BuildupMin => if (v <? b_value b)%float then v else b_value b
           | BuildupMax => if (b_value b <? v)%float then v else b_value b
           | BuildupCount => math.ofZ (b_count b + 1)
           | BuildupProduct => (b_value b * v)%float
           end).
Proof.
  intros fresh first.
  split; [destruct op; reflexivity |].
  split; [reflexivity |].
  split.
  - intros b init Hop. unfold Buildup_Current, Buildup_Add, Buildup_Reset.
    cbn [b_Operation b_value b_count]. rewrite Hop.
    destruct op; reflexivity.
  - intros b Hop Hc. unfold Buildup_Add. cbn [b_value]. rewrite Hop.
    assert (Hw : wrap64 (b_count b + 1) = b_count b + 1)
      by (apply wrap64_id; unfold int64; lia).
    rewrite Hw.
    replace (b_count b + 1 =? 1) with false by (symmetry; apply Z.eqb_neq; lia).
    destruct op; reflexivity.
Qed.

(** X15. The average accumulator: after the values [vs] (at least one)
    its current value is the float64 sum of the initial value and the
    values, in order, divided by the number of values; the initial value
    is in the sum and not in the count. With no value added the current
    value is the initial value. *)
Theorem Buildup_avg_is_sum_over_count
    (accName : string) (initial : float) (vs : list float) :
  let fresh := {| b_Name := accName; b_Operation := BuildupAvg;
                  b_value := initial; b_count := 0 |} in
  Buildup_Current fresh = initial
  /\ (vs <> [] ->
      Z.of_nat (length vs) < 2 ^ 63 ->
      Buildup_Current (fold_left Buildup_Add vs fresh)
      = (fold_left (fun acc v => (acc + v)%float) vs initial
         / math.ofZ (Z.of_nat (length vs)))%float).
Proof.
  intros fresh. split; [reflexivity |].
  intros Hne Hlen. unfold Buildup_Current.
  rewrite addAll_operation. cbn [fresh b_Operation].
  rewrite addAll_count by (simpl; lia).
  rewrite addAll_avg by reflexivity. cbn [fresh b_count b_value].
  rewrite Z.add_0_l.
  replace (0 <? Z.of_nat (length vs)) with true; [reflexivity |].
  symmetry. apply Z.ltb_lt. destruct vs; [contradiction | simpl; lia].
Qed.

(** *** Names of the enumerations *)

(** X16. The names of the enumerations read back: parsing the name
    [String] gives for an operation (a strategy) returns it with no
    error; [average] is a second name for avg; and nothing else parses:
    any other string gives an error that is [ErrInvalidRule] and names
    the string. *)
Theorem enumeration_names_round_trip :
  (forall op : BuildupOperation,
      ParseBuildupOperation quote (BuildupOperation_String op) = (op, None))
  /\ ParseBuildupOperation quote "average" = (BuildupAvg, None)
  /\ (forall (s : string) (op : BuildupOperation),
         ParseBuildupOperation quote s = (op, None) ->
         s = BuildupOperation_String op \/ (s = "average" /\ op = BuildupAvg))
  /\ (forall (s : string) (op : BuildupOperation) (err : error),
         ParseBuildupOperation quote s = (op, Some err) ->
         errors_Is (Some err) (Some ErrInvalidRule) = true
         /\ Error quote err
            = "cortex: invalid rule configuration: unknown buildup operation "
                ++ quote s)
  /\ (forall st : AllocationStrategy,
         ParseAllocationStrategy quote (AllocationStrategy_String st) = (st, None))
  /\ (forall (s : string) (st : AllocationStrategy),
         ParseAllocationStrategy quote s = (st, None) ->
         s = AllocationStrategy_String st)
  /\ (forall (s : string) (st : AllocationStrategy) (err : error),
         ParseAllocationStrategy quote s = (st, Some err) ->
         errors_Is (Some err) (Some ErrInvalidRule) = true
         /\ Error quote err
            = "cortex: invalid rule configuration: unknown allocation strategy "
                ++ quote s).
Proof.
  split; [intros op; destruct op; reflexivity |].
  split; [reflexivity |].
  split.
  { intros s op. unfold ParseBuildupOperation.
    repeat match goal with
           | |- context [String.eqb s ?t] =>
               destruct (String.eqb_spec s t) as [-> | ?]; simpl
           end;
      intros H; inversion H; subst; auto. }
  split.
  { intros s op err. unfold ParseBuildupOperation.
    repeat match goal with
           | |- context [String.eqb s ?t] =>
               destruct (String.eqb s t); simpl
           end;
      intros H; inversion H; subst. split; reflexivity. }
  split; [intros st; destruct st; reflexivity |].
  split.
  { intros s st. unfold ParseAllocationStrategy.
    repeat match goal with
           | |- context [String.eqb s ?t] =>
               destruct (String.eqb_spec s t) as [-> | ?]; simpl
           end;
      intros H; inversion H; subst; auto. }
  intros s st err. unfold ParseAllocationStrategy.
  repeat match goal with
         | |- context [String.eqb s ?t] =>
             destruct (String.eqb s t); simpl
         end;
    intros H; inversion H; subst. split; reflexivity.
Qed.

(** *** More of the allocation rule *)

(** X17. [NewAllocation] accepts a config exactly when it has an id, a
    source, at least one target, and amounts fit for the strategy: for
    percentage a float64 sum, in target order, within 0.0001 of 100; for
    fixed, weighted and ratio no amount below zero; for equal anything.
    The rule made carries the config, with a precision of 2 in place of
    one that is zero or negative. Every other config is refused, with an
    error that is [ErrAllocationSum] for the percentages and
    [ErrInvalidRule] for the rest. *)
Theorem NewAllocation_accepts_iff (cfg : AllocationConfig) :
  let amountsFit : Prop :=
    match alc_Strategy cfg with
    | StrategyPercentage =>
        (0.0001 <? math.Abs (sumAmounts (alc_Targets cfg) - 100))%float = false
    | StrategyEqual => True
    | _ => forall t : AllocationTarget,
             In t (alc_Targets cfg) -> (Amount t <? 0)%float = false
    end in
  ((exists r : AllocationRule, NewAllocation quote format2f cfg = (Some r, None))
     <-> alc_ID cfg <> "" /\ alc_Source cfg <> "" /\ alc_Targets cfg <> []
         /\ amountsFit)
  /\ (forall r : AllocationRule,
         NewAllocation quote format2f cfg = (Some r, None) ->
         br_id (al_base r) = alc_ID cfg /\ al_source r = alc_Source cfg
         /\ al_strategy r = alc_Strategy cfg /\ al_targets r = alc_Targets cfg
         /\ al_remainder r = alc_Remainder cfg
         /\ al_precision r
            = (if alc_Precision cfg <=? 0 then 2 else alc_Precision cfg)
         /\ 0 < al_precision r)
  /\ ((forall r : AllocationRule,
          NewAllocation quote format2f cfg <> (Some r, None)) ->
      exists err : error,
        NewAllocation quote format2f cfg = (None, Some err)
        /\ errors_Is (Some err)
             (Some (if isEmpty (alc_ID cfg) || isEmpty (alc_Source cfg)
                       || (length (alc_Targets cfg) =? 0)%nat then ErrInvalidRule
                    else match alc_Strategy cfg with
                         | StrategyPercentage => ErrAllocationSum
                         | _ => ErrInvalidRule
                         end)) = true).
Proof.
  intros amountsFit. unfold NewAllocation.
  destruct (isEmpty (alc_ID cfg)) eqn:Hid.
  { apply isEmpty_true in Hid. split; [| split].
    - split; [intros [r H]; discriminate H | intros (H & _); contradiction].
    - intros r H; discriminate H.
    - intros _. eexists. split; [reflexivity | apply wrapf_sentinel_Is]. }
  destruct (isEmpty (alc_Source cfg)) eqn:Hsrc.
  { apply isEmpty_true in Hsrc. split; [| split].
    - split; [intros [r H]; discriminate H | intros (_ & H & _); contradiction].
    - intros r H; discriminate H.
    - intros _. eexists. split; [reflexivity | apply wrapf_sentinel_Is]. }
  destruct (length (alc_Targets cfg) =? 0)%nat eqn:Hlen.
  { apply Nat.eqb_eq in Hlen. split; [| split].
    - split; [intros [r H]; discriminate H |].
      intros (_ & _ & H & _). destruct (alc_Targets cfg); [contradiction | discriminate Hlen].
    - intros r H; discriminate H.
    - intros _. eexists. split; [reflexivity | apply wrapf_sentinel_Is]. }
  apply isEmpty_false in Hid. apply isEmpty_false in Hsrc.
  assert (Hts : alc_Targets cfg <> []).
  { intros Hn. rewrite Hn in Hlen. discriminate Hlen. }
  assert (Hprec : 0 < (if alc_Precision cfg <=? 0 then 2 else alc_Precision cfg)).
  { destruct (alc_Precision cfg <=? 0) eqn:Hp; [lia | apply Z.leb_gt in Hp; lia]. }
  assert (Haccept : forall P : Prop,
    P ->
    let r := {| al_base := {| br_id := alc_ID cfg; br_name := alc_Name cfg;
                              br_description := alc_Description cfg;
                              br_deps := alc_Deps cfg |};
                al_source := alc_Source cfg; al_strategy := alc_Strategy cfg;
                al_targets := alc_Targets cfg; al_remainder := alc_Remainder cfg;
                al_precision :=
                  if alc_Precision cfg <=? 0 then 2 else alc_Precision cfg |} in
    ((exists r0 : AllocationRule, (Some r, @None error) = (Some r0, None))
       <-> alc_ID cfg <> "" /\ alc_Source cfg <> "" /\ alc_Targets cfg <> [] /\ P)
    /\ (forall r0 : AllocationRule,
           (Some r, @None error) = (Some r0, None) ->
           br_id (al_base r0) = alc_ID cfg /\ al_source r0 = alc_Source cfg
           /\ al_strategy r0 = alc_Strategy cfg /\ al_targets r0 = alc_Targets cfg
           /\ al_remainder r0 = alc_Remainder cfg
           /\ al_precision r0
              = (if alc_Precision cfg <=? 0 then 2 else alc_Precision cfg)
           /\ 0 < al_precision r0)
    /\ ((forall r0 : AllocationRule, (Some r, @None error) <> (Some r0, None)) ->
        exists err : error,
          (Some r, @None error) = (None, Some err)
          /\ errors_Is (Some err)
               (Some match alc_Strategy cfg with
                     | StrategyPercentage => ErrAllocationSum
                     | _ => ErrInvalidRule
                     end) = true)).
  { intros P HP r. split; [| split].
    - split; [intros _; auto | intros _; eexists; reflexivity].
    - intros r0 H. injection H as <-. simpl. repeat split. exact Hprec.
    - intros H. exfalso. eapply H. reflexivity. }
  assert (Hrefuse : forall (P : Prop) (err target : error),
    ~ P -> errors_Is (Some err) (Some target) = true ->
    ((exists r0 : AllocationRule, (@None AllocationRule, Some err) = (Some r0, None))
       <-> alc_ID cfg <> "" /\ alc_Source cfg <> "" /\ alc_Targets cfg <> [] /\ P)
    /\ (forall r0 : AllocationRule,
           (@None AllocationRule, Some err) = (Some r0, None) ->
           br_id (al_base r0) = alc_ID cfg /\ al_source r0 = alc_Source cfg
           /\ al_strategy r0 = alc_Strategy cfg /\ al_targets r0 = alc_Targets cfg
           /\ al_remainder r0 = alc_Remainder cfg
           /\ al_precision r0
              = (if alc_Precision cfg <=? 0 then 2 else alc_Precision cfg)
           /\ 0 < al_precision r0)
    /\ ((forall r0 : AllocationRule,
            (@None AllocationRule, Some err) <> (Some r0, None)) ->
        exists err0 : error,
          (@None AllocationRule, Some err) = (None, Some err0)
          /\ errors_Is (Some err0) (Some target) = true)).
  { intros P err target HP Hsent. split; [| split].
    - split; [intros [r H]; discriminate H | intros (_ & _ & _ & H); contradiction].
    - intros r0 H; discriminate H.
    - intros _. exists err. split; [reflexivity | exact Hsent]. }
  simpl orb. subst amountsFit.
  destruct (alc_Strategy cfg) eqn:Hst.
  - destruct (0.0001 <? math.Abs (sumAmounts (alc_Targets cfg) - 100))%float eqn:Hsum.
    + apply Hrefuse; [discriminate | apply wrapf_sentinel_Is].
    + apply (Haccept _ eq_refl).
  - destruct (List.find (fun t => (Amount t <? 0)%float) (alc_Targets cfg)) as [t |] eqn:Hf.
    + apply Hrefuse; [| apply wrapf_sentinel_Is].
      apply find_some in Hf as [Hin Hneg]. intros H.
      rewrite (H t Hin) in Hneg. discriminate Hneg.
    + apply Haccept. intros t Hin. exact (find_none _ _ Hf t Hin).
  - destruct (List.find (fun t => (Amount t <? 0)%float) (alc_Targets cfg)) as [t |] eqn:Hf.
    + apply Hrefuse; [| apply wrapf_sentinel_Is].
      apply find_some in Hf as [Hin Hneg]. intros H.
      rewrite (H t Hin) in Hneg. discriminate Hneg.
    + apply Haccept. intros t Hin. exact (find_none _ _ Hf t Hin).
  - apply (Haccept _ I).
  - destruct (List.find (fun t => (Amount t <? 0)%float) (alc_Targets cfg)) as [t |] eqn:Hf.
    + apply Hrefuse; [| apply wrapf_sentinel_Is].
      apply find_some in Hf as [Hin Hneg]. intros H.
      rewrite (H t Hin) in Hneg. discriminate Hneg.
    + apply Haccept. intros t Hin. exact (find_none _ _ Hf t Hin).
Qed.

(** X18. Shares that do not depend on the amounts or on the source.
    With strategy weighted or ratio and amounts whose float64 sum is
    zero, nothing is divided: every share is 0 and the remainder is the
    whole source. With strategy fixed the shares are the rounded
    amounts, whatever the source is, and the remainder is what the
    source leaves, negative when the amounts exceed it. With strategy
    equal every share is the rounded quotient of the source by the
    number of targets. *)
Theorem calculate_edge_cases (r : AllocationRule) (source : float) :
  ((al_strategy r = StrategyWeighted \/ al_strategy r = StrategyRatio) ->
   (sumAmounts (al_targets r) =? 0)%float = true ->
   calculate Pow r source = (repeat 0%float (length (al_targets r)), source))
  /\ (al_strategy r = StrategyFixed ->
      fst (calculate Pow r source)
      = map (fun t => AllocationRule_round Pow r (Amount t)) (al_targets r)
      /\ (forall source' : float,
             fst (calculate Pow r source') = fst (calculate Pow r source))
      /\ snd (calculate Pow r source)
         = (source
            - sumShares (map (fun t => AllocationRule_round Pow r (Amount t))
                             (al_targets r)))%float)
  /\ (al_strategy r = StrategyEqual ->
      fst (calculate Pow r source)
      = repeat (AllocationRule_round Pow r
                  (source / math.ofZ (Z.of_nat (length (al_targets r)))))
               (length (al_targets r))).
Proof.
  unfold calculate. split; [| split].
  - intros [-> | ->] ->; reflexivity.
  - intros ->. rewrite !allocate_spec. simpl.
    split; [reflexivity |]. split; [| reflexivity].
    intros source'. reflexivity.
  - intros ->. rewrite allocate_spec. simpl.
    generalize (AllocationRule_round Pow r
                  (source / math.ofZ (Z.of_nat (length (al_targets r))))).
    intros each. induction (al_targets r) as [| t ts IH]; simpl.
    + reflexivity.
    + rewrite IH. reflexivity.
Qed.

(** *** What the rules do to the context *)

Lemma evaluateError_Is (ruleID ruleType : string) (cause target : error) :
  errors_Is (Some cause) (Some target) = true ->
  errors_Is (evaluateError ruleID ruleType cause) (Some target) = true.
Proof.
  unfold evaluateError, NewRuleError. simpl. intros ->. apply orb_true_r.
Qed.

(** X19. A rule that cannot read its input fails and writes nothing:
    an allocation whose source is absent or not a number, a buildup
    (other than a count) likewise, a lookup rule whose key is absent.
    The context is left exactly as it was (no target, no remainder, no
    accumulator is created), and the error returned is a [RuleError]
    of the rule, in phase evaluate, through which [errors.Is] finds
    [ErrValueNotFound] for an absent key and [ErrTypeMismatch] for a
    value that is not a number. *)
Theorem unreadable_input_writes_nothing (e : EvalContext) :
  (forall (r : AllocationRule) (z : float) (err : error),
      GetFloat64 e (al_source r) = (z, Some err) ->
      run (AllocationRule_Evaluate Pow r) e
      = (e, evaluateError (br_id (al_base r)) RuleTypeAllocation err))
  /\ (forall (r : BuildupRule) (z : float) (err : error),
         bu_operation r <> BuildupCount ->
         GetFloat64 e (bu_source r) = (z, Some err) ->
         run (BuildupRule_Evaluate r) e
         = (e, evaluateError (br_id (bu_base r)) RuleTypeBuildup err))
  /\ (forall r : LookupRule,
         Has e (lr_keySource r) = false ->
         run (LookupRule_Evaluate formatValue r) e
         = (e, evaluateError (br_id (lr_base r)) RuleTypeLookup
                 (wrapf ErrValueNotFound (lr_keySource r))))
  /\ (forall (key : string) (z : float) (err : error)
             (ruleID ruleType : string),
         GetFloat64 e key = (z, Some err) ->
         errors_Is (evaluateError ruleID ruleType err)
           (Some (if Has e key then ErrTypeMismatch else ErrValueNotFound))
         = true
         /\ exists re : RuleError,
              evaluateError ruleID ruleType err = Some (ruleError re)
              /\ RuleID re = ruleID /\ RuleType re = ruleType
              /\ Phase re = "evaluate" /\ RuleError_Unwrap re = Some err).
Proof.
  split; [| split; [| split]].
  - intros r z err H. unfold AllocationRule_Evaluate.
    rewrite run_bind. cbn [evalCtx_GetFloat64 run]. rewrite H. reflexivity.
  - intros r z err Hop H. unfold BuildupRule_Evaluate.
    destruct (bu_operation r); try contradiction;
      cbn [BuildupOperation_eqb]; rewrite run_bind;
      cbn [evalCtx_GetFloat64 run]; rewrite H; reflexivity.
  - intros r H. unfold LookupRule_Evaluate.
    rewrite run_bind. cbn [evalCtx_Get run]. unfold Get, Has in *.
    destruct (values e !! lr_keySource r); [discriminate H |]. reflexivity.
  - intros key z err ruleID ruleType H. split.
    + apply evaluateError_Is. unfold GetFloat64, Get, Has in *.
      destruct (values e !! key) as [v |].
      * destruct (toFloat64_mismatch _ _ _ H) as [_ ->]. apply wrapf_sentinel_Is.
      * injection H as _ <-. apply wrapf_sentinel_Is.
    + eexists. split; [reflexivity |]. repeat split.
Qed.

(** X20. A lookup rule whose key is present. When the table is not
    registered the rule fails with an error that is
    [ErrLookupNotFound]. When the table answers found, the target is
    set to the value found. When it answers not found, a required
    lookup fails with an error that is [ErrKeyNotFound] and writes
    nothing, and one that is not required sets the target to the
    default, whatever value the table returned beside not found. *)
Theorem LookupRule_Evaluate_cases
    (r : LookupRule) (e : EvalContext) (key : value) :
  Get e (lr_keySource r) = (key, true) ->
  (lookups e !! lr_table r = None ->
   exists err : error,
     run (LookupRule_Evaluate formatValue r) e = (e, Some err)
     /\ errors_Is (Some err) (Some ErrLookupNotFound) = true)
  /\ (forall (l : Lookup) (v : value),
         lookups e !! lr_table r = Some l ->
         (Lookup_Get l key = (v, true) ->
          run (LookupRule_Evaluate formatValue r) e
          = (Set_ e (lr_target r) v, None))
         /\ (Lookup_Get l key = (v, false) ->
             lr_required r = false ->
             run (LookupRule_Evaluate formatValue r) e
             = (Set_ e (lr_target r) (lr_defaultVal r), None))
         /\ (Lookup_Get l key = (v, false) ->
             lr_required r = true ->
             exists err : error,
               run (LookupRule_Evaluate formatValue r) e = (e, Some err)
               /\ errors_Is (Some err) (Some ErrKeyNotFound) = true
               /\ Error quote err
                  = "cortex: rule " ++ quote (br_id (lr_base r))
                      ++ " (lookup) evaluate: cortex: key not found in lookup: "
                      ++ formatValue key ++ " in table " ++ lr_table r)).
Proof.
  intros Hkey.
  assert (Hrun : run (LookupRule_Evaluate formatValue r) e
    = run ('(v, found, err) ← evalCtx_Lookup (lr_table r) key;
           match err with
           | Some e0 => mret (evaluateError (br_id (lr_base r)) RuleTypeLookup e0)
           | None =>
               if negb found then
                 if lr_required r then
                   mret (evaluateError (br_id (lr_base r)) RuleTypeLookup
                           (wrapf ErrKeyNotFound
                              (formatValue key ++ " in table " ++ lr_table r)))
                 else evalCtx_Set (lr_target r) (lr_defaultVal r);; mret None
               else evalCtx_Set (lr_target r) v;; mret None
           end) e).
  { unfold LookupRule_Evaluate. rewrite run_bind. cbn [evalCtx_Get run].
    rewrite Hkey. reflexivity. }
  rewrite Hrun, run_bind. cbn [evalCtx_Lookup run]. unfold Lookup_.
  split.
  - intros ->. eexists. split; [reflexivity |].
    apply evaluateError_Is, wrapf_sentinel_Is.
  - intros l v ->. split; [| split].
    + intros ->. reflexivity.
    + intros -> ->. reflexivity.
    + intros -> ->. eexists. split; [reflexivity |]. split.
      * apply evaluateError_Is, wrapf_sentinel_Is.
      * reflexivity.
Qed.

(** One evaluation of a count rule with a target: the accumulator is
    created when absent, receives one more occurrence, and its current
    value is written to the target. *)
Lemma BuildupRule_run_count (r : BuildupRule) (c : EvalContext) :
  bu_operation r = BuildupCount ->
  bu_target r <> "" ->
  run (BuildupRule_Evaluate r) c
  = (let c1 := fst (GetOrCreateBuildup c (bu_buildup r) BuildupCount (bu_initial r)) in
     let c2 := with_buildups c1
                 (alter (fun b => Buildup_Add b 1) (bu_buildup r) (buildups c1)) in
     Set_ c2 (bu_target r)
       (VFloat64 match buildups c2 !! bu_buildup r with
                 | Some b => Buildup_Current b
                 | None => 0%float
                 end),
     None).
Proof.
  intros Hop Htg. unfold BuildupRule_Evaluate. rewrite Hop.
  apply isEmpty_false in Htg. rewrite Htg. reflexivity.
Qed.

(** X21. A count rule counts its evaluations. A buildup rule with
    operation count reads no source; run [n] times (at least once) on a
    context that had no accumulator of its name, it returns nil every
    time and leaves an accumulator with count [n], its target holding
    [n] as a float64, whatever initial value the rule was given. *)
Theorem count_rule_counts_evaluations
    (r : BuildupRule) (e : EvalContext) (n : nat) :
  bu_operation r = BuildupCount ->
  bu_target r <> "" ->
  buildups e !! bu_buildup r = None ->
  Z.of_nat (S n) < 2 ^ 63 ->
  let again := fun c : EvalContext => fst (run (BuildupRule_Evaluate r) c) in
  (forall c : EvalContext, snd (run (BuildupRule_Evaluate r) c) = None)
  /\ Get (Nat.iter (S n) again e) (bu_target r)
     = (VFloat64 (math.ofZ (Z.of_nat (S n))), true)
  /\ exists b : Buildup,
       GetBuildup (Nat.iter (S n) again e) (bu_buildup r) = Some b
       /\ Buildup_Count b = Z.of_nat (S n)
       /\ Buildup_Current b = math.ofZ (Z.of_nat (S n)).
Proof.
  intros Hop Htg Hnone Hn again.
  split.
  { intros c. rewrite (BuildupRule_run_count r c Hop Htg). reflexivity. }
  assert (Hinv : exists b : Buildup,
    buildups (Nat.iter (S n) again e) !! bu_buildup r = Some b
    /\ b_Operation b = BuildupCount
    /\ b_count b = Z.of_nat (S n)
    /\ b_value b = math.ofZ (Z.of_nat (S n))
    /\ values (Nat.iter (S n) again e) !! bu_target r
       = Some (VFloat64 (math.ofZ (Z.of_nat (S n))))).
  { assert (Hstep : forall c : EvalContext,
      again c
      = fst (let c1 := fst (GetOrCreateBuildup c (bu_buildup r) BuildupCount
                              (bu_initial r)) in
             let c2 := with_buildups c1
                         (alter (fun b => Buildup_Add b 1) (bu_buildup r)
                                (buildups c1)) in
             Set_ c2 (bu_target r)
               (VFloat64 match buildups c2 !! bu_buildup r with
                         | Some b => Buildup_Current b
                         | None => 0%float
                         end),
             @None error)).
    { intros c. unfold again. rewrite (BuildupRule_run_count r c Hop Htg).
      reflexivity. }
    induction n as [| n IH].
    - simpl Nat.iter. rewrite Hstep.
      unfold GetOrCreateBuildup. rewrite Hnone. cbn.
      rewrite lookup_alter_eq, lookup_insert_eq. cbn.
      eexists. split; [reflexivity |]. cbn.
      rewrite lookup_insert_eq. repeat split.
    - destruct IH as (b & Hb & Hbop & Hbc & Hbv & _); [lia |].
      change (Nat.iter (S (S n)) again e) with (again (Nat.iter (S n) again e)).
      remember (Nat.iter (S n) again e) as c eqn:Hc. clear Hc.
      rewrite Hstep.
      unfold GetOrCreateBuildup. rewrite Hb. cbn.
      rewrite lookup_alter_eq, Hb. cbn.
      assert (Hw : wrap64 (b_count b + 1) = Z.of_nat (S (S n))).
      { rewrite Hbc. rewrite wrap64_id; [lia | unfold int64; lia]. }
      eexists. split; [reflexivity |]. cbn. rewrite Hbop, Hw.
      rewrite lookup_insert_eq. unfold Buildup_Current. cbn. rewrite Hbop.
      repeat split. rewrite Hw. reflexivity. }
  destruct Hinv as (b & Hb & Hbop & Hbc & Hbv & Hval).
  split.
  - unfold Get. rewrite Hval. reflexivity.
  - exists b. unfold GetBuildup, Buildup_Count, Buildup_Current.
    rewrite Hbop. repeat split; assumption.
Qed.

(** X22. A formula rule. The function, when there is one, is what
    runs, and a compiled expression beside it is not looked at; an
    expression is evaluated against the values of the context. In both
    cases a result sets the target and nothing else, and an error sets
    nothing: the rule returns a [RuleError] of type formula around it.
    A rule with neither fails the same way, the context untouched. *)
Theorem FormulaRule_Evaluate_cases (r : FormulaRule) (e : EvalContext) :
  (forall (formula : FormulaFunc) (e' : EvalContext) (v : value),
      fr_formula r = Some formula ->
      run formula e = (e', (v, None)) ->
      run (FormulaRule_Evaluate r) e = (Set_ e' (fr_target r) v, None))
  /\ (forall (formula : FormulaFunc) (e' : EvalContext) (v : value) (err : error),
         fr_formula r = Some formula ->
         run formula e = (e', (v, Some err)) ->
         run (FormulaRule_Evaluate r) e
         = (e', evaluateError (br_id (fr_base r)) RuleTypeFormula err))
  /\ (forall (compiled : expr.Expression) (v : value),
         fr_formula r = None -> fr_compiledExpr r = Some compiled ->
         expr.Expression_Eval compiled (Get e) = (v, None) ->
         run (FormulaRule_Evaluate r) e = (Set_ e (fr_target r) v, None))
  /\ (forall (compiled : expr.Expression) (v : value) (err : error),
         fr_formula r = None -> fr_compiledExpr r = Some compiled ->
         expr.Expression_Eval compiled (Get e) = (v, Some err) ->
         run (FormulaRule_Evaluate r) e
         = (e, evaluateError (br_id (fr_base r)) RuleTypeFormula err))
  /\ (fr_formula r = None -> fr_compiledExpr r = None ->
      run (FormulaRule_Evaluate r) e
      = (e, evaluateError (br_id (fr_base r)) RuleTypeFormula
              (errorString "no formula or expression configured"))).
Proof.
  unfold FormulaRule_Evaluate. split; [| split; [| split; [| split]]].
  - intros formula e' v -> H. rewrite run_bind, H. reflexivity.
  - intros formula e' v err -> H. rewrite run_bind, H. reflexivity.
  - intros compiled v -> -> H. rewrite run_bind. cbn [run]. rewrite H. reflexivity.
  - intros compiled v err -> -> H. rewrite run_bind. cbn [run]. rewrite H. reflexivity.
  - intros -> ->. reflexivity.
Qed.

Lemma binaryFormula_run (a b : string)
    (k : float -> float -> value * option error) (e : EvalContext) :
  run (binaryFormula a b k) e
  = (e, match GetFloat64 e a with
        | (_, Some err) => (VNil, Some err)
        | (va, None) =>
            match GetFloat64 e b with
            | (_, Some err) => (VNil, Some err)
            | (vb, None) => k va vb
            end
        end).
Proof.
  unfold binaryFormula. rewrite run_bind. cbn [evalCtx_GetFloat64 run].
  destruct (GetFloat64 e a) as [va [err |]]; [reflexivity |].
  rewrite run_bind. cbn [evalCtx_GetFloat64 run].
  destruct (GetFloat64 e b) as [vb [err |]]; reflexivity.
Qed.

(** X23. The arithmetic formula helpers read both operands as float64,
    the first one first, change nothing in the context, and return the
    error of the first operand that cannot be read. [Divide] refuses a
    divisor equal to zero (negative zero included) with
    [ErrDivisionByZero] itself, so it never returns an infinity or a
    NaN made by dividing by zero; the others return the float64 sum,
    difference and product. *)
Theorem arithmetic_formula_helpers (a b : string) (e : EvalContext) :
  (forall va vb : float,
      GetFloat64 e a = (va, None) -> GetFloat64 e b = (vb, None) ->
      run (Add a b) e = (e, (VFloat64 (va + vb)%float, None))
      /\ run (Subtract a b) e = (e, (VFloat64 (va - vb)%float, None))
      /\ run (Multiply a b) e = (e, (VFloat64 (va * vb)%float, None))
      /\ ((vb =? 0)%float = true ->
          run (Divide a b) e = (e, (VNil, Some ErrDivisionByZero)))
      /\ ((vb =? 0)%float = false ->
          run (Divide a b) e = (e, (VFloat64 (va / vb)%float, None))))
  /\ (forall va : float,
         GetFloat64 e a = (va, None) ->
         GetFloat64 e b = ((-0)%float, None) ->
         run (Divide a b) e = (e, (VNil, Some ErrDivisionByZero)))
  /\ (forall (f : string -> string -> FormulaFunc) (z : float) (err : error),
         In f [Add; Subtract; Multiply; Divide] ->
         (GetFloat64 e a = (z, Some err)
          \/ (snd (GetFloat64 e a) = None /\ GetFloat64 e b = (z, Some err))) ->
         run (f a b) e = (e, (VNil, Some err))).
Proof.
  split; [| split].
  - intros va vb Ha Hb. unfold Add, Subtract, Multiply, Divide.
    rewrite !binaryFormula_run, Ha, Hb.
    repeat split; intros ->; reflexivity.
  - intros va Ha Hb. unfold Divide. rewrite binaryFormula_run, Ha, Hb. reflexivity.
  - intros f z err Hf Herr.
    assert (Hrun : forall k, run (binaryFormula a b k) e = (e, (VNil, Some err))).
    { intros k. rewrite binaryFormula_run.
      destruct Herr as [-> | [Hok ->]]; [reflexivity |].
      destruct (GetFloat64 e a) as [va [err0 |]]; [discriminate Hok | reflexivity]. }
    simpl in Hf. destruct Hf as [<- | [<- | [<- | [<- | []]]]]; apply Hrun.
Qed.

Lemma Percentage_run (key : string) (percent : float) (e : EvalContext) :
  run (Percentage key percent) e
  = (e, match GetFloat64 e key with
        | (_, Some err) => (VNil, Some err)
        | (v, None) => (VFloat64 (v * percent / 100)%float, None)
        end).
Proof.
  unfold Percentage. rewrite run_bind. cbn [evalCtx_GetFloat64 run].
  destruct (GetFloat64 e key) as [v [err |]]; reflexivity.
Qed.

Lemma Conditional_run (key : string) (thenVal elseVal : value) (e : EvalContext) :
  run (Conditional key thenVal elseVal) e
  = (e, match GetBool e key with
        | (_, Some err) => (VNil, Some err)
        | (cond, None) => (if cond then thenVal else elseVal, None)
        end).
Proof.
  unfold Conditional. rewrite run_bind. cbn [evalCtx_GetBool run].
  destruct (GetBool e key) as [c [err |]]; reflexivity.
Qed.

(** X24. [Percentage] and [Conditional]. [Percentage] returns the
    float64 [v * percent / 100]. [Conditional] reads its condition with
    [GetBool]: a condition that is true gives the first value, one that
    is false the second, and a condition that is absent or not a bool
    is an error (never taken as false); neither writes to the
    context. *)
Theorem Percentage_and_Conditional
    (key : string) (percent : float) (thenVal elseVal : value)
    (e : EvalContext) :
  (forall v : float,
      GetFloat64 e key = (v, None) ->
      run (Percentage key percent) e
      = (e, (VFloat64 (v * percent / 100)%float, None)))
  /\ (Get e key = (VBool true, true) ->
      run (Conditional key thenVal elseVal) e = (e, (thenVal, None)))
  /\ (Get e key = (VBool false, true) ->
      run (Conditional key thenVal elseVal) e = (e, (elseVal, None)))
  /\ (forall v : value,
         Get e key = (v, true) -> isBool v = false ->
         exists err : error,
           run (Conditional key thenVal elseVal) e = (e, (VNil, Some err))
           /\ errors_Is (Some err) (Some ErrTypeMismatch) = true)
  /\ (Has e key = false ->
      exists err : error,
        run (Conditional key thenVal elseVal) e = (e, (VNil, Some err))
        /\ run (Percentage key percent) e = (e, (VNil, Some err))
        /\ errors_Is (Some err) (Some ErrValueNotFound) = true).
Proof.
  rewrite Percentage_run, Conditional_run.
  unfold GetBool, GetFloat64, Has, Get.
  destruct (values e !! key) as [v0 |].
  - split; [intros v ->; reflexivity |].
    split; [intros H; injection H as ->; reflexivity |].
    split; [intros H; injection H as ->; reflexivity |].
    split; [| intros H; discriminate H].
    intros v H Hb. injection H as ->.
    destruct v; try discriminate Hb;
      (eexists; split; [reflexivity | apply wrapf_sentinel_Is]).
  - split; [intros v H; discriminate H |].
    split; [intros H; discriminate H |].
    split; [intros H; discriminate H |].
    split; [intros v H; discriminate H |].
    intros _. eexists. split; [reflexivity |]. split; [reflexivity |].
    apply wrapf_sentinel_Is.
Qed.

(** *** The expression evaluator *)

Lemma eval_CallExpr (ev : expr.Evaluator) (getter : expr.ValueGetter)
    (name : string) (args : list expr.Node) :
  expr.eval ev getter (expr.CallExpr name args)
  = match expr.funcs ev !! name with
    | None => expr.fail ("undefined function: " ++ name)
    | Some fn =>
        match evalArgs ev getter args with
        | (_, Some err) => (VNil, Some err)
        | (vals, None) => fn vals
        end
    end.
Proof. reflexivity. Qed.

Lemma evalArgs_first_error (ev : expr.Evaluator) (getter : expr.ValueGetter)
    (pre : list expr.Node) :
  forall (vals : list value) (a : expr.Node) (post : list expr.Node)
         (v : value) (err : error),
    Forall2 (fun n val => expr.eval ev getter n = (val, None)) pre vals ->
    expr.eval ev getter a = (v, Some err) ->
    snd (evalArgs ev getter (pre ++ a :: post)) = Some err.
Proof.
  induction pre as [| n pre IH]; intros vals a post v err Hpre Ha.
  - simpl. rewrite Ha. reflexivity.
  - inversion Hpre as [| ? val ? vals' Hn Hrest]; subst.
    cbn [app evalArgs]. rewrite Hn.
    specialize (IH vals' a post v err Hrest Ha).
    destruct (evalArgs ev getter (pre ++ a :: post)) as [vs e0]. simpl in *.
    exact IH.
Qed.

Lemma evalArgs_all (ev : expr.Evaluator) (getter : expr.ValueGetter)
    (args : list expr.Node) :
  forall vals : list value,
    Forall2 (fun n val => expr.eval ev getter n = (val, None)) args vals ->
    evalArgs ev getter args = (vals, None).
Proof.
  induction args as [| n args IH]; intros vals H.
  - inversion H. reflexivity.
  - inversion H as [| ? val ? vals' Hn Hrest]; subst.
    cbn [evalArgs]. rewrite Hn, (IH vals' Hrest). reflexivity.
Qed.

(** X25. Evaluation is strict. Both operands of a binary operator are
    evaluated, the left one first, before the operator is looked at:
    an error in the right operand is the result even of [&&] after
    false and of [||] after true. The arguments of a call are all
    evaluated, in order, before the function is called: the first error
    among them is the result and the function is not called, so an
    [if] fails on an error in the branch it would not take. The
    function is looked up first: an unknown name is the error, whatever
    the arguments. *)
Theorem eval_is_strict (ev : expr.Evaluator) (getter : expr.ValueGetter) :
  (forall (op : expr.TokenType) (l r : expr.Node) (v : value) (err : error),
      expr.eval ev getter l = (v, Some err) ->
      expr.eval ev getter (expr.BinaryExpr op l r) = (VNil, Some err))
  /\ (forall (op : expr.TokenType) (l r : expr.Node) (lv v : value) (err : error),
         expr.eval ev getter l = (lv, None) ->
         expr.eval ev getter r = (v, Some err) ->
         expr.eval ev getter (expr.BinaryExpr op l r) = (VNil, Some err))
  /\ (forall (r : expr.Node) (v : value) (err : error),
         expr.eval ev getter r = (v, Some err) ->
         expr.eval ev getter
           (expr.BinaryExpr expr.TokenAnd (expr.BoolLit false) r)
         = (VNil, Some err)
         /\ expr.eval ev getter
              (expr.BinaryExpr expr.TokenOr (expr.BoolLit true) r)
            = (VNil, Some err))
  /\ (forall (name : string) (fn : expr.Func) (pre : list expr.Node)
             (vals : list value) (a : expr.Node) (post : list expr.Node)
             (v : value) (err : error),
         expr.funcs ev !! name = Some fn ->
         Forall2 (fun n val => expr.eval ev getter n = (val, None)) pre vals ->
         expr.eval ev getter a = (v, Some err) ->
         expr.eval ev getter (expr.CallExpr name (pre ++ a :: post))
         = (VNil, Some err))
  /\ (forall (a : expr.Node) (v : value) (err : error),
         expr.funcs ev !! "if" = Some expr.funcIf ->
         expr.eval ev getter a = (v, Some err) ->
         expr.eval ev getter
           (expr.CallExpr "if" [expr.BoolLit true; expr.NumberLit 1; a])
         = (VNil, Some err))
  /\ (forall (name : string) (args : list expr.Node),
         expr.funcs ev !! name = None ->
         expr.eval ev getter (expr.CallExpr name args)
         = (VNil, Some (errorString ("undefined function: " ++ name)))).
Proof.
  assert (Hcall : forall (name : string) (fn : expr.Func) (pre : list expr.Node)
             (vals : list value) (a : expr.Node) (post : list expr.Node)
             (v : value) (err : error),
         expr.funcs ev !! name = Some fn ->
         Forall2 (fun n val => expr.eval ev getter n = (val, None)) pre vals ->
         expr.eval ev getter a = (v, Some err) ->
         expr.eval ev getter (expr.CallExpr name (pre ++ a :: post))
         = (VNil, Some err)).
  { intros name fn pre vals a post v err Hfn Hpre Ha.
    rewrite eval_CallExpr. unfold expr.Func in *. rewrite Hfn.
    pose proof (evalArgs_first_error ev getter pre vals a post v err Hpre Ha) as H.
    destruct (evalArgs ev getter (pre ++ a :: post)) as [vs e0]. simpl in H.
    rewrite H. reflexivity. }
  split; [| split; [| split; [| split; [| split]]]].
  - intros op l r v err H. simpl. rewrite H. reflexivity.
  - intros op l r lv v err Hl Hr. simpl. rewrite Hl, Hr. reflexivity.
  - intros r v err H. simpl. rewrite H. split; reflexivity.
  - exact Hcall.
  - intros a v err Hfn Ha.
    apply (Hcall "if" expr.funcIf [expr.BoolLit true; expr.NumberLit 1]
             [VBool true; VFloat64 1] a [] v err Hfn); [| exact Ha].
    repeat constructor.
  - intros name args H. rewrite eval_CallExpr. unfold expr.Func in *.
    rewrite H. reflexivity.
Qed.

(** X26. Division in an expression. With both operands numbers, [/]
    and [%] by a divisor equal to zero fail with the plain errors
    [division by zero] and [modulo by zero]; these are not
    [ErrDivisionByZero], neither by themselves nor inside the
    [RuleError] a formula rule wraps them in. With any other divisor
    the results are the float64 quotient and [math.Mod]. *)
Theorem expression_division_by_zero (l r : value) (lf rf : float) :
  expr.toFloat l = (lf, None) ->
  expr.toFloat r = (rf, None) ->
  ((rf =? 0)%float = true ->
   expr.evalBinary expr.TokenSlash l r
   = (VNil, Some (errorString "division by zero"))
   /\ expr.evalBinary expr.TokenPercent l r
      = (VNil, Some (errorString "modulo by zero"))
   /\ (forall ruleID : string,
          errors_Is (evaluateError ruleID RuleTypeFormula
                       (errorString "division by zero"))
            (Some ErrDivisionByZero) = false))
  /\ ((rf =? 0)%float = false ->
      expr.evalBinary expr.TokenSlash l r = (VFloat64 (lf / rf)%float, None)
      /\ expr.evalBinary expr.TokenPercent l r
         = (VFloat64 (math.Mod lf rf), None)).
Proof.
  intros Hl Hr. unfold expr.evalBinary, expr.withFloats. rewrite Hl, Hr.
  split; intros ->.
  - split; [reflexivity |]. split; [reflexivity |].
    intros ruleID. reflexivity.
  - split; reflexivity.
Qed.

(** X27. What counts as a number. Whatever the expression evaluator
    takes for a number, the context's [GetFloat64] reads as the same
    float64. The converse fails: int16, int8 and the unsigned integers
    are numbers for the context and for range lookups, and are refused
    by the evaluator, so arithmetic in an expression on a variable
    holding one of them fails. *)
Theorem expression_numbers_are_fewer (v : value) :
  (forall f : float, expr.toFloat v = (f, None) -> toFloat64 v = (f, None))
  /\ (forall n : Z,
         In v [VInt16 n; VInt8 n; VUint n; VUint64 n; VUint32 n; VUint16 n;
               VUint8 n] ->
         toFloat64 v = (math.ofZ n, None)
         /\ expr.toFloat v
            = (0%float, Some (errorString ("expected number, got " ++ typeName v)))
         /\ forall (ev : expr.Evaluator) (getter : expr.ValueGetter)
                   (name : string) (op : expr.TokenType) (other : expr.Node)
                   (w : value),
              getter name = (v, true) ->
              expr.eval ev getter other = (w, None) ->
              In op [expr.TokenMinus; expr.TokenStar; expr.TokenSlash;
                     expr.TokenPercent; expr.TokenLt; expr.TokenLe;
                     expr.TokenGt; expr.TokenGe] ->
              expr.eval ev getter (expr.BinaryExpr op (expr.Ident name) other)
              = (VNil, Some (errorString ("expected number, got " ++ typeName v))))
  /\ (forall (z : float) (err : error),
         toFloat64 v = (z, Some err) ->
         expr.toFloat v
         = (0%float, Some (errorString ("expected number, got " ++ typeName v)))).
Proof.
  split; [| split].
  - intros f. destruct v; simpl; intros H; inversion H; reflexivity.
  - intros n Hin.
    assert (Hv : toFloat64 v = (math.ofZ n, None)
                 /\ expr.toFloat v
                    = (0%float,
                       Some (errorString ("expected number, got " ++ typeName v)))).
    { simpl in Hin.
      destruct Hin as [<- | [<- | [<- | [<- | [<- | [<- | [<- | []]]]]]]];
        split; reflexivity. }
    destruct Hv as [H64 Hf]. split; [exact H64 |]. split; [exact Hf |].
    intros ev getter name op other w Hg Ho Hop.
    simpl expr.eval. rewrite Hg, Ho.
    simpl in Hop.
    destruct Hop as [<- | [<- | [<- | [<- | [<- | [<- | [<- | [<- | []]]]]]]]];
      unfold expr.evalBinary, expr.withFloats; rewrite Hf; reflexivity.
  - intros z err. destruct v; simpl; intros H; inversion H; reflexivity.
Qed.

(** X28. A function registered on an expression is the one a call by
    that name runs, on the values of the arguments in order, a built-in
    of that name being replaced; the calls by other names, the source
    text and the tree are as before. *)
Theorem RegisterFunc_replaces
    (e : expr.Expression) (name : string) (fn : expr.Func)
    (getter : expr.ValueGetter) (args : list expr.Node) (vals : list value) :
  let e' := expr.RegisterFunc e name fn in
  Forall2 (fun n val => expr.eval (expr.evaluator e') getter n = (val, None))
          args vals ->
  expr.eval (expr.evaluator e') getter (expr.CallExpr name args) = fn vals
  /\ expr.funcs (expr.evaluator e') !! name = Some fn
  /\ (forall other : string,
         other <> name ->
         expr.funcs (expr.evaluator e') !! other
         = expr.funcs (expr.evaluator e) !! other)
  /\ expr.Raw e' = expr.Raw e
  /\ expr.ast e' = expr.ast e.
Proof.
  intros e' Hargs.
  split; [| split; [| split; [| split]]]; try reflexivity.
  - rewrite eval_CallExpr, (evalArgs_all _ _ _ _ Hargs).
    subst e'. cbn [expr.RegisterFunc expr.evaluator expr.Evaluator_RegisterFunc
                   expr.funcs].
    unfold expr.Func in *. rewrite lookup_insert_eq. reflexivity.
  - subst e'. simpl. apply lookup_insert_eq.
  - intros other Hne. subst e'. simpl. apply lookup_insert_ne. congruence.
Qed.

Lemma Node_nested_ind (P : expr.Node -> Prop) :
  (forall v, P (expr.NumberLit v)) ->
  (forall s, P (expr.StringLit s)) ->
  (forall b, P (expr.BoolLit b)) ->
  (forall name, P (expr.Ident name)) ->
  (forall op l r, P l -> P r -> P (expr.BinaryExpr op l r)) ->
  (forall op x, P x -> P (expr.UnaryExpr op x)) ->
  (forall name args, Forall P args -> P (expr.CallExpr name args)) ->
  forall node, P node.
Proof.
  intros Hn Hs Hb Hi Hbin Hun Hcall.
  fix IH 1. intros node.
  destruct node as [v | s | b | name | op l r | op x | name args].
  - apply Hn.
  - apply Hs.
  - apply Hb.
  - apply Hi.
  - apply Hbin; apply IH.
  - apply Hun; apply IH.
  - apply Hcall. induction args as [| a args IHargs]; constructor.
    + apply IH.
    + exact IHargs.
Qed.

(** X29. An expression reads only what it mentions: two value sources
    that agree on the identifiers of an expression, and two evaluators
    that agree on the functions it calls, give the same result, value
    or error. *)
Theorem eval_reads_only_what_it_mentions
    (ev1 ev2 : expr.Evaluator) (g1 g2 : expr.ValueGetter) (node : expr.Node) :
  (forall name : string, In name (idents node) -> g1 name = g2 name) ->
  (forall name : string,
      In name (calls node) -> expr.funcs ev1 !! name = expr.funcs ev2 !! name) ->
  expr.eval ev1 g1 node = expr.eval ev2 g2 node.
Proof.
  induction node as [v | s | b | name | op l r IHl IHr | op x IHx | name args IHargs]
    using Node_nested_ind; intros Hg Hf.
  - reflexivity.
  - reflexivity.
  - reflexivity.
  - simpl. rewrite (Hg name) by (left; reflexivity). reflexivity.
  - simpl in Hg, Hf. simpl.
    rewrite IHl, IHr; try reflexivity;
      intros n Hn; (apply Hg || apply Hf); apply in_or_app; auto.
  - simpl in Hg, Hf. simpl. rewrite IHx by assumption. reflexivity.
  - rewrite !eval_CallExpr. simpl in Hg, Hf. unfold expr.Func in *.
    rewrite (Hf name) by (left; reflexivity).
    match goal with
    | |- match ?x with Some _ => _ | None => _ end = _ =>
        destruct x as [fn |]; [| reflexivity]
    end.
    assert (Hargs : evalArgs ev1 g1 args = evalArgs ev2 g2 args).
    { assert (Hg' : forall n, In n (List.concat (List.map idents args)) -> g1 n = g2 n)
        by exact Hg.
      assert (Hf' : forall n, In n (List.concat (List.map calls args)) ->
                              expr.funcs ev1 !! n = expr.funcs ev2 !! n).
      { intros n Hn. apply Hf. right. exact Hn. }
      clear Hg Hf.
      induction IHargs as [| a args Ha _ IH]; [reflexivity |].
      cbn [evalArgs]. simpl in Hg', Hf'.
      rewrite Ha.
      - rewrite IH; [reflexivity | |];
          intros n Hn; (apply Hg' || apply Hf'); apply in_or_app; auto.
      - intros n Hn. apply Hg'. apply in_or_app. auto.
      - intros n Hn. apply Hf'. apply in_or_app. auto. }
    rewrite Hargs. reflexivity.
Qed.

(** *** The lexer *)

Lemma byteAt_past_end (s : string) (i : nat) :
  (String.length s <= i)%nat -> expr.byteAt s i = Ascii.zero.
Proof.
  unfold expr.byteAt. revert i. induction s as [| c s IH]; intros i H.
  - destruct i; reflexivity.
  - destruct i as [| i]; simpl in *; [lia |]. apply IH. lia.
Qed.

Lemma lexerOK_nonzero (l : expr.Lexer) :
  lexerOK l -> expr.l_ch l <> Ascii.zero ->
  (expr.l_pos l <= String.length (expr.l_input l))%nat.
Proof.
  intros [Hpos Hch] Hnz. rewrite Hch in Hnz.
  destruct (String.length (expr.l_input l) <=? expr.l_pos l - 1)%nat eqn:Hle.
  - contradiction.
  - apply Nat.leb_gt in Hle. lia.
Qed.

Lemma readChar_ok (l : expr.Lexer) :
  lexerOK l -> expr.l_ch l <> Ascii.zero ->
  lexerOK (expr.readChar l)
  /\ expr.l_input (expr.readChar l) = expr.l_input l
  /\ expr.l_pos (expr.readChar l) = S (expr.l_pos l)
  /\ expr.l_ch (expr.readChar l) = expr.peekChar l.
Proof.
  intros Hok Hnz. pose proof (lexerOK_nonzero l Hok Hnz) as Hle.
  destruct Hok as [Hpos Hch].
  unfold lexerOK, expr.readChar, expr.peekChar. simpl.
  rewrite Nat.sub_0_r. repeat split; lia.
Qed.

Lemma NewLexer_ok (input : string) :
  lexerOK (expr.NewLexer input)
  /\ expr.l_input (expr.NewLexer input) = input
  /\ expr.l_pos (expr.NewLexer input) = 1%nat.
Proof.
  unfold lexerOK, expr.NewLexer, expr.readChar. simpl.
  repeat split; lia.
Qed.

(** A loop [for cond(l.ch) { l.readChar() }] whose condition fails on
    the rune 0 is ended by its condition, the lexer staying in order. *)
Lemma readWhile_exits (cond : ascii -> bool) :
  cond Ascii.zero = false ->
  forall (turns : nat) (l : expr.Lexer),
    lexerOK l ->
    (S (String.length (expr.l_input l)) - expr.l_pos l <= turns)%nat ->
    let l' := expr.readWhile cond turns l in
    lexerOK l'
    /\ expr.l_input l' = expr.l_input l
    /\ (expr.l_pos l <= expr.l_pos l')%nat
    /\ cond (expr.l_ch l') = false
    /\ (cond (expr.l_ch l) = true -> (expr.l_pos l < expr.l_pos l')%nat).
Proof.
  intros Hzero. induction turns as [| turns IH]; intros l Hok Hturns l'.
  - subst l'. simpl.
    assert (Hch : expr.l_ch l = Ascii.zero).
    { destruct Hok as [Hpos ->].
      replace (String.length (expr.l_input l) <=? expr.l_pos l - 1)%nat with true;
        [reflexivity |].
      symmetry. apply Nat.leb_le. lia. }
    rewrite Hch, Hzero. split; [assumption |]; repeat split; try assumption; try lia; discriminate.
  - subst l'. simpl. destruct (cond (expr.l_ch l)) eqn:Hc.
    + assert (Hnz : expr.l_ch l <> Ascii.zero).
      { intros H. rewrite H, Hzero in Hc. discriminate Hc. }
      destruct (readChar_ok l Hok Hnz) as (Hok1 & Hin1 & Hpos1 & _).
      destruct (IH (expr.readChar l) Hok1) as (H1 & H2 & H3 & H4 & _).
      { rewrite Hin1, Hpos1. lia. }
      rewrite Hin1, Hpos1 in *. split; [assumption |]; repeat split; try assumption; try lia.
    + split; [assumption |]; repeat split; try assumption; try lia; discriminate.
Qed.

Lemma readNumberLoop_exits :
  forall (turns : nat) (hasDot : bool) (l : expr.Lexer),
    lexerOK l ->
    (S (String.length (expr.l_input l)) - expr.l_pos l <= turns)%nat ->
    let l' := expr.readNumberLoop turns hasDot l in
    lexerOK l'
    /\ expr.l_input l' = expr.l_input l
    /\ (expr.l_pos l <= expr.l_pos l')%nat
    /\ expr.isDigit (expr.l_ch l') = false
    /\ (expr.isDigit (expr.l_ch l) = true -> (expr.l_pos l < expr.l_pos l')%nat).
Proof.
  induction turns as [| turns IH]; intros hasDot l Hok Hturns l'.
  - subst l'. simpl.
    assert (Hch : expr.l_ch l = Ascii.zero).
    { destruct Hok as [Hpos ->].
      replace (String.length (expr.l_input l) <=? expr.l_pos l - 1)%nat with true;
        [reflexivity |].
      symmetry. apply Nat.leb_le. lia. }
    rewrite Hch. split; [assumption |]; repeat split; try assumption; try lia; try reflexivity; discriminate.
  - subst l'. simpl.
    destruct (expr.isDigit (expr.l_ch l)
              || Ascii.eqb (expr.l_ch l) "." && negb hasDot) eqn:Hc.
    + assert (Hnz : expr.l_ch l <> Ascii.zero).
      { intros H. rewrite H in Hc. discriminate Hc. }
      destruct (readChar_ok l Hok Hnz) as (Hok1 & Hin1 & Hpos1 & _).
      destruct (IH (if Ascii.eqb (expr.l_ch l) "." then true else hasDot)
                   (expr.readChar l) Hok1) as (H1 & H2 & H3 & H4 & _).
      { rewrite Hin1, Hpos1. lia. }
      rewrite Hin1, Hpos1 in *. split; [assumption |]; repeat split; try assumption; try lia.
    + apply orb_false_elim in Hc as [Hd _].
      split; [assumption |]; repeat split; try assumption; try lia. rewrite Hd. discriminate.
Qed.

Lemma turns_enough (l l2 : expr.Lexer) :
  lexerOK l2 -> expr.l_input l2 = expr.l_input l ->
  (S (String.length (expr.l_input l2)) - expr.l_pos l2
   <= String.length (expr.l_input l))%nat.
Proof. intros [Hp _] ->. lia. Qed.

Lemma readString_ok (l : expr.Lexer) (c : ascii) :
  lexerOK l -> expr.l_ch l <> Ascii.zero ->
  lexerOK (snd (expr.readString l c))
  /\ expr.l_input (snd (expr.readString l c)) = expr.l_input l
  /\ (expr.l_pos l < expr.l_pos (snd (expr.readString l c)))%nat.
Proof.
  intros Hok Hnz.
  destruct (readChar_ok l Hok Hnz) as (Hok2 & Hin2 & Hpos2 & _).
  unfold expr.readString.
  set (cond := fun c0 : ascii =>
                 negb (Ascii.eqb c0 c) && negb (Ascii.eqb c0 Ascii.zero)).
  assert (Hzero : cond Ascii.zero = false) by (unfold cond; apply andb_false_r).
  destruct (readWhile_exits cond Hzero (String.length (expr.l_input l))
              (expr.readChar l) Hok2) as (Hok3 & Hin3 & Hpos3 & _).
  { apply turns_enough; assumption. }
  match goal with
  | |- context [if ?b then _ else _] => destruct b eqn:Hend
  end; simpl.
  - split; [exact Hok3 |]. split; [congruence | lia].
  - apply Ascii.eqb_neq in Hend.
    destruct (readChar_ok _ Hok3 Hend) as (H1 & H2 & H3 & _).
    split; [exact H1 |]. split; [congruence | lia].
Qed.

Lemma readNumber_ok (l : expr.Lexer) :
  lexerOK l -> expr.isDigit (expr.l_ch l) = true ->
  lexerOK (snd (expr.readNumber l))
  /\ expr.l_input (snd (expr.readNumber l)) = expr.l_input l
  /\ (expr.l_pos l < expr.l_pos (snd (expr.readNumber l)))%nat
  /\ expr.t_Type (fst (expr.readNumber l)) = expr.TokenNumber.
Proof.
  intros Hok Hdigit.
  destruct (readNumberLoop_exits (String.length (expr.l_input l)) false l Hok)
    as (Hok3 & Hin3 & _ & _ & Hpos3).
  { apply turns_enough; [assumption | reflexivity]. }
  unfold expr.readNumber. simpl.
  split; [exact Hok3 |]. split; [exact Hin3 |]. split; [exact (Hpos3 Hdigit) |].
  reflexivity.
Qed.

Lemma readIdentifier_ok (l : expr.Lexer) :
  lexerOK l -> expr.isLetter (expr.l_ch l) = true ->
  lexerOK (snd (expr.readIdentifier l))
  /\ expr.l_input (snd (expr.readIdentifier l)) = expr.l_input l
  /\ (expr.l_pos l < expr.l_pos (snd (expr.readIdentifier l)))%nat.
Proof.
  intros Hok Hletter.
  set (cond := fun c : ascii =>
                 expr.isLetter c || expr.isDigit c || Ascii.eqb c "_").
  destruct (readWhile_exits cond eq_refl (String.length (expr.l_input l)) l Hok)
    as (Hok3 & Hin3 & _ & _ & Hpos3).
  { apply turns_enough; [assumption | reflexivity]. }
  assert (Hc : cond (expr.l_ch l) = true).
  { unfold cond. rewrite Hletter. reflexivity. }
  unfold expr.readIdentifier. fold cond.
  match goal with
  | |- context [if ?b then _ else _] => destruct b
  end; simpl; (split; [exact Hok3 |]; split; [exact Hin3 | exact (Hpos3 Hc)]).
Qed.

(** What a call of [NextToken] does to the lexer: the end of the input
    (or a NUL byte) gives an EOF token and consumes nothing after the
    blanks; anything else gives a token that is not EOF and consumes at
    least one byte. *)
Lemma NextToken_progress (l : expr.Lexer) :
  lexerOK l ->
  let tok := fst (expr.NextToken l) in
  let l' := snd (expr.NextToken l) in
  lexerOK l'
  /\ expr.l_input l' = expr.l_input l
  /\ (expr.l_pos l <= expr.l_pos l')%nat
  /\ Z.of_nat (expr.l_pos l) - 1 <= expr.t_Pos tok
  /\ expr.t_Pos tok <= Z.of_nat (expr.l_pos l') - 1
  /\ (expr.t_Type tok <> expr.TokenEOF ->
      (expr.l_pos l < expr.l_pos l')%nat
      /\ expr.t_Pos tok < Z.of_nat (expr.l_pos l') - 1).
Proof.
  intros Hok tok l'.
  assert (Hspace : expr.isSpace Ascii.zero = false) by reflexivity.
  destruct (readWhile_exits expr.isSpace Hspace
              (String.length (expr.l_input l)) l Hok)
    as (Hok1 & Hin1 & Hpos1 & _).
  { destruct Hok as [Hpos _]. lia. }
  fold (expr.skipWhitespace l) in Hok1, Hin1, Hpos1.
  subst tok l'. unfold expr.NextToken.
  set (l1 := expr.skipWhitespace l) in *.
  cbv zeta.
  destruct (Ascii.eqb (expr.l_ch l1) Ascii.zero) eqn:Hz.
  { simpl. split; [assumption |].
    repeat split; try assumption; try lia; congruence. }
  apply Ascii.eqb_neq in Hz.
  destruct (readChar_ok l1 Hok1 Hz) as (Hok2 & Hin2 & Hpos2 & Hch2).
  assert (Hone : forall tok0 : expr.Token,
    expr.t_Pos tok0 = Z.of_nat (expr.l_pos l1) - 1 ->
    lexerOK (expr.readChar l1)
    /\ expr.l_input (expr.readChar l1) = expr.l_input l
    /\ (expr.l_pos l <= expr.l_pos (expr.readChar l1))%nat
    /\ Z.of_nat (expr.l_pos l) - 1 <= expr.t_Pos tok0
    /\ expr.t_Pos tok0 <= Z.of_nat (expr.l_pos (expr.readChar l1)) - 1
    /\ (expr.t_Type tok0 <> expr.TokenEOF ->
        (expr.l_pos l < expr.l_pos (expr.readChar l1))%nat
        /\ expr.t_Pos tok0 < Z.of_nat (expr.l_pos (expr.readChar l1)) - 1)).
  { intros tok0 Hp. rewrite Hp, Hpos2, Hin2, Hin1.
    split; [assumption |]; repeat split; try assumption; lia. }
  assert (Htwo : forall tok0 : expr.Token,
    expr.t_Pos tok0 = Z.of_nat (expr.l_pos l1) - 1 ->
    expr.peekChar l1 <> Ascii.zero ->
    lexerOK (expr.readChar (expr.readChar l1))
    /\ expr.l_input (expr.readChar (expr.readChar l1)) = expr.l_input l
    /\ (expr.l_pos l <= expr.l_pos (expr.readChar (expr.readChar l1)))%nat
    /\ Z.of_nat (expr.l_pos l) - 1 <= expr.t_Pos tok0
    /\ expr.t_Pos tok0 <= Z.of_nat (expr.l_pos (expr.readChar (expr.readChar l1))) - 1
    /\ (expr.t_Type tok0 <> expr.TokenEOF ->
        (expr.l_pos l < expr.l_pos (expr.readChar (expr.readChar l1)))%nat
        /\ expr.t_Pos tok0
           < Z.of_nat (expr.l_pos (expr.readChar (expr.readChar l1))) - 1)).
  { intros tok0 Hp Hpk. rewrite <- Hch2 in Hpk.
    destruct (readChar_ok (expr.readChar l1) Hok2 Hpk) as (Hok3 & Hin3 & Hpos3 & _).
    rewrite Hp, Hpos3, Hin3, Hpos2, Hin2, Hin1.
    split; [assumption |]; repeat split; try assumption; lia. }
  assert (Hafter : forall (tl : expr.Token * expr.Lexer),
    lexerOK (snd tl) ->
    expr.l_input (snd tl) = expr.l_input l1 ->
    (expr.l_pos l1 < expr.l_pos (snd tl))%nat ->
    let r := expr.withPos tl (Z.of_nat (expr.l_pos l1) - 1) in
    lexerOK (snd r)
    /\ expr.l_input (snd r) = expr.l_input l
    /\ (expr.l_pos l <= expr.l_pos (snd r))%nat
    /\ Z.of_nat (expr.l_pos l) - 1 <= expr.t_Pos (fst r)
    /\ expr.t_Pos (fst r) <= Z.of_nat (expr.l_pos (snd r)) - 1
    /\ (expr.t_Type (fst r) <> expr.TokenEOF ->
        (expr.l_pos l < expr.l_pos (snd r))%nat
        /\ expr.t_Pos (fst r) < Z.of_nat (expr.l_pos (snd r)) - 1)).
  { intros tl H1 H2 H3 r. subst r. unfold expr.withPos. simpl.
    rewrite H2, Hin1. split; [assumption |]; repeat split; try assumption; lia. }
  assert (Hpeek : forall c : ascii,
    c <> Ascii.zero -> Ascii.eqb (expr.peekChar l1) c = true ->
    expr.peekChar l1 <> Ascii.zero).
  { intros c Hc H. apply Ascii.eqb_eq in H. rewrite H. exact Hc. }
  repeat match goal with
         | |- context [if Ascii.eqb (expr.l_ch l1) ?c then _ else _] =>
             destruct (Ascii.eqb (expr.l_ch l1) c) eqn:?;
               [try (apply Hone; reflexivity) |]
         end.
  - destruct (Ascii.eqb (expr.peekChar l1) "=") eqn:Hp;
      [apply Htwo; [reflexivity | eapply Hpeek; [| exact Hp]; discriminate]
      | apply Hone; reflexivity].
  - destruct (Ascii.eqb (expr.peekChar l1) "=") eqn:Hp;
      [apply Htwo; [reflexivity | eapply Hpeek; [| exact Hp]; discriminate]
      | apply Hone; reflexivity].
  - destruct (Ascii.eqb (expr.peekChar l1) "=") eqn:Hp;
      [apply Htwo; [reflexivity | eapply Hpeek; [| exact Hp]; discriminate]
      | apply Hone; reflexivity].
  - destruct (Ascii.eqb (expr.peekChar l1) "=") eqn:Hp;
      [apply Htwo; [reflexivity | eapply Hpeek; [| exact Hp]; discriminate]
      | apply Hone; reflexivity].
  - destruct (Ascii.eqb (expr.peekChar l1) "&") eqn:Hp;
      [apply Htwo; [reflexivity | eapply Hpeek; [| exact Hp]; discriminate]
      | apply Hone; reflexivity].
  - destruct (Ascii.eqb (expr.peekChar l1) "|") eqn:Hp;
      [apply Htwo; [reflexivity | eapply Hpeek; [| exact Hp]; discriminate]
      | apply Hone; reflexivity].
  - (* a string, a number, an identifier, or a byte that starts nothing *)
    match goal with
    | |- context [if ?b then _ else _] => destruct b eqn:Hquote
    end.
    { destruct (readString_ok l1 (expr.l_ch l1) Hok1 Hz) as (H1 & H2 & H3).
      apply Hafter; assumption. }
    destruct (expr.isDigit (expr.l_ch l1)) eqn:Hdigit.
    { destruct (readNumber_ok l1 Hok1 Hdigit) as (H1 & H2 & H3 & _).
      apply Hafter; assumption. }
    destruct (expr.isLetter (expr.l_ch l1)) eqn:Hletter.
    { destruct (readIdentifier_ok l1 Hok1 Hletter) as (H1 & H2 & H3).
      apply Hafter; assumption. }
    apply Hone. reflexivity.
Qed.


Lemma tokenizeLoop_ends (turns : nat) :
  forall l : expr.Lexer,
    lexerOK l ->
    (S (String.length (expr.l_input l)) - expr.l_pos l < turns)%nat ->
    exists (toks : list expr.Token) (last : expr.Token),
      expr.tokenizeLoop turns l = (toks ++ [last])%list
      /\ expr.isLast last = true
      /\ Forall (fun t => expr.isLast t = false) toks
      /\ (length toks <= S (String.length (expr.l_input l)) - expr.l_pos l)%nat
      /\ Forall (fun t => Z.of_nat (expr.l_pos l) - 1 <= expr.t_Pos t
                          <= Z.of_nat (String.length (expr.l_input l)))
           (toks ++ [last])%list
      /\ StronglySorted tokenBefore (toks ++ [last])%list.
Proof.
  induction turns as [| turns IH]; intros l Hok Hturns; [lia |].
  pose proof (NextToken_progress l Hok) as Hnext. cbv zeta in Hnext.
  destruct Hnext as (Hok' & Hin' & Hle & Hlo & Hhi & Hmore).
  pose proof Hok' as [[_ Hmax] _]. rewrite Hin' in Hmax.
  simpl. destruct (expr.NextToken l) as [tok l'] eqn:Hnt. simpl in *.
  destruct (expr.isLast tok) eqn:Hlast.
  - exists [], tok. simpl.
    split; [reflexivity |]. split; [assumption |]. split; [constructor |].
    split; [lia |]. split.
    + constructor; [lia | constructor].
    + constructor; [constructor | constructor].
  - assert (Hne : expr.t_Type tok <> expr.TokenEOF).
    { intros Heof. unfold expr.isLast in Hlast. rewrite Heof in Hlast.
      discriminate. }
    destruct (Hmore Hne) as [Hlt Hlt'].
    destruct (IH l' Hok') as (toks & last & Heq & Hl & Hall & Hlen & Hpos & Hsort).
    { rewrite Hin'. lia. }
    rewrite Hin' in *.
    exists (tok :: toks), last. rewrite Heq. simpl.
    split; [reflexivity |]. split; [assumption |].
    split; [constructor; assumption |]. split; [lia |]. split.
    + constructor; [lia |].
      eapply Forall_impl; [exact Hpos |]. simpl. intros t Ht. lia.
    + constructor; [assumption |].
      eapply Forall_impl; [exact Hpos |]. unfold tokenBefore. simpl.
      intros t Ht. lia.
Qed.

(** X8. [Tokenize] always returns: its result is a run of tokens that
    are neither EOF nor Error followed by exactly one token that is EOF
    or Error. The tokens before the last are no more than the bytes of
    the input, and the positions of the tokens are byte offsets between
    0 and the input's length that increase strictly. *)
Theorem Tokenize_ends (input : string) :
  exists (toks : list expr.Token) (last : expr.Token),
    expr.Tokenize input = (toks ++ [last])%list
    /\ (expr.t_Type last = expr.TokenEOF \/ expr.t_Type last = expr.TokenError)
    /\ Forall (fun t => expr.t_Type t <> expr.TokenEOF
                        /\ expr.t_Type t <> expr.TokenError) toks
    /\ (length toks <= String.length input)%nat
    /\ Forall (fun t => 0 <= expr.t_Pos t <= Z.of_nat (String.length input))
         (toks ++ [last])%list
    /\ StronglySorted tokenBefore (toks ++ [last])%list.
Proof.
  destruct (NewLexer_ok input) as (Hok & Hin & Hpos).
  destruct (tokenizeLoop_ends (S (String.length input)) (expr.NewLexer input) Hok)
    as (toks & last & Heq & Hl & Hall & Hlen & Hrange & Hsort).
  { rewrite Hin, Hpos. lia. }
  rewrite Hin, Hpos in *.
  exists toks, last. split; [exact Heq |]. split.
  { unfold expr.isLast in Hl.
    destruct (expr.t_Type last); try discriminate; auto. }
  split.
  { eapply Forall_impl; [exact Hall |]. simpl. intros t Ht.
    unfold expr.isLast in Ht.
    split; intros Heq'; rewrite Heq' in Ht; discriminate. }
  split; [lia |]. split; [| exact Hsort].
  eapply Forall_impl; [exact Hrange |]. simpl. intros t Ht. lia.
Qed.

(** *** The parser *)

Section ParserProperties.

Variable ParseFloat : string -> option float.

Lemma parseExpression_S (d : nat) (p : expr.Parser) (prec : Z) :
  expr.parseExpression ParseFloat (S d) p prec
  = match expr.parseUnary ParseFloat d p with
    | None => None
    | Some (lhs, p1) => expr.parseBinaryLoop ParseFloat d p1 prec lhs
    end.
Proof. reflexivity. Qed.

Lemma parseBinaryLoop_S (d : nat) (p : expr.Parser) (prec : Z)
    (lhs : option expr.Node) :
  expr.parseBinaryLoop ParseFloat (S d) p prec lhs
  = if prec <? expr.precedence (expr.t_Type (expr.p_current p)) then
      match expr.parseExpression ParseFloat d (expr.advance p)
              (expr.precedence (expr.t_Type (expr.p_current p))) with
      | None => None
      | Some (rhs, p1) =>
          expr.parseBinaryLoop ParseFloat d p1 prec
            (expr.mkBinary (expr.t_Type (expr.p_current p)) lhs rhs)
      end
    else Some (lhs, p).
Proof. reflexivity. Qed.

Lemma parseArgsLoop_S (d : nat) (p : expr.Parser)
    (args : list (option expr.Node)) :
  expr.parseArgsLoop ParseFloat (S d) p args
  = match expr.t_Type (expr.p_current p) with
    | expr.TokenComma =>
        match expr.parseExpression ParseFloat d (expr.advance p)
                expr.precLowest with
        | None => None
        | Some (a, p1) => expr.parseArgsLoop ParseFloat d p1 (args ++ [a])%list
        end
    | _ => Some (args, p)
    end.
Proof. reflexivity. Qed.

Lemma parseCall_S (d : nat) (p : expr.Parser) (name : string) :
  expr.parseCall ParseFloat (S d) p name
  = match expr.t_Type (expr.p_current (expr.advance p)) with
    | expr.TokenRParen => Some (expr.closeCall name [] (expr.advance p))
    | _ =>
        match expr.parseExpression ParseFloat d (expr.advance p)
                expr.precLowest with
        | None => None
        | Some (a, p2) =>
            match expr.parseArgsLoop ParseFloat d p2 [a] with
            | None => None
            | Some (args, p3) => Some (expr.closeCall name args p3)
            end
        end
    end.
Proof. reflexivity. Qed.

Lemma parserStep_refl (p : expr.Parser) :
  lexerOK (expr.p_lexer p) -> parserStep p p.
Proof. intros H. unfold parserStep. repeat split; try apply H; lia. Qed.

Lemma parserStep_trans (p q r : expr.Parser) :
  parserStep p q -> parserStep q r -> parserStep p r.
Proof.
  intros (H1 & H2 & H3 & H4) (K1 & K2 & K3 & K4). unfold parserStep.
  split; [exact K1 |]. split; [congruence |]. split; lia.
Qed.

(** [advance] takes the current token away: a token that is not EOF
    counts in what is left to read. *)
Lemma advance_step (p : expr.Parser) :
  lexerOK (expr.p_lexer p) ->
  parserStep p (expr.advance p)
  /\ expr.p_current (expr.advance p) = expr.p_peek p
  /\ expr.p_errors (expr.advance p) = expr.p_errors p
  /\ (parserMeasure (expr.advance p) + notEOF (expr.p_current p)
      <= parserMeasure p)%nat.
Proof.
  intros Hok.
  pose proof (NextToken_progress _ Hok) as Hnext. cbv zeta in Hnext.
  destruct Hnext as (Hok' & Hin' & Hle & _ & _ & Hmore).
  unfold expr.advance, parserStep, parserMeasure.
  destruct (expr.NextToken (expr.p_lexer p)) as [tok l'] eqn:Hnt.
  simpl in *. rewrite Hin'.
  pose proof Hok' as [[_ Hmax] _]. rewrite Hin' in Hmax.
  assert (Hm : (S (String.length (expr.l_input (expr.p_lexer p))) - expr.l_pos l'
                + notEOF tok
                <= S (String.length (expr.l_input (expr.p_lexer p)))
                   - expr.l_pos (expr.p_lexer p))%nat).
  { unfold notEOF. destruct (expr.t_Type tok) eqn:Hty;
      try (destruct Hmore as [Hlt _]; [discriminate | lia]).
    lia. }
  repeat split; try assumption; try apply Hok'; lia.
Qed.

Lemma addError_step (p : expr.Parser) (msg : string) :
  lexerOK (expr.p_lexer p) ->
  parserStep p (expr.addError p msg)
  /\ (0 < length (expr.p_errors (expr.addError p msg)))%nat.
Proof.
  intros Hok. unfold parserStep, parserMeasure, expr.addError. simpl.
  rewrite length_app. simpl. repeat split; try apply Hok; lia.
Qed.

Lemma precedence_notEOF (t : expr.Token) (prec : Z) :
  0 <= prec -> (prec <? expr.precedence (expr.t_Type t)) = true ->
  notEOF t = 1%nat.
Proof.
  intros Hprec Hlt. apply Z.ltb_lt in Hlt. unfold notEOF.
  destruct (expr.t_Type t); try reflexivity.
  unfold expr.precedence, expr.precLowest in Hlt. lia.
Qed.

Lemma precedence_nonneg (t : expr.TokenType) : 0 <= expr.precedence t.
Proof. destruct t; unfold expr.precedence; cbv; discriminate. Qed.

Lemma mkBinary_None (op : expr.TokenType) (l r : option expr.Node) :
  expr.mkBinary op l r = None -> l = None \/ r = None.
Proof. destruct l, r; simpl; auto; discriminate. Qed.

Lemma allNodes_snoc (args : list (option expr.Node)) (a : option expr.Node) :
  expr.allNodes (args ++ [a]) = None -> expr.allNodes args = None \/ a = None.
Proof.
  induction args as [| [x |] args IH]; simpl.
  - destruct a; [discriminate | auto].
  - destruct (expr.allNodes (args ++ [a])); [discriminate |].
    intros _. destruct (IH eq_refl) as [-> | ->]; auto.
  - auto.
Qed.

Lemma closeCall_step (name : string) (args : list (option expr.Node))
    (p : expr.Parser) :
  lexerOK (expr.p_lexer p) ->
  (expr.allNodes args = None -> (0 < length (expr.p_errors p))%nat) ->
  parserStep p (snd (expr.closeCall name args p))
  /\ (fst (expr.closeCall name args p) = None ->
      (0 < length (expr.p_errors (snd (expr.closeCall name args p))))%nat).
Proof.
  intros Hok Hargs. unfold expr.closeCall.
  destruct (advance_step p Hok) as (Hs & _ & He & _).
  destruct (addError_step p "expected ')'" Hok) as (Hs' & He').
  destruct (expr.t_Type (expr.p_current p)); simpl;
    try (split; [exact Hs' | intros _; exact He']).
  split; [exact Hs |]. rewrite He. unfold expr.mkCall.
  destruct (expr.allNodes args); [discriminate | auto].
Qed.

Lemma parseUnary_S (d : nat) (p : expr.Parser) :
  expr.parseUnary ParseFloat (S d) p
  = match expr.t_Type (expr.p_current p) with
    | expr.TokenNot | expr.TokenMinus =>
        match expr.parseUnary ParseFloat d (expr.advance p) with
        | None => None
        | Some (x, p1) =>
            Some (expr.mkUnary (expr.t_Type (expr.p_current p)) x, p1)
        end
    | _ => expr.parsePrimary ParseFloat d p
    end.
Proof. reflexivity. Qed.

Lemma parsePrimary_S (d : nat) (p : expr.Parser) :
  expr.parsePrimary ParseFloat (S d) p
  = match expr.t_Type (expr.p_current p) with
    | expr.TokenNumber =>
        match ParseFloat (expr.t_Literal (expr.p_current p)) with
        | None =>
            Some (None,
                  expr.addError p
                    ("invalid number: " ++ expr.t_Literal (expr.p_current p)))
        | Some val => Some (Some (expr.NumberLit val), expr.advance p)
        end
    | expr.TokenString =>
        Some (Some (expr.StringLit (expr.t_Literal (expr.p_current p))),
              expr.advance p)
    | expr.TokenBool =>
        Some (Some (expr.BoolLit
                      (String.eqb (expr.t_Literal (expr.p_current p)) "true")),
              expr.advance p)
    | expr.TokenIdent =>
        match expr.t_Type (expr.p_current (expr.advance p)) with
        | expr.TokenLParen =>
            expr.parseCall ParseFloat d (expr.advance p)
              (expr.t_Literal (expr.p_current p))
        | _ => Some (Some (expr.Ident (expr.t_Literal (expr.p_current p))),
                     expr.advance p)
        end
    | expr.TokenLParen =>
        match expr.parseExpression ParseFloat d (expr.advance p)
                expr.precLowest with
        | None => None
        | Some (node, p1) =>
            match expr.t_Type (expr.p_current p1) with
            | expr.TokenRParen => Some (node, expr.advance p1)
            | _ => Some (None, expr.addError p1 "expected ')'")
            end
        end
    | ty =>
        Some (None,
              expr.addError p ("unexpected token: " ++ expr.TokenType_String ty))
    end.
Proof. reflexivity. Qed.

Lemma parsed_error (p : expr.Parser) (msg : string) :
  lexerOK (expr.p_lexer p) -> parsed p (Some (None, expr.addError p msg)).
Proof.
  intros Hok. destruct (addError_step p msg Hok) as [Hs He].
  exists None, (expr.addError p msg). auto.
Qed.

Lemma parsed_advance (p : expr.Parser) (node : expr.Node) :
  lexerOK (expr.p_lexer p) -> parsed p (Some (Some node, expr.advance p)).
Proof.
  intros Hok. destruct (advance_step p Hok) as (Hs & _).
  exists (Some node), (expr.advance p).
  split; [reflexivity |]. split; [exact Hs | discriminate].
Qed.

Lemma parsed_after (p q : expr.Parser)
    (res : option (option expr.Node * expr.Parser)) :
  parserStep p q -> parsed q res -> parsed p res.
Proof.
  intros Hpq (node & p' & Heq & Hs & Hnil). exists node, p'.
  split; [exact Heq |]. split; [eapply parserStep_trans; eassumption | exact Hnil].
Qed.

(** A depth of three for each byte and token left to read, and three
    more, is never used up. *)
Lemma parse_depth_enough (d : nat) :
  (forall (p : expr.Parser) (prec : Z),
      lexerOK (expr.p_lexer p) -> 0 <= prec ->
      (3 * parserMeasure p + 3 <= d)%nat ->
      parsed p (expr.parseExpression ParseFloat d p prec))
  /\ (forall (p : expr.Parser) (prec : Z) (lhs : option expr.Node),
      lexerOK (expr.p_lexer p) -> 0 <= prec ->
      (3 * parserMeasure p + 1 <= d)%nat ->
      (lhs = None -> (0 < length (expr.p_errors p))%nat) ->
      parsed p (expr.parseBinaryLoop ParseFloat d p prec lhs))
  /\ (forall p : expr.Parser,
      lexerOK (expr.p_lexer p) ->
      (3 * parserMeasure p + 2 <= d)%nat ->
      parsed p (expr.parseUnary ParseFloat d p))
  /\ (forall p : expr.Parser,
      lexerOK (expr.p_lexer p) ->
      (3 * parserMeasure p + 1 <= d)%nat ->
      parsed p (expr.parsePrimary ParseFloat d p))
  /\ (forall (p : expr.Parser) (name : string),
      lexerOK (expr.p_lexer p) -> notEOF (expr.p_current p) = 1%nat ->
      (3 * parserMeasure p + 1 <= d)%nat ->
      parsed p (expr.parseCall ParseFloat d p name))
  /\ (forall (p : expr.Parser) (args : list (option expr.Node)),
      lexerOK (expr.p_lexer p) ->
      (3 * parserMeasure p + 1 <= d)%nat ->
      (expr.allNodes args = None -> (0 < length (expr.p_errors p))%nat) ->
      parsedArgs p (expr.parseArgsLoop ParseFloat d p args)).
Proof.
  induction d as [| d (IHE & IHL & IHU & IHP & IHC & IHA)].
  { repeat split; intros; lia. }
  split; [| split; [| split; [| split; [| split]]]].
  - (* parseExpression *)
    intros p prec Hok Hprec Hd. rewrite parseExpression_S.
    destruct (IHU p Hok) as (lhs & p1 & Heq & Hs & Hnil); [lia |].
    rewrite Heq. pose proof Hs as (Hok1 & _ & Hm1 & _).
    eapply parsed_after; [exact Hs |].
    apply IHL; [assumption | assumption | lia | exact Hnil].
  - (* the loop of parseExpression *)
    intros p prec lhs Hok Hprec Hd Hlhs. rewrite parseBinaryLoop_S.
    destruct (prec <? expr.precedence (expr.t_Type (expr.p_current p))) eqn:Hlt.
    + pose proof (precedence_notEOF _ _ Hprec Hlt) as Hne.
      destruct (advance_step p Hok) as (Hs & _ & He & Hm).
      pose proof Hs as (Hok0 & _).
      destruct (IHE (expr.advance p)
                  (expr.precedence (expr.t_Type (expr.p_current p))) Hok0)
        as (rhs & p1 & Heq & Hs1 & Hnil1);
        [apply precedence_nonneg | lia |].
      rewrite Heq. pose proof Hs1 as (Hok1 & _ & Hm1 & Hl1).
      eapply parsed_after; [eapply parserStep_trans; eassumption |].
      apply IHL; [assumption | assumption | lia |].
      intros Hnone. apply mkBinary_None in Hnone. destruct Hnone as [Hn | Hn].
      * specialize (Hlhs Hn). rewrite He in Hl1. lia.
      * exact (Hnil1 Hn).
    + exists lhs, p. split; [reflexivity |].
      split; [apply parserStep_refl; assumption | exact Hlhs].
  - (* parseUnary *)
    intros p Hok Hd. rewrite parseUnary_S.
    assert (Hop : notEOF (expr.p_current p) = 1%nat ->
                  parsed p
                    match expr.parseUnary ParseFloat d (expr.advance p) with
                    | None => None
                    | Some (x, p1) =>
                        Some (expr.mkUnary (expr.t_Type (expr.p_current p)) x, p1)
                    end).
    { intros Hne. destruct (advance_step p Hok) as (Hs & _ & He & Hm).
      pose proof Hs as (Hok0 & _).
      destruct (IHU (expr.advance p) Hok0) as (x & p1 & Heq & Hs1 & Hnil1);
        [lia |].
      rewrite Heq. exists (expr.mkUnary (expr.t_Type (expr.p_current p)) x), p1.
      split; [reflexivity |].
      split; [eapply parserStep_trans; eassumption |].
      intros Hnone. apply Hnil1. destruct x; [discriminate | reflexivity]. }
    destruct (expr.t_Type (expr.p_current p)) eqn:Hty;
      try (apply IHP; [assumption | lia]);
      apply Hop; unfold notEOF; rewrite Hty; reflexivity.
  - (* parsePrimary *)
    intros p Hok Hd. rewrite parsePrimary_S.
    destruct (advance_step p Hok) as (Hs & _ & He & Hm).
    pose proof Hs as (Hok0 & _).
    destruct (expr.t_Type (expr.p_current p)) eqn:Hty;
      try (apply parsed_error; assumption);
      try (apply parsed_advance; assumption).
    + (* a number *)
      destruct (ParseFloat (expr.t_Literal (expr.p_current p)));
        [apply parsed_advance | apply parsed_error]; assumption.
    + (* an identifier, or a call *)
      assert (Hne : notEOF (expr.p_current p) = 1%nat)
        by (unfold notEOF; rewrite Hty; reflexivity).
      destruct (expr.t_Type (expr.p_current (expr.advance p))) eqn:Hty1;
        try (apply parsed_advance; assumption).
      eapply parsed_after; [exact Hs |].
      apply IHC; [assumption | unfold notEOF; rewrite Hty1; reflexivity | lia].
    + (* a parenthesis *)
      assert (Hne : notEOF (expr.p_current p) = 1%nat)
        by (unfold notEOF; rewrite Hty; reflexivity).
      destruct (IHE (expr.advance p) expr.precLowest Hok0)
        as (node & p1 & Heq & Hs1 & Hnil1);
        [unfold expr.precLowest; lia | lia |].
      rewrite Heq. pose proof Hs1 as (Hok1 & _).
      eapply parsed_after; [eapply parserStep_trans; eassumption |].
      destruct (expr.t_Type (expr.p_current p1));
        try (apply parsed_error; assumption).
      destruct (advance_step p1 Hok1) as (Hs2 & _ & He2 & _).
      exists node, (expr.advance p1). split; [reflexivity |].
      split; [exact Hs2 |]. rewrite He2. exact Hnil1.
  - (* parseCall *)
    intros p name Hok Hne Hd. rewrite parseCall_S.
    destruct (advance_step p Hok) as (Hs & _ & He & Hm).
    pose proof Hs as (Hok0 & _).
    assert (Hargs : parsed p
              match expr.parseExpression ParseFloat d (expr.advance p)
                      expr.precLowest with
              | None => None
              | Some (a, p2) =>
                  match expr.parseArgsLoop ParseFloat d p2 [a] with
                  | None => None
                  | Some (args, p3) => Some (expr.closeCall name args p3)
                  end
              end).
    { destruct (IHE (expr.advance p) expr.precLowest Hok0)
        as (a & p2 & Heq & Hs2 & Hnil2);
        [unfold expr.precLowest; lia | lia |].
      rewrite Heq. pose proof Hs2 as (Hok2 & _ & Hm2 & _).
      destruct (IHA p2 [a] Hok2) as (args & p3 & Heq3 & Hs3 & Hnil3); [lia | |].
      { intros Hnone. apply Hnil2. destruct a; [discriminate | reflexivity]. }
      rewrite Heq3. pose proof Hs3 as (Hok3 & _).
      destruct (closeCall_step name args p3 Hok3 Hnil3) as [Hs4 Hnil4].
      exists (fst (expr.closeCall name args p3)), (snd (expr.closeCall name args p3)).
      split; [destruct (expr.closeCall name args p3); reflexivity |].
      split; [| exact Hnil4].
      eapply parserStep_trans; [exact Hs |].
      eapply parserStep_trans; [exact Hs2 |].
      eapply parserStep_trans; [exact Hs3 | exact Hs4]. }
    destruct (expr.t_Type (expr.p_current (expr.advance p))); try exact Hargs.
    destruct (closeCall_step name [] (expr.advance p) Hok0) as [Hs4 Hnil4];
      [discriminate |].
    exists (fst (expr.closeCall name [] (expr.advance p))),
           (snd (expr.closeCall name [] (expr.advance p))).
    split; [destruct (expr.closeCall name [] (expr.advance p)); reflexivity |].
    split; [eapply parserStep_trans; eassumption | exact Hnil4].
  - (* the loop of parseCall *)
    intros p args Hok Hd Hargs. rewrite parseArgsLoop_S.
    destruct (expr.t_Type (expr.p_current p)) eqn:Hty;
      try (exists args, p; split; [reflexivity |];
           split; [apply parserStep_refl; assumption | exact Hargs]).
    assert (Hne : notEOF (expr.p_current p) = 1%nat)
      by (unfold notEOF; rewrite Hty; reflexivity).
    destruct (advance_step p Hok) as (Hs & _ & He & Hm).
    pose proof Hs as (Hok0 & _).
    destruct (IHE (expr.advance p) expr.precLowest Hok0)
      as (a & p1 & Heq & Hs1 & Hnil1);
      [unfold expr.precLowest; lia | lia |].
    rewrite Heq. pose proof Hs1 as (Hok1 & _ & Hm1 & Hl1).
    destruct (IHA p1 (args ++ [a])%list Hok1)
      as (args' & p' & Heq' & Hs' & Hnil'); [lia | |].
    { intros Hnone. apply allNodes_snoc in Hnone. destruct Hnone as [Hn | Hn].
      - specialize (Hargs Hn). rewrite He in Hl1. lia.
      - exact (Hnil1 Hn). }
    exists args', p'. split; [exact Heq' |]. split; [| exact Hnil'].
    eapply parserStep_trans; [exact Hs |].
    eapply parserStep_trans; eassumption.
Qed.

Lemma NewParser_ok (input : string) :
  lexerOK (expr.p_lexer (expr.NewParser input))
  /\ expr.l_input (expr.p_lexer (expr.NewParser input)) = input
  /\ (parserMeasure (expr.NewParser input) <= String.length input)%nat
  /\ expr.p_errors (expr.NewParser input) = [].
Proof.
  destruct (NewLexer_ok input) as (Hok & Hin & Hpos).
  unfold expr.NewParser. cbv zeta.
  set (p0 := {| expr.p_lexer := expr.NewLexer input;
                expr.p_current := {| expr.t_Type := expr.TokenEOF;
                                     expr.t_Literal := ""; expr.t_Pos := 0 |};
                expr.p_peek := {| expr.t_Type := expr.TokenEOF;
                                  expr.t_Literal := ""; expr.t_Pos := 0 |};
                expr.p_errors := [] |}).
  assert (Hm0 : parserMeasure p0 = String.length input).
  { unfold parserMeasure, p0, notEOF.
    cbn [expr.p_lexer expr.p_peek expr.p_current expr.t_Type].
    rewrite Hin, Hpos. lia. }
  destruct (advance_step p0 Hok) as ((Hok1 & Hin1 & Hm1 & _) & _ & He1 & _).
  destruct (advance_step (expr.advance p0) Hok1)
    as ((Hok2 & Hin2 & Hm2 & _) & _ & He2 & _).
  split; [exact Hok2 |]. split; [rewrite Hin2, Hin1; exact Hin |].
  split; [lia |]. rewrite He2, He1. reflexivity.
Qed.

(** [Parser.Parse] on a new parser returns, with a tree or an error. *)
Lemma Parser_Parse_cases (input : string) :
  (exists (tree : expr.Node) (p : expr.Parser),
      expr.Parser_Parse ParseFloat (expr.parseDepth input) (expr.NewParser input)
      = Some (Some tree, None, p))
  \/ (exists (err : error) (p : expr.Parser),
         expr.Parser_Parse ParseFloat (expr.parseDepth input)
           (expr.NewParser input)
         = Some (None, Some err, p)).
Proof.
  destruct (NewParser_ok input) as (Hok & Hin & Hm & He).
  destruct (parse_depth_enough (expr.parseDepth input)) as (HE & _).
  destruct (HE (expr.NewParser input) expr.precLowest Hok)
    as (node & p1 & Heq & _ & Hnil).
  { unfold expr.precLowest. lia. }
  { unfold expr.parseDepth. lia. }
  unfold expr.Parser_Parse. rewrite Heq.
  destruct (expr.t_Type (expr.p_current p1));
    try (right; do 2 eexists; reflexivity).
  destruct (0 <? length (expr.p_errors p1))%nat eqn:Herr.
  - right. do 2 eexists. reflexivity.
  - apply Nat.ltb_ge in Herr. destruct node as [tree |].
    + left. exists tree, p1. reflexivity.
    + specialize (Hnil eq_refl). lia.
Qed.

(** X10. [Parse] returns on every input, and with either a tree and a
    nil error or no tree and an error, never with both nil; [Compile]
    then returns an Expression that holds the input and that tree, or
    that same error. *)
Theorem Parse_gives_tree_or_error (input : string) :
  (exists tree : expr.Node,
      expr.Parse ParseFloat input = Some (Some tree, None)
      /\ expr.Compile ParseFloat Pow input
         = Some (Some {| expr.raw := input; expr.ast := tree;
                         expr.evaluator := expr.NewEvaluator Pow |}, None))
  \/ (exists err : error,
         expr.Parse ParseFloat input = Some (None, Some err)
         /\ expr.Compile ParseFloat Pow input = Some (None, Some err)).
Proof.
  unfold expr.Compile, expr.Parse.
  destruct (Parser_Parse_cases input) as [(tree & p & Heq) | (err & p & Heq)];
    rewrite Heq.
  - left. exists tree. split; reflexivity.
  - right. exists err. split; reflexivity.
Qed.

(** X30. [NewFormula] returns on every configuration, a rule or an
    error. A configuration with an ID, a target and a formula function
    gives a rule that holds the function and no compiled expression: the
    expression text is kept and not compiled, whatever it is. With no
    function and an expression that parses, the rule holds the compiled
    expression, made of the text and the tree [Parse] gives. With no
    function and an expression that does not parse, the error is
    [ErrInvalidExpression] and carries the parser's message. A rule
    that [NewFormula] returns therefore has a function or a compiled
    expression. *)
Theorem NewFormula_compiles_expression (cfg : FormulaConfig) :
  (exists r : FormulaRule,
      NewFormula quote Pow ParseFloat cfg = Some (Some r, None)
      /\ fc_ID cfg <> "" /\ fc_Target cfg <> ""
      /\ br_id (fr_base r) = fc_ID cfg /\ fr_target r = fc_Target cfg
      /\ fr_formula r = fc_Formula cfg
      /\ fr_expression r = fc_Expression cfg
      /\ match fc_Formula cfg with
         | Some _ => fr_compiledExpr r = None
         | None =>
             fc_Expression cfg <> ""
             /\ exists tree : expr.Node,
                 expr.Parse ParseFloat (fc_Expression cfg)
                 = Some (Some tree, None)
                 /\ fr_compiledExpr r
                    = Some {| expr.raw := fc_Expression cfg; expr.ast := tree;
                              expr.evaluator := expr.NewEvaluator Pow |}
         end)
  \/ (exists err : error,
         NewFormula quote Pow ParseFloat cfg = Some (None, Some err)
         /\ ((errors_Is (Some err) (Some ErrInvalidRule) = true
              /\ (fc_ID cfg = "" \/ fc_Target cfg = ""
                  \/ (fc_Formula cfg = None /\ fc_Expression cfg = "")))
             \/ (errors_Is (Some err) (Some ErrInvalidExpression) = true
                 /\ fc_ID cfg <> "" /\ fc_Target cfg <> ""
                 /\ fc_Formula cfg = None
                 /\ exists perr : error,
                     expr.Parse ParseFloat (fc_Expression cfg)
                     = Some (None, Some perr)
                     /\ Error quote err
                        = "cortex: invalid expression: formula rule "
                            ++ quote (fc_ID cfg) ++ " expression error: "
                            ++ Error quote perr))).
Proof.
  unfold NewFormula, isEmpty.
  destruct (String.eqb_spec (fc_ID cfg) "") as [Hid | Hid].
  { right. eexists. split; [reflexivity |]. left.
    split; [apply wrapf_sentinel_Is | auto]. }
  destruct (String.eqb_spec (fc_Target cfg) "") as [Htarget | Htarget].
  { right. eexists. split; [reflexivity |]. left.
    split; [apply wrapf_sentinel_Is | auto]. }
  destruct (fc_Formula cfg) as [fn |] eqn:Hfn.
  { left. rewrite andb_false_r. cbn [andb].
    eexists. split; [reflexivity |]. cbn.
    repeat split; try assumption; reflexivity. }
  cbn [andb]. rewrite andb_true_r.
  destruct (String.eqb_spec (fc_Expression cfg) "") as [Hexpr | Hexpr].
  { right. eexists. split; [reflexivity |]. left.
    split; [apply wrapf_sentinel_Is | auto]. }
  cbn [negb].
  unfold expr.Compile, expr.Parse.
  destruct (Parser_Parse_cases (fc_Expression cfg))
    as [(tree & p & Heq) | (perr & p & Heq)];
    rewrite Heq.
  - left. eexists. split; [reflexivity |]. cbn.
    repeat split; try assumption; try reflexivity; try (symmetry; exact Hfn).
    exists tree. split; reflexivity.
  - right. eexists. split; [reflexivity |]. right.
    split; [apply wrapf_sentinel_Is |].
    repeat split; try assumption.
    exists perr. split; reflexivity.
Qed.

End ParserProperties.
End Properties.

(** ** The scenarios, evaluated *)

(** *** C1 *)

(** C1, the claim as stated fails: a second [Halt] with another rule id
    does not leave the first caller's id in [HaltedBy]. *)
Lemma Halt_second_call_overwrites :
  HaltedBy (Halt (Halt (NewEvalContext "eval-1") "first") "second") <> "first".
Proof. simpl. discriminate. Qed.

(** *** C2 *)

(** The key 50000 lies on the boundary of the first two brackets and is
    answered by the second. *)
Lemma RangeLookup_boundary_goes_up :
  RangeLookup_Get VFloat64 taxBrackets (VInt 50000) = (VFloat64 0.22, true).
Proof.
  destruct (RangeLookup_Get_first_match VFloat64 taxBrackets (VInt 50000))
    as [_ H].
  destruct (H 50000%float eq_refl) as [Hfirst _].
  apply (Hfirst 1%nat {| Min := 50000; Max := 100000; Value := 0.22 |}%float).
  - reflexivity.
  - reflexivity.
  - intros j r' Hj Hr'. destruct j as [| j]; [| lia].
    injection Hr' as <-. reflexivity.
Defined.

(** *** C3 *)

(** The fail-fast scenario of the tests: a failing formula, then the
    assignment [y = 42], on a fresh context. The call returns the error,
    [y] is absent, and no rule is counted. *)
Lemma FailFast_scenario :
  exists res : Result,
    Evaluate failFastEngine neverDone (Some (NewEvalContext "eval-1"))
    = (Some res, Some failError, Some (r_Context res))
    /\ Has (r_Context res) (AssignmentRule_Target afterFail) = false
    /\ r_RulesEvaluated res = 0.
Proof.
  pose proof (FailFast_stops_at_failure failFastEngine neverDone
                (NewEvalContext "eval-1") [] failRule
                [AssignmentRule_asRule afterFail]
                (NewEvalContext "eval-1") (NewEvalContext "eval-1") failError
                eq_refl eq_refl eq_refl
                (allSucceed_nil DefaultConfig neverDone 0%nat (NewEvalContext "eval-1"))
                eq_refl eq_refl eq_refl) as H.
  cbv zeta in H. destruct H as (Heval & _ & _ & Hkeys & _ & Hcount).
  eexists. split; [exact Heval |]. split.
  - apply Hkeys. reflexivity.
  - rewrite Hcount; [reflexivity |]. unfold int64. simpl. lia.
Defined.

(** C3, the claim as stated fails: the target of a rule after the
    failing one can be in the context, written by an earlier rule. Here
    the rule at position 1 fails, the call returns its error, and the
    target [y] of the rule at position 2 is present. *)
Lemma FailFast_later_target_present :
  exists (res : Result) (final : EvalContext),
    Evaluate presetEngine neverDone (Some (NewEvalContext "eval-1"))
    = (Some res, Some failError, Some final)
    /\ r_Context res = final
    /\ Has final (AssignmentRule_Target afterFail) = true
    /\ Get final (AssignmentRule_Target afterFail) = (VInt 1, true).
Proof.
  do 2 eexists. split; [vm_compute; reflexivity |].
  split; [reflexivity |]. split; reflexivity.
Qed.

(** *** C4 *)


(** *** C9 *)

(** A halted evaluation with no error collected: the result is not a
    success. *)
Lemma Evaluate_halted_not_success :
  exists (res : Result) (final : EvalContext),
    Evaluate haltingEngine neverDone (Some (NewEvalContext "eval-1"))
    = (Some res, None, Some final)
    /\ r_Errors res = []
    /\ r_HaltedBy res = "stop"
    /\ r_Success res = false.
Proof.
  assert (H : Evaluate haltingEngine neverDone (Some (NewEvalContext "eval-1"))
              = (Some (newResult (incRulesEvaluated (Halt (NewEvalContext "eval-1") "stop")) []),
                 None,
                 Some (incRulesEvaluated (Halt (NewEvalContext "eval-1") "stop"))))
    by reflexivity.
  destruct (Evaluate_Success_iff _ _ _ _ _ _ H) as (_ & Hhalted & _).
  do 2 eexists. split; [exact H |]. split; [reflexivity |].
  split; [reflexivity |]. apply Hhalted. reflexivity.
Defined.

(** *** C10 *)

(** It evaluates to the number 3, and [EvalBool] answers false without
    an error. *)
Lemma EvalBool_of_a_number :
  expr.Expression_Eval onePlusTwo (expr.mapGetter ∅) = (VFloat64 3, None)
  /\ expr.EvalBool onePlusTwo (expr.mapGetter ∅) = (false, None).
Proof.
  split; [reflexivity |].
  apply (proj1 (EvalBool_non_bool_is_false onePlusTwo (expr.mapGetter ∅))
               (VFloat64 3)); reflexivity.
Defined.

(** *** C5 *)

(** The department allocation of the tests: 100000 split 50/30/20. The
    shares are 50000, 30000 and 20000, the remainder is 0, and the
    remainder key, though configured, is not written. *)
Lemma allocation_budget_split :
  NewAllocation quotePlain format2fNone budgetConfig = (Some budgetSplit, None)
  /\ calculate PowSquare budgetSplit 100000 = ([50000; 30000; 20000]%float, 0%float)
  /\ snd (calculate PowSquare budgetSplit 100000)
     = (100000 - sumShares (fst (calculate PowSquare budgetSplit 100000)))%float
  /\ Has (fst (run (AllocationRule_Evaluate PowSquare budgetSplit) budgetContext))
         "leftover" = false
  /\ GetFloat64 (fst (run (AllocationRule_Evaluate PowSquare budgetSplit) budgetContext))
                "eng" = (50000%float, None).
Proof.
  assert (Hin : In (al_strategy budgetSplit)
                   [StrategyPercentage; StrategyWeighted; StrategyEqual; StrategyRatio])
    by (left; reflexivity).
  destruct (allocation_remainder PowSquare budgetSplit 100000 Hin)
    as (_ & Hrem & Hrun).
  split; [reflexivity |]. split; [reflexivity |]. split; [exact Hrem |].
  rewrite (Hrun budgetContext eq_refl). split; reflexivity.
Defined.

(** C5, the claim as stated fails: the shares plus the remainder need
    not give back the source. Split 0.02564 by 40/15/15/15/15 at
    precision 2: the shares round to 0.01, 0, 0, 0, 0, the remainder is
    the float64 nearest to 0.01564, and 0.01 plus that remainder is the
    float64 after 0.02564; in exact arithmetic too the two float64
    values add up to more than the source. This holds for whatever
    [math.Pow] returns elsewhere, as long as [Pow(10, 2)] is 100. *)
Lemma allocation_not_conserved :
  NewAllocation quotePlain format2fNone skewedConfig = (Some skewedSplit, None)
  /\ calculate PowSquare skewedSplit skewedSource
     = ([0.01; 0; 0; 0; 0]%float, 0x1.003eea209aaa4p-6%float)
  /\ (sumShares [0.01; 0; 0; 0; 0] + 0x1.003eea209aaa4p-6)%float
     = 0x1.a415f45e0b4e2p-6%float
  /\ ~ (exists Pow : float -> float -> float,
          Pow 10%float 2%float = 100%float
          /\ (conserved Pow skewedSplit skewedSource = true
              \/ conservedExactly Pow skewedSplit skewedSource = true)).
Proof.
  split; [reflexivity |]. split; [reflexivity |]. split; [reflexivity |].
  intros (Pow & HPow & H).
  unfold conserved, conservedExactly, calculate, AllocationRule_round in H.
  cbn [al_strategy al_targets al_precision skewedSplit skewedConfig alc_Targets] in H.
  change (math.ofZ 2) with 2%float in H.
  rewrite HPow in H.
  vm_compute in H. destruct H as [H | H]; discriminate H.
Qed.

(** *** C6 *)

(** A min buildup configured with [Initial] 0: the rule's initial value
    is +Inf, while the context stores the 0 it is handed. *)
Lemma buildup_min_initial :
  (exists r : BuildupRule,
      NewBuildup quotePlain lowestConfig = (Some r, None)
      /\ bu_initial r = infinity)
  /\ b_value (snd (GetOrCreateBuildup (NewEvalContext "eval-1") "lowest"
                     BuildupMin 0)) = 0%float.
Proof.
  split.
  - eexists. split; [reflexivity |].
    apply (proj1 (buildup_initial_values quotePlain) lowestConfig);
      reflexivity.
  - destruct (proj1 (proj2 (buildup_initial_values quotePlain))
                (NewEvalContext "eval-1") "lowest" BuildupMin 0%float eq_refl)
      as [-> _].
    reflexivity.
Defined.

(** *** C7 *)

(** The message the tests expect, for an id that [%q] prints between
    two double quotes. *)
Lemma RuleError_text_example :
  Error quotePlain (ruleError ruleErr1)
  = "cortex: rule " ++ dquote ++ "rule-1" ++ dquote
      ++ " (formula) evaluate: base error"
  /\ errors_Is (Some (ruleError ruleErr1)) (Some baseError) = true.
Proof.
  pose proof (RuleError_text_and_unwrap quotePlain "rule-1" "formula" "evaluate"
                (Some baseError)) as H.
  cbv zeta in H. destruct H as (Htext & _ & _ & _ & His).
  unfold ruleErr1.
  split; [rewrite Htext; reflexivity | apply His; reflexivity].
Defined.

(** C7, the claim as stated fails: the text does not start with the
    word rule but with the prefix [cortex: ]. Whatever [%q] prints for
    the id, the text of this error is not the claimed one. *)
Lemma RuleError_text_has_prefix :
  ~ (exists quote : string -> string,
        Error quote (ruleError ruleErr1)
        = "rule " ++ quote "rule-1" ++ " (formula) evaluate: base error").
Proof.
  intros (quote & H). simpl in H. discriminate H.
Qed.

(** *** C8 *)

(** C8, the claim as stated fails: a config supplying both the value
    and the value function is not rejected. [NewAssignment] returns a
    rule (whatever [%q] prints), and the rule's [Evaluate] stores what
    the function returns. *)
Lemma NewAssignment_accepts_both :
  ~ (exists (quote : string -> string) (err : option error),
        NewAssignment quote bothConfig = (None, err))
  /\ (exists r : AssignmentRule,
         NewAssignment quotePlain bothConfig = (Some r, None)
         /\ run (AssignmentRule_Evaluate r) (NewEvalContext "eval-1")
            = (Set_ (NewEvalContext "eval-1") "x" (VInt 7), None)).
Proof.
  split.
  - intros (quote & err & H). discriminate H.
  - eexists. split; reflexivity.
Qed.

(** *** End-to-end scenarios *)

(** The payroll scenario: the rate is 0.22, the tax 16500, the three
    rules are evaluated and the result is a success. *)
Lemma payroll_scenario :
  exists (res : Result) (final : EvalContext),
    Evaluate payrollEngine neverDone (Some (NewEvalContext "eval-1"))
    = (Some res, None, Some final)
    /\ GetFloat64 final "tax_rate" = (0.22%float, None)
    /\ GetFloat64 final "tax" = (16500%float, None)
    /\ r_Success res = true
    /\ r_RulesEvaluated res = 3.
Proof.
  assert (Hrun :
    match Evaluate payrollEngine neverDone (Some (NewEvalContext "eval-1")) with
    | (Some res, None, Some final) =>
        GetFloat64 final "tax_rate" = (0.22%float, None)
        /\ GetFloat64 final "tax" = (16500%float, None)
        /\ r_Success res = true
        /\ r_RulesEvaluated res = 3
    | _ => False
    end) by (vm_compute; repeat split; reflexivity).
  destruct (Evaluate payrollEngine neverDone (Some (NewEvalContext "eval-1")))
    as [[[res|] [err|]] [final|]]; try contradiction.
  exists res, final. split; [reflexivity | exact Hrun].
Qed.


(** Two values added to a new sum accumulator: count 2, current 30. *)
Lemma Buildup_sum_of_two :
  let b := fold_left Buildup_Add [10; 20]%float
             {| b_Name := "total"; b_Operation := BuildupSum;
                b_value := 0; b_count := 0 |} in
  Buildup_Count b = 2 /\ Buildup_Current b = 30%float.
Proof.
  assert (Hlen : Z.of_nat (length [10; 20]%float) < 2 ^ 63) by (simpl; lia).
  destruct (Buildup_sum_and_count "total" 0%float [10; 20]%float Hlen)
    as (Hcount & Hsum & _).
  split; [exact Hcount | exact Hsum].
Defined.

(** A deadline already passed when the loop starts: no rule runs and
    the error is the timeout. *)
Lemma Evaluate_deadline_passed :
  exists err : error,
    Evaluate failFastEngine (fun _ => Some DeadlineExceeded)
      (Some (NewEvalContext "eval-1"))
    = (None, Some err, Some (NewEvalContext "eval-1"))
    /\ errors_Is (Some err) (Some ErrTimeout) = true
    /\ Error quotePlain err
       = "cortex: evaluation timeout: context deadline exceeded".
Proof.
  apply (Evaluate_cancelled quotePlain failFastEngine
           (fun _ => Some DeadlineExceeded) (NewEvalContext "eval-1")
           [] failRule [AssignmentRule_asRule afterFail]
           (NewEvalContext "eval-1") DeadlineExceeded
           eq_refl eq_refl (allSucceed_nil _ _ _ _) eq_refl).
Defined.

(** The rule [stop] halts: the assignment after it does not run. *)
Lemma Evaluate_stops_after_halt :
  exists (res : Result) (final : EvalContext),
    Evaluate haltingEngine neverDone (Some (NewEvalContext "eval-1"))
    = (Some res, None, Some final)
    /\ Has final "y" = false
    /\ r_HaltedBy res = "stop"
    /\ r_RulesEvaluated res = 1.
Proof.
  assert (Hpre : allSucceed (e_config haltingEngine) neverDone 0 [stopRule]
                   (registerLookups haltingEngine (NewEvalContext "eval-1"))
                   (incRulesEvaluated (Halt (NewEvalContext "eval-1") "stop"))).
  { eapply allSucceed_cons; [reflexivity | reflexivity | reflexivity |].
    apply allSucceed_nil. }
  destruct (Evaluate_short_circuits haltingEngine neverDone
              (NewEvalContext "eval-1") [stopRule]
              (AssignmentRule_asRule afterFail) []
              (incRulesEvaluated (Halt (NewEvalContext "eval-1") "stop"))
              eq_refl eq_refl eq_refl Hpre eq_refl eq_refl)
    as (Heval & _ & Hby).
  do 2 eexists. split; [exact Heval |].
  split; [reflexivity |]. split; [exact Hby | reflexivity].
Defined.

(** Adding a rule to a new engine appends it; adding it again is
    refused as a duplicate. *)
Lemma AddRule_twice :
  (exists e' : Engine,
      AddRule (New "test" None) failRule = (e', None)
      /\ e_rules e' = [failRule])
  /\ (exists err : error,
         AddRule (fst (AddRule (New "test" None) failRule)) failRule
         = (fst (AddRule (New "test" None) failRule), Some err)
         /\ errors_Is (Some err) (Some ErrDuplicateRule) = true).
Proof.
  split.
  - destruct (proj2 (AddRule_appends_or_refuses (New "test" None) failRule eq_refl))
      as (e' & Hadd & Hrules & _).
    + simpl. apply not_elem_of_empty.
    + left. simpl. lia.
    + exists e'. split; [exact Hadd | exact Hrules].
  - apply (proj1 (AddRule_appends_or_refuses
                    (fst (AddRule (New "test" None) failRule)) failRule eq_refl)).
    vm_compute. reflexivity.
Defined.

(** *** Further scenarios *)

(** Adding the failing rule twice in one call: the call is refused on
    the second, and the first stays added. *)
Lemma AddRules_same_rule_twice :
  exists (e' : Engine) (err : error),
    AddRules (New "test" None) [failRule; failRule] = (e', Some err)
    /\ e_rules e' = [failRule]
    /\ errors_Is (Some err) (Some ErrDuplicateRule) = true.
Proof.
  assert (Hnd : List.NoDup (map Rule_ID [failRule])).
  { constructor; [intros [] | constructor]. }
  assert (Hfresh : forall r : Rule,
             In r [failRule] -> Rule_ID r ∉ e_ruleIDs (New "test" None)).
  { intros r _. apply not_elem_of_empty. }
  destruct (AddRules_stops_at_first_refusal (New "test" None) [failRule]
              eq_refl ltac:(simpl; lia) Hnd Hfresh) as [_ Hdup].
  apply (Hdup failRule []). right. left. reflexivity.
Defined.


(** The scenario under continue-on-error evaluates as under
    collect-all. *)
Lemma ContinueOnError_scenario :
  Evaluate collectAllEngine neverDone (Some (NewEvalContext "eval-1"))
  = Evaluate continueEngine neverDone (Some (NewEvalContext "eval-1")).
Proof.
  apply (ContinueOnError_is_CollectAll collectAllEngine continueEngine neverDone
           (Some (NewEvalContext "eval-1")));
    vm_compute; reflexivity.
Defined.

(** A salary of 75000 finds the rate 0.22 in the brackets. *)
Lemma LookupRule_finds_rate :
  run (LookupRule_Evaluate formatValueNone rateLookup) salaryContext
  = (Set_ salaryContext "tax_rate" (VFloat64 0.22), None).
Proof.
  assert (Hkey : Get salaryContext (lr_keySource rateLookup)
                 = (VFloat64 75000, true)) by reflexivity.
  destruct (LookupRule_Evaluate_cases quotePlain formatValueNone rateLookup
              salaryContext (VFloat64 75000) Hkey) as [_ Hfound].
  destruct (Hfound (RangeLookup_asLookup VFloat64 taxBrackets) (VFloat64 0.22))
    as [Hset _].
  - apply lookup_insert_eq.
  - apply Hset. vm_compute. reflexivity.
Defined.

(** Three visits counted. *)
Lemma count_rule_three_visits :
  let again := fun c : EvalContext =>
                 fst (run (BuildupRule_Evaluate countVisits) c) in
  Get (Nat.iter 3 again (NewEvalContext "eval-1")) "visit_count"
  = (VFloat64 3, true).
Proof.
  intros again.
  assert (Hne : bu_target countVisits <> "") by discriminate.
  assert (Hlt : Z.of_nat 3 < 2 ^ 63) by (vm_compute; reflexivity).
  destruct (count_rule_counts_evaluations countVisits (NewEvalContext "eval-1")
              2 eq_refl Hne eq_refl Hlt) as (_ & Hget & _).
  exact Hget.
Defined.

(** [1 / 0] in an expression: the plain error. *)
Lemma expression_one_over_zero :
  expr.evalBinary expr.TokenSlash (VInt 1) (VFloat64 0)
  = (VNil, Some (errorString "division by zero")).
Proof.
  destruct (expression_division_by_zero (VInt 1) (VFloat64 0)
              (math.ofZ 1) 0%float eq_refl eq_refl) as [Hzero _].
  apply Hzero. reflexivity.
Defined.

(** [double(2)] is 4. *)
Lemma RegisterFunc_double :
  expr.Expression_Eval doubleOfTwo (expr.mapGetter ∅) = (VFloat64 4, None).
Proof.
  assert (Hargs : Forall2
            (fun n val =>
               expr.eval (expr.evaluator doubleOfTwo) (expr.mapGetter ∅) n
               = (val, None))
            [expr.NumberLit 2] [VFloat64 2]).
  { repeat constructor. }
  destruct (RegisterFunc_replaces
              (expr.Compiled PowSquare "double(2)"
                 (expr.CallExpr "double" [expr.NumberLit 2]))
              "double" double (expr.mapGetter ∅) [expr.NumberLit 2] [VFloat64 2]
              Hargs) as [Hcall _].
  unfold expr.Expression_Eval. simpl expr.ast.
  etransitivity; [exact Hcall | reflexivity].
Defined.

(** [salary * tax_rate] does not see a third variable. *)
Lemma eval_ignores_other_variables :
  expr.eval (expr.NewEvaluator PowSquare)
    (expr.mapGetter (<["bonus" := VInt 1]>
                       (<["salary" := VFloat64 75000]>
                          (<["tax_rate" := VFloat64 0.22]> ∅))))
    salaryTimesRate
  = expr.eval (expr.NewEvaluator PowSquare)
      (expr.mapGetter (<["salary" := VFloat64 75000]>
                         (<["tax_rate" := VFloat64 0.22]> ∅)))
      salaryTimesRate.
Proof.
  apply eval_reads_only_what_it_mentions.
  - intros name Hin. simpl in Hin.
    destruct Hin as [<- | [<- | []]]; vm_compute; reflexivity.
  - intros name [].
Defined.
